(** * Dangbei2Api: the stream translation engine of [app.py]

    A shallow embedding of the pure core of the gateway: the context
    truncator, the message flattener, the card renderer, the stream
    segmenter in its two delivery modes, and the authorization check.

    Python values are modelled as follows.
    - [str] is a sequence of Unicode code points: [pystr := list N].
      Literals of the source are written [lit "..."], which decodes the
      UTF-8 bytes of the Rocq string.
    - [int] is [Z]; [len] returns a [Z].
    - Exceptions are values of [exn]; a call that may raise returns a
      [result].
    - Values decoded by [json.loads] are the inductive [json]; a [dict] is an
      association list in insertion order. *)

From Stdlib Require Import ZArith NArith Ascii String DecimalString DecimalPos DecimalFacts.
From stdpp Require Import base tactics option list numbers gmap.

Local Open Scope Z_scope.
Set Warnings "-register-all".

(** ** Python strings *)

Definition pystr := list N.

Definition utf8_cont (b : N) : N := (b - 128)%N.

(** Decoder of well-formed UTF-8, used for the literals of the source. *)
Fixpoint utf8_decode (bs : list N) : pystr :=
  match bs with
  | [] => []
  | b0 :: rest0 =>
    if (b0 <? 128)%N then b0 :: utf8_decode rest0
    else match rest0 with
    | [] => [b0]
    | b1 :: rest1 =>
      if (b0 <? 224)%N
      then ((b0 - 192) * 64 + utf8_cont b1)%N :: utf8_decode rest1
      else match rest1 with
      | [] => [b0; b1]
      | b2 :: rest2 =>
        if (b0 <? 240)%N
        then ((b0 - 224) * 4096 + utf8_cont b1 * 64 + utf8_cont b2)%N
               :: utf8_decode rest2
        else match rest2 with
        | [] => [b0; b1; b2]
        | b3 :: rest3 =>
          ((b0 - 240) * 262144 + utf8_cont b1 * 4096
             + utf8_cont b2 * 64 + utf8_cont b3)%N :: utf8_decode rest3
        end
      end
    end
  end.

Definition lit (s : string) : pystr :=
  utf8_decode (map N_of_ascii (list_ascii_of_string s)).

Definition ch (a : ascii) : N := N_of_ascii a.

(** The double quote. *)
Definition QUOTE : N := 34%N.

(** A literal written with ['] where the text has the double quote. *)
Definition quoted (s : string) : pystr :=
  map (fun c => if (c =? 39)%N then QUOTE else c) (lit s).

Definition len (s : pystr) : Z := Z.of_nat (length s).

Fixpoint str_eqb (a b : pystr) : bool :=
  match a, b with
  | [], [] => true
  | x :: a', y :: b' => (x =? y)%N && str_eqb a' b'
  | _, _ => false
  end.

(** [s.startswith(prefix)] *)
Fixpoint startswith (prefix s : pystr) : bool :=
  match prefix, s with
  | [], _ => true
  | p :: prefix', c :: s' => (p =? c)%N && startswith prefix' s'
  | _ :: _, [] => false
  end.

(** Index of the first occurrence of [pat] in [s] ([s.find(pat)], with [None]
    for -1). *)
Fixpoint find (pat s : pystr) : option nat :=
  if startswith pat s then Some 0%nat
  else match s with
       | [] => None
       | _ :: s' => S <$> find pat s'
       end.

(** [s.replace(old, new)] for a non-empty [old]: occurrences are replaced from
    left to right and do not overlap.  [skip] counts the characters of the
    occurrence just replaced that are still to be passed over. *)
Fixpoint replace_from (old new : pystr) (skip : nat) (s : pystr) : pystr :=
  match s with
  | [] => []
  | c :: s' =>
    match skip with
    | S k => replace_from old new k s'
    | O => if startswith old s
           then new ++ replace_from old new (length old - 1) s'
           else c :: replace_from old new 0 s'
    end
  end.

Definition str_replace (old new s : pystr) : pystr := replace_from old new 0 s.

(** [str.isspace] on one code point (CPython's [_PyUnicode_IsWhitespace]). *)
Definition isspace (c : N) : bool :=
  ((9 <=? c) && (c <=? 13) || (28 <=? c) && (c <=? 32)
   || (c =? 133) || (c =? 160) || (c =? 5760)
   || (8192 <=? c) && (c <=? 8202)
   || (c =? 8232) || (c =? 8233) || (c =? 8239) || (c =? 8287)
   || (c =? 12288))%N.

Fixpoint lstrip (s : pystr) : pystr :=
  match s with
  | c :: s' => if isspace c then lstrip s' else s
  | [] => []
  end.

Definition rstrip (s : pystr) : pystr := reverse (lstrip (reverse s)).

(** [s.strip()] *)
Definition strip (s : pystr) : pystr := rstrip (lstrip s).

(** [sep.join(parts)] *)
Fixpoint join (sep : pystr) (parts : list pystr) : pystr :=
  match parts with
  | [] => []
  | [p] => p
  | p :: rest => p ++ sep ++ join sep rest
  end.

(** The join of [parts] with the empty separator. *)
Definition concat_parts (parts : list pystr) : pystr := mjoin parts.

Definition upper_ascii (c : N) : N :=
  if ((97 <=? c) && (c <=? 122))%N then (c - 32)%N else c.

Definition lower_ascii (c : N) : N :=
  if ((65 <=? c) && (c <=? 90))%N then (c + 32)%N else c.

(** [s.capitalize()] on ASCII text (it is applied to role names only). *)
Definition capitalize (s : pystr) : pystr :=
  match s with
  | [] => []
  | c :: s' => upper_ascii c :: map lower_ascii s'
  end.

(** [str(n)] for an [int]. *)
Definition str_of_int (n : Z) : pystr :=
  lit (NilZero.string_of_int (Z.to_int n)).

(** [re.sub(OPEN + ".*?" + CLOSE, EMPTY, s, flags=re.DOTALL)] for two literal
    tags.  The engine tries a match at each position from left to right; a
    match at a position starts with [open] and, the quantifier being lazy and
    [.] matching every character, ends with the first [close] after it.
    [match_len] is the length of the match at the head of [s], if any. *)
Definition match_len (open close s : pystr) : option nat :=
  if startswith open s
  then (fun n => length open + n + length close)%nat
         <$> find close (drop (length open) s)
  else None.

Fixpoint sub_from (open close : pystr) (skip : nat) (s : pystr) : pystr :=
  match s with
  | [] => []
  | c :: s' =>
    match skip with
    | S k => sub_from open close k s'
    | O => match match_len open close s with
           | Some n => sub_from open close (n - 1) s'
           | None => c :: sub_from open close 0 s'
           end
    end
  end.

Definition re_sub_span (open close s : pystr) : pystr := sub_from open close 0 s.

(** ** Exceptions *)

Inductive exn :=
| JSONDecodeError
| AttributeError
| TypeError
| HTTPException (status_code : Z) (detail : pystr).

Inductive result (A : Type) :=
| Ok (a : A)
| Raise (e : exn).
Arguments Ok {A} a.
Arguments Raise {A} e.

Definition bind {A B} (r : result A) (k : A -> result B) : result B :=
  match r with
  | Ok a => k a
  | Raise e => Raise e
  end.

Declare Scope py_scope.
Delimit Scope py_scope with py.
Notation "x <- r ; k" := (bind r (fun x => k))
  (at level 100, r at next level, right associativity) : py_scope.
Local Open Scope py_scope.

(** ** Values decoded by [json.loads] *)

(** A [float] is kept as the exact decimal value of its literal,
    [(-1)^neg * mantissa * 10^exp10]; Python rounds it to the nearest double. *)
Inductive pyfloat :=
| FNaN
| FInfinity (neg : bool)
| FDec (neg : bool) (mantissa : N) (exp10 : Z).

Inductive json :=
| JNull
| JBool (b : bool)
| JInt (n : Z)
| JFloat (f : pyfloat)
| JStr (s : pystr)
| JArr (items : list json)
| JObj (fields : list (pystr * json)).

(** A decimal rounds to the double [0.0] exactly when its magnitude is at most
    [2^-1075], half of the least subnormal (ties go to the even neighbour). *)
Definition float_is_zero (f : pyfloat) : bool :=
  match f with
  | FNaN | FInfinity _ => false
  | FDec _ m e =>
    (m =? 0)%N
    || (e <? 0) && (Z.of_N m * 2 ^ 1075 <=? 10 ^ (- e))
  end.

(** Truth value of a decoded value, as tested by [if x] and [x or y]. *)
Definition truthy (v : json) : bool :=
  match v with
  | JNull => false
  | JBool b => b
  | JInt n => negb (n =? 0)
  | JFloat f => negb (float_is_zero f)
  | JStr s => negb (str_eqb s [])
  | JArr l => match l with [] => false | _ => true end
  | JObj l => match l with [] => false | _ => true end
  end.

(** [d[key]] lookup of a dict, as an option. *)
Fixpoint dict_lookup (key : pystr) (d : list (pystr * json)) : option json :=
  match d with
  | [] => None
  | (k, v) :: d' => if str_eqb k key then Some v else dict_lookup key d'
  end.

(** [d[key] = v]: an existing key keeps its position and takes the new value. *)
Fixpoint dict_set (key : pystr) (v : json) (d : list (pystr * json))
  : list (pystr * json) :=
  match d with
  | [] => [(key, v)]
  | (k, w) :: d' =>
    if str_eqb k key then (k, v) :: d' else (k, w) :: dict_set key v d'
  end.

(** [obj.get(key, default)]: only a dict has the method. *)
Definition py_get (obj : json) (key : pystr) (default : json) : result json :=
  match obj with
  | JObj d => Ok (match dict_lookup key d with Some v => v | None => default end)
  | _ => Raise AttributeError
  end.

(** [x == "literal"] for a decoded value [x]. *)
Definition eq_str (v : json) (s : pystr) : bool :=
  match v with
  | JStr t => str_eqb t s
  | _ => false
  end.

(** The items visited by [for x in v]: the elements of a list, the keys of a
    dict, the characters of a str; nothing else is iterable. *)
Definition py_iter (v : json) : result (list json) :=
  match v with
  | JArr l => Ok l
  | JObj d => Ok (map (fun kv => JStr (fst kv)) d)
  | JStr s => Ok (map (fun c => JStr [c]) s)
  | _ => Raise TypeError
  end.

(** ** [json.loads] on a str

    The scanner of CPython's [json] module, with its default settings
    ([strict] strings, the constants [NaN], [Infinity] and [-Infinity]
    accepted).  A text that the scanner rejects raises [JSONDecodeError].  The
    interpreter's recursion limit and its limit on the digits of an int
    literal are not modelled: on a text that CPython gives up on for one of
    them (with [RecursionError] or [ValueError]) the model goes on as if there
    were no limit.  The statements below therefore take the outcome of the
    decoding as a hypothesis, the decoded value or the [JSONDecodeError], and
    say what the code does with it. *)

Inductive scan (A : Type) :=
| Scanned (a : A) (rest : pystr)
| Invalid
| NoFuel.
Arguments Scanned {A} a rest.
Arguments Invalid {A}.
Arguments NoFuel {A}.

Definition is_ws (c : N) : bool :=
  ((c =? 32) || (c =? 9) || (c =? 10) || (c =? 13))%N.

Fixpoint skip_ws (s : pystr) : pystr :=
  match s with
  | c :: s' => if is_ws c then skip_ws s' else s
  | [] => []
  end.

Definition is_digit (c : N) : bool := ((48 <=? c) && (c <=? 57))%N.

Definition hex_digit (c : N) : option N :=
  if is_digit c then Some (c - 48)%N
  else if ((97 <=? c) && (c <=? 102))%N then Some (c - 87)%N
  else if ((65 <=? c) && (c <=? 70))%N then Some (c - 55)%N
  else None.

(** The four hexadecimal digits of a [\uXXXX] escape. *)
Definition hex4 (s : pystr) : option (N * pystr) :=
  match s with
  | a :: b :: c :: d :: rest =>
    match hex_digit a, hex_digit b, hex_digit c, hex_digit d with
    | Some x, Some y, Some z, Some w =>
      Some (x * 4096 + y * 256 + z * 16 + w, rest)%N
    | _, _, _, _ => None
    end
  | _ => None
  end.

Definition is_high_surrogate (c : N) : bool := ((55296 <=? c) && (c <=? 56319))%N.
Definition is_low_surrogate (c : N) : bool := ((56320 <=? c) && (c <=? 57343))%N.
Definition join_surrogates (hi lo : N) : N :=
  (65536 + ((hi - 55296) * 1024 + (lo - 56320)))%N.

Definition simple_escape (c : N) : option N :=
  if (c =? QUOTE)%N then Some c
  else if (c =? ch "\")%N then Some c
  else if (c =? ch "/")%N then Some c
  else if (c =? ch "b")%N then Some 8%N
  else if (c =? ch "f")%N then Some 12%N
  else if (c =? ch "n")%N then Some 10%N
  else if (c =? ch "r")%N then Some 13%N
  else if (c =? ch "t")%N then Some 9%N
  else None.

(** [scanstring]: the body of a string literal, after its opening quote. *)
Fixpoint scanstring (fuel : nat) (s acc : pystr) : scan pystr :=
  match fuel with
  | O => NoFuel
  | S fuel' =>
    match s with
    | [] => Invalid
    | c :: s1 =>
      if (c =? QUOTE)%N then Scanned acc s1
      else if (c =? ch "\")%N then
        match s1 with
        | [] => Invalid
        | e :: s2 =>
          if (e =? ch "u")%N then
            match hex4 s2 with
            | None => Invalid
            | Some (cp, s3) =>
              if is_high_surrogate cp then
                match s3 with
                | b :: u :: s4 =>
                  if ((b =? ch "\") && (u =? ch "u"))%N then
                    match hex4 s4 with
                    | None => Invalid
                    | Some (cp2, s5) =>
                      if is_low_surrogate cp2
                      then scanstring fuel' s5 (acc ++ [join_surrogates cp cp2])
                      else scanstring fuel' s3 (acc ++ [cp])
                    end
                  else scanstring fuel' s3 (acc ++ [cp])
                | _ => scanstring fuel' s3 (acc ++ [cp])
                end
              else scanstring fuel' s3 (acc ++ [cp])
            end
          else
            match simple_escape e with
            | Some x => scanstring fuel' s2 (acc ++ [x])
            | None => Invalid
            end
        end
      else if (c <=? 31)%N then Invalid
      else scanstring fuel' s1 (acc ++ [c])
    end
  end.

Fixpoint span_digits (s : pystr) : pystr * pystr :=
  match s with
  | c :: s' =>
    if is_digit c
    then let '(ds, rest) := span_digits s' in (c :: ds, rest)
    else ([], s)
  | [] => ([], [])
  end.

Definition digits_value (ds : pystr) : N :=
  fold_left (fun acc c => (acc * 10 + (c - 48))%N) ds 0%N.

Definition signed (neg : bool) (n : Z) : Z := if neg then - n else n.

(** The number at the head of [s]: an optional minus sign, then [0] or a
    non-zero digit followed by digits, then an optional fraction (a dot and at
    least one digit), then an optional exponent ([e] or [E], an optional sign,
    at least one digit).  It is an [int] when it has neither fraction nor
    exponent. *)
Definition match_number (s : pystr) : option (json * pystr) :=
  let '(neg, s1) :=
    match s with
    | c :: s' => if (c =? ch "-")%N then (true, s') else (false, s)
    | [] => (false, s)
    end in
  match s1 with
  | [] => None
  | c :: s2 =>
    let int_part :=
      if (c =? ch "0")%N then Some ([c], s2)
      else if is_digit c
           then let '(ds, rest) := span_digits s2 in Some (c :: ds, rest)
           else None in
    match int_part with
    | None => None
    | Some (ip, s3) =>
      let '(frac, s4) :=
        match s3 with
        | dot :: d :: _ =>
          if ((dot =? ch ".")%N && is_digit d) then span_digits (tail s3)
          else ([], s3)
        | _ => ([], s3)
        end in
      let '(expo, s5) :=
        match s4 with
        | e :: s' =>
          if ((e =? ch "e") || (e =? ch "E"))%N then
            let '(eneg, s'') :=
              match s' with
              | sg :: t =>
                if (sg =? ch "-")%N then (true, t)
                else if (sg =? ch "+")%N then (false, t)
                else (false, s')
              | [] => (false, s')
              end in
            let '(eds, rest) := span_digits s'' in
            match eds with
            | [] => (None, s4)
            | _ => (Some (signed eneg (Z.of_N (digits_value eds))), rest)
            end
          else (None, s4)
        | [] => (None, s4)
        end in
      match frac, expo with
      | [], None => Some (JInt (signed neg (Z.of_N (digits_value ip))), s5)
      | _, _ =>
        Some (JFloat (FDec neg (digits_value (ip ++ frac))
                       (default 0 expo - len frac)), s5)
      end
    end
  end.

(** [scan_once] with the array and object loops of the scanner.  [items] and
    [fields] hold what the loop has decoded so far. *)
Fixpoint scan_once (fuel : nat) (s : pystr) : scan json :=
  match fuel with
  | O => NoFuel
  | S fuel' =>
    match s with
    | [] => Invalid
    | c :: s' =>
      if (c =? QUOTE)%N then
        match scanstring (length s) s' [] with
        | Scanned str rest => Scanned (JStr str) rest
        | Invalid => Invalid
        | NoFuel => NoFuel
        end
      else if (c =? ch "{")%N then
        match skip_ws s' with
        | c1 :: s1 =>
          if (c1 =? ch "}")%N then Scanned (JObj []) s1
          else parse_object fuel' (c1 :: s1) []
        | [] => Invalid
        end
      else if (c =? ch "[")%N then
        match skip_ws s' with
        | c1 :: s1 =>
          if (c1 =? ch "]")%N then Scanned (JArr []) s1
          else parse_array fuel' (c1 :: s1) []
        | [] => Invalid
        end
      else if startswith (lit "null") s then Scanned JNull (drop 4 s)
      else if startswith (lit "true") s then Scanned (JBool true) (drop 4 s)
      else if startswith (lit "false") s then Scanned (JBool false) (drop 5 s)
      else if startswith (lit "NaN") s then Scanned (JFloat FNaN) (drop 3 s)
      else if startswith (lit "Infinity") s
           then Scanned (JFloat (FInfinity false)) (drop 8 s)
      else if startswith (lit "-Infinity") s
           then Scanned (JFloat (FInfinity true)) (drop 9 s)
      else match match_number s with
           | Some (v, rest) => Scanned v rest
           | None => Invalid
           end
    end
  end
with parse_array (fuel : nat) (s : pystr) (items : list json) : scan json :=
  match fuel with
  | O => NoFuel
  | S fuel' =>
    match scan_once fuel' s with
    | Scanned v rest =>
      match skip_ws rest with
      | c :: rest' =>
        if (c =? ch "]")%N then Scanned (JArr (items ++ [v])) rest'
        else if (c =? ch ",")%N
             then parse_array fuel' (skip_ws rest') (items ++ [v])
             else Invalid
      | [] => Invalid
      end
    | Invalid => Invalid
    | NoFuel => NoFuel
    end
  end
with parse_object (fuel : nat) (s : pystr) (fields : list (pystr * json))
  : scan json :=
  match fuel with
  | O => NoFuel
  | S fuel' =>
    match s with
    | q :: s1 =>
      if (q =? QUOTE)%N then
        match scanstring (length s) s1 [] with
        | Scanned key rest =>
          match skip_ws rest with
          | colon :: rest1 =>
            if (colon =? ch ":")%N then
              match scan_once fuel' (skip_ws rest1) with
              | Scanned v rest2 =>
                match skip_ws rest2 with
                | c :: rest3 =>
                  if (c =? ch "}")%N
                  then Scanned (JObj (dict_set key v fields)) rest3
                  else if (c =? ch ",")%N
                       then parse_object fuel' (skip_ws rest3)
                              (dict_set key v fields)
                       else Invalid
                | [] => Invalid
                end
              | Invalid => Invalid
              | NoFuel => NoFuel
              end
            else Invalid
          | [] => Invalid
          end
        | Invalid => Invalid
        | NoFuel => NoFuel
        end
      else Invalid
    | [] => Invalid
    end
  end.

(** [json.loads(s)] for a str [s]; a leading byte-order mark is refused. *)
Definition json_loads (s : pystr) : result json :=
  if startswith [65279%N] s then Raise JSONDecodeError
  else match scan_once (2 * length s + 2) (skip_ws s) with
       | Scanned v rest =>
         match skip_ws rest with
         | [] => Ok v
         | _ :: _ => Raise JSONDecodeError
         end
       | Invalid | NoFuel => Raise JSONDecodeError
       end.

(** ** Requests *)

Definition NL : pystr := [10%N].

Definition str_in (x : pystr) (l : list pystr) : bool := existsb (str_eqb x) l.

(** [role: Literal["system", "user", "assistant"]] *)
Inductive Role := system | user | assistant.

Definition role_value (r : Role) : pystr :=
  match r with
  | system => lit "system"
  | user => lit "user"
  | assistant => lit "assistant"
  end.

Record Message := { role : Role; content : pystr }.

Record ChatCompletionRequest :=
  { model : pystr; messages : list Message; stream : bool }.

Definition supported_models : list pystr :=
  map lit
    [ "deepseek-r1"; "deepseek-r1-search";
      "deepseek-v3"; "deepseek-v3-search";
      "doubao"; "doubao-search";
      "doubao-thinking"; "doubao-thinking-search";
      "qwen-plus"; "qwen-plus-search";
      "qwq-plus"; "qwq-plus-search";
      "qwen-long"; "qwen-long-search";
      "moonshot-v1-32k"; "moonshot-v1-32k-search";
      "ernie-4.5-turbo-32k"; "ernie-4.5-turbo-32k-search" ]%string.

(** The [user_action] column of [model_to_user_action]. *)
Definition model_to_user_action : list (pystr * list pystr) :=
  map (fun e => (lit (fst e), map lit (snd e)))
    [ ("deepseek-r1", ["deep"]);
      ("deepseek-r1-search", ["deep"; "online"]);
      ("deepseek-v3", []);
      ("deepseek-v3-search", ["online"]);
      ("doubao", []);
      ("doubao-search", ["online"]);
      ("doubao-thinking", ["deep"]);
      ("doubao-thinking-search", ["deep"; "online"]);
      ("qwen", []);
      ("qwen-search", ["online"]);
      ("qwen-plus", []);
      ("qwen-plus-search", ["online"]);
      ("qwq-plus", ["deep"]);
      ("qwq-plus-search", ["deep"; "search"]);
      ("qwen-long", []);
      ("qwen-long-search", ["online"]);
      ("moonshot-v1-32k", []);
      ("moonshot-v1-32k-search", ["online"]);
      ("ernie-4.5-turbo-32k", []);
      ("ernie-4.5-turbo-32k-search", ["online"]) ]%string.

(** [model_to_user_action.get(model, {}).get('user_action', [])] *)
Fixpoint user_action_of (m : pystr) (table : list (pystr * list pystr))
  : list pystr :=
  match table with
  | [] => []
  | (k, acts) :: table' =>
    if str_eqb k m then acts else user_action_of m table'
  end.

(** ** [check_authorization] *)

Definition check_authorization (API_KEY : pystr) (authorization : option pystr)
  : result bool :=
  match authorization with
  | None | Some [] =>
    Raise (HTTPException 401 (lit "缺少 Authorization 头部"))
  | Some authorization =>
    let api_key :=
      if startswith (lit "Bearer ") authorization
      then str_replace (lit "Bearer ") [] authorization
      else authorization in
    if negb (str_eqb api_key API_KEY)
    then Raise (HTTPException 401 (lit "无效的 API 密钥"))
    else Ok true
  end.

(** ** [concatenate_messages] *)

Definition think_open : pystr := lit "<think>".
Definition think_close : pystr := lit "</think>".

(** The body of the loop: [concatenated] after one more message. *)
Definition concatenate_step (concatenated : list pystr) (msg : Message)
  : list pystr :=
  let content := strip (re_sub_span think_open think_close (content msg)) in
  match content with
  | [] => concatenated
  | _ :: _ =>
    concatenated ++ [capitalize (role_value (role msg)) ++ lit ": " ++ content]
  end.

Definition concatenate_messages (messages : list Message) : pystr :=
  let concatenated := fold_left concatenate_step messages [] in
  join NL concatenated.

(** ** [truncate_messages] *)

Definition is_ua (msg : Message) : bool :=
  str_in (role_value (role msg)) [lit "user"; lit "assistant"].

(** [sum(len(msg.content) for msg in msgs)] *)
Definition total_chars (msgs : list Message) : Z :=
  fold_left (fun acc msg => acc + len (content msg)) msgs 0.

(** The loop over [reversed(ua_messages)]: [rev_ua] is what is left to visit,
    newest first; a message that does not fit ends the loop. *)
Fixpoint keep_recent (available_chars : Z) (rev_ua : list Message)
    (truncated_ua : list Message) (current_chars : Z) : list Message :=
  match rev_ua with
  | [] => truncated_ua
  | msg :: rest =>
    let msg_chars := len (content msg) in
    if current_chars + msg_chars <=? available_chars
    then keep_recent available_chars rest (msg :: truncated_ua)
           (current_chars + msg_chars)
    else truncated_ua
  end.

Definition truncate_messages (messages : list Message) (max_chars : Z)
  : list Message :=
  if total_chars messages <=? max_chars then messages
  else
    let other_messages := List.filter (fun msg => negb (is_ua msg)) messages in
    let other_chars := total_chars other_messages in
    let available_chars := max_chars - other_chars in
    if available_chars <=? 0 then other_messages
    else
      let ua_messages := List.filter is_ua messages in
      let truncated_ua :=
        keep_recent available_chars (reverse ua_messages) [] 0 in
      other_messages ++ truncated_ua.

(** ** Chunks and responses *)

(** The dict built by [generate_chunk]; the generator yields it serialized as
    one server-sent event.  [delta] is a dict of strings. *)
Record chunk :=
  { chunk_id : pystr;
    chunk_created : Z;
    chunk_model : pystr;
    delta : list (pystr * pystr);
    finish_reason : option pystr }.

Definition generate_chunk (_id : pystr) (created : Z) (model : pystr)
    (delta : list (pystr * pystr)) (finish_reason : option pystr) : chunk :=
  {| chunk_id := _id; chunk_created := created; chunk_model := model;
     delta := delta; finish_reason := finish_reason |}.

(** The message of [response_data] in the non-streaming mode. *)
Record completion :=
  { completion_model : pystr;
    message_role : pystr;
    message_content : pystr;
    completion_finish_reason : pystr }.

(** The upstream answer to the chat call: its status and the lines of its
    body, as [response.aiter_lines()] hands them out. *)
Record upstream := { status_code : Z; aiter_lines : list pystr }.

(** The variables of one consumption of the upstream stream. *)
Record seg_state :=
  { thinking : bool;
    content_parts : list pystr;
    card_content : option pystr }.

Definition initial_state : seg_state :=
  {| thinking := false; content_parts := []; card_content := None |}.

Definition set_thinking (b : bool) (st : seg_state) : seg_state :=
  {| thinking := b; content_parts := content_parts st;
     card_content := card_content st |}.

(** [content_parts.append(part)] *)
Definition append_part (part : pystr) (st : seg_state) : seg_state :=
  {| thinking := thinking st; content_parts := content_parts st ++ [part];
     card_content := card_content st |}.

Definition set_card_content (c : pystr) (st : seg_state) : seg_state :=
  {| thinking := thinking st; content_parts := content_parts st;
     card_content := Some c |}.

Definition details_open : pystr := lit "<details>".
Definition details_close : pystr := lit "</details>".

(** [re.sub(r"<details>.*?</details>", EMPTY, content, flags=re.DOTALL)]: the
    subject has to be a str. *)
Definition strip_details (s : pystr) : pystr :=
  re_sub_span details_open details_close s.

Definition sub_details (content : json) : result pystr :=
  match content with
  | JStr s => Ok (strip_details s)
  | _ => Raise TypeError
  end.

(** [data.get(key) == s] *)
Definition get_is (data : json) (key s : pystr) : result bool :=
  v <- py_get data key JNull; Ok (eq_str v s).

(** [request.model] once [chat_completions] has replaced an unsupported one. *)
Definition served_model (m : pystr) : pystr :=
  if negb (str_in m supported_models) then lit "deepseek-v3" else m.

Definition is_r1 (model : pystr) : bool :=
  str_in model [lit "deepseek-r1"; lit "deepseek-r1-search"].

Definition card_pending (st : seg_state) : option pystr :=
  match card_content st with
  | Some (c :: s) => Some (c :: s)
  | _ => None
  end.

Section Engine.

(** [str(v)] for a decoded value [v] that is not a str: the text an f-string
    puts for it (the [repr] of floats, lists and dicts is not modelled). *)
Variable py_repr : json -> pystr.

(** ** [parse_card_content] *)

(** [f"{v}"] *)
Definition fmt (v : json) : pystr :=
  match v with
  | JStr s => s
  | _ => py_repr v
  end.

(** [json.loads(v)] for a decoded value [v]: only a str can be decoded. *)
Definition json_loads_value (v : json) : result json :=
  match v with
  | JStr s => json_loads s
  | _ => Raise TypeError
  end.

(** The body of [for source in sources]: one row of the table. *)
Definition card_row (source : json) : result pystr :=
  id_index <- py_get source (lit "idIndex") (JStr []);
  name <- py_get source (lit "name") (JStr []);
  url <- py_get source (lit "url") (JStr []);
  site_name <- py_get source (lit "siteName") (JStr []);
  Ok (lit "| " ++ fmt id_index ++ lit " | [" ++ fmt name ++ lit "]("
        ++ fmt url ++ lit ") | " ++ fmt site_name ++ lit " |").

Fixpoint for_sources (sources : list json) (references : list pystr)
  : result (list pystr) :=
  match sources with
  | [] => Ok references
  | source :: rest =>
    row <- card_row source;
    for_sources rest (references ++ [row])
  end.

Fixpoint for_items (items : list json) (references : list pystr)
  : result (list pystr) :=
  match items with
  | [] => Ok references
  | item :: rest =>
    is_sources <- get_is item (lit "type") (lit "2002");
    if (is_sources : bool) then
      raw <- py_get item (lit "content") (JStr (lit "[]"));
      sources <- json_loads_value raw;
      sources <- py_iter sources;
      references <- for_sources sources references;
      for_items rest references
    else for_items rest references
  end.

Definition unparseable : pystr := lit "无法解析的新闻内容".
Definition unsupported : pystr := lit "不支持的 card 类型".
Definition table_header : pystr :=
  NL ++ NL ++ lit "| 序号 | 网站URL | 来源 |" ++ NL
     ++ lit "| ---- | ---- | ---- |".

(** The [try] block of [parse_card_content]. *)
Definition parse_card_try (content : pystr) : result pystr :=
  card_data <- json_loads content;
  is_db_card <- get_is card_data (lit "cardType") (lit "DB-CARD-2");
  if (is_db_card : bool) then
    card_info <- py_get card_data (lit "cardInfo") (JObj []);
    card_items <- py_get card_info (lit "cardItems") (JArr []);
    items <- py_iter card_items;
    references <- for_items items [];
    match references with
    | _ :: _ => Ok (table_header ++ NL ++ join NL references)
    | [] => Ok unparseable
    end
  else Ok unsupported.

(** [parse_card_content]: the handler catches [json.JSONDecodeError] only. *)
Definition parse_card_content (content : pystr) : result pystr :=
  match parse_card_try content with
  | Raise JSONDecodeError => Ok unparseable
  | r => r
  end.

(** ** [stream_response] *)

Section Request.

Variable request_model : pystr.
Variable _id : pystr.
Variable created : Z.

Definition content_chunk (c : pystr) : chunk :=
  generate_chunk _id created request_model [(lit "content", c)] None.

(** The [try] block of the streaming loop, for one [json_str]: the chunks it
    yields and the variables after it.  Whatever raises does so before the
    block yields or assigns. *)
Definition stream_try (st : seg_state) (json_str : pystr)
  : result (list chunk * seg_state) :=
  data <- json_loads json_str;
  c <- py_get data (lit "content") JNull;
  let content := if truthy c then c else JStr [] in
  if truthy content then
    content <- sub_details content;
    is_thinking <- get_is data (lit "content_type") (lit "thinking");
    if (is_thinking : bool) then
      let '(opened, st) :=
        if negb (thinking st)
        then ([content_chunk think_open],
              append_part think_open (set_thinking true st))
        else ([], st) in
      Ok (opened ++ [content_chunk content], append_part content st)
    else
      is_text <- get_is data (lit "content_type") (lit "text");
      if (is_text : bool) then
        let '(closed, st) :=
          if thinking st
          then ([content_chunk think_close],
                append_part think_close (set_thinking false st))
          else ([], st) in
        Ok (closed ++ [content_chunk content], append_part content st)
      else
        is_card <- get_is data (lit "content_type") (lit "card");
        if (is_card : bool) then
          parsed_content <- parse_card_content content;
          if is_r1 request_model
          then Ok ([], set_card_content parsed_content st)
          else Ok ([content_chunk (parsed_content ++ NL ++ NL)],
                   append_part (parsed_content ++ NL ++ NL) st)
        else Ok ([], st)
  else Ok ([], st).

(** One iteration of [async for line in response.aiter_lines()]. *)
Definition stream_line (st : seg_state) (line : pystr)
  : result (list chunk * seg_state) :=
  if startswith (lit "data:") line then
    let json_str := drop 5 line in
    match stream_try st json_str with
    | Raise JSONDecodeError => Ok ([], st)
    | r => r
    end
  else Ok ([], st).

(** The loop: the chunks yielded, and the variables at its end or the
    exception that leaves it. *)
Fixpoint stream_lines (st : seg_state) (lines : list pystr)
  : list chunk * result seg_state :=
  match lines with
  | [] => ([], Ok st)
  | line :: rest =>
    match stream_line st line with
    | Ok (chunks, st') =>
      let '(more, r) := stream_lines st' rest in (chunks ++ more, r)
    | Raise e => ([], Raise e)
    end
  end.

(** A run of the generator: the chunks it yields, in order, and how it ends:
    with the [content] it logs once the stream is read to its end, with the
    early [return], or with the exception that escapes it. *)
Record generated := { yielded : list chunk; outcome : result (option pystr) }.

Definition stream_response (response : upstream) : generated :=
  let first :=
    generate_chunk _id created request_model [(lit "role", lit "assistant")]
      None in
  if negb (status_code response =? 200) then
    let error_msg :=
      lit "错误：无法获取响应，状态码: " ++ str_of_int (status_code response) in
    {| yielded :=
         [first;
          generate_chunk _id created request_model [(lit "content", error_msg)]
            (Some (lit "stop"))];
       outcome := Ok None |}
  else
    let '(chunks, r) := stream_lines initial_state (aiter_lines response) in
    match r with
    | Raise e => {| yielded := first :: chunks; outcome := Raise e |}
    | Ok st =>
      let '(closed, st) :=
        if thinking st
        then ([content_chunk think_close], append_part think_close st)
        else ([], st) in
      let '(flushed, st) :=
        match (if is_r1 request_model then card_pending st else None) with
        | Some card => ([content_chunk (card ++ NL ++ NL)],
                        append_part (card ++ NL ++ NL) st)
        | None => ([], st)
        end in
      {| yielded :=
           first :: chunks ++ closed ++ flushed
             ++ [generate_chunk _id created request_model [] (Some (lit "stop"))];
         outcome := Ok (Some (concat_parts (content_parts st))) |}
    end.

(** ** [chat_completions], non-streaming mode *)

(** The [try] block of the non-streaming loop. *)
Definition chat_try (st : seg_state) (json_str : pystr) : result seg_state :=
  data <- json_loads json_str;
  c <- py_get data (lit "content") JNull;
  let content := if truthy c then c else JStr [] in
  if truthy content then
    content <- sub_details content;
    is_thinking <- get_is data (lit "content_type") (lit "thinking");
    if (is_thinking : bool) then
      let st :=
        if negb (thinking st)
        then append_part think_open (set_thinking true st)
        else st in
      Ok (append_part content st)
    else
      is_text <- get_is data (lit "content_type") (lit "text");
      if (is_text : bool) then
        let st :=
          if thinking st
          then append_part think_close (set_thinking false st)
          else st in
        Ok (append_part content st)
      else
        is_card <- get_is data (lit "content_type") (lit "card");
        if (is_card : bool) then
          parsed_content <- parse_card_content content;
          if is_r1 request_model
          then Ok (set_card_content parsed_content st)
          else Ok (append_part (parsed_content ++ NL ++ NL) st)
        else Ok st
  else Ok st.

Definition chat_line (st : seg_state) (line : pystr) : result seg_state :=
  if startswith (lit "data:") line then
    let json_str := drop 5 line in
    match chat_try st json_str with
    | Raise JSONDecodeError => Ok st
    | r => r
    end
  else Ok st.

Fixpoint chat_lines (st : seg_state) (lines : list pystr) : result seg_state :=
  match lines with
  | [] => Ok st
  | line :: rest => st' <- chat_line st line; chat_lines st' rest
  end.

(** The non-streaming part of [chat_completions], from the upstream call on. *)
Definition chat_response (response : upstream) : result completion :=
  if negb (status_code response =? 200) then
    let error_msg :=
      lit "无法从 API 获取响应，状态码: " ++ str_of_int (status_code response) in
    Raise (HTTPException 500 error_msg)
  else
    st <- chat_lines initial_state (aiter_lines response);
    let st := if thinking st then append_part think_close st else st in
    let st :=
      match (if is_r1 request_model then card_pending st else None) with
      | Some card => append_part (card ++ NL ++ NL) st
      | None => st
      end in
    let content := concat_parts (content_parts st) in
    Ok {| completion_model := request_model;
          message_role := lit "assistant";
          message_content := content;
          completion_finish_reason := lit "stop" |}.

End Request.

(** What the endpoint hands to the HTTP layer. *)
Inductive http_body :=
| StreamingResponse (g : generated)
| JSONResponse (c : completion).

(** [chat_completions], after the session has been created: an unsupported
    model is replaced, then the mode is chosen.  [_id] and [created] stand for
    the identifier and the time drawn by the streaming generator. *)
Definition chat_completions (request : ChatCompletionRequest)
    (_id : pystr) (created : Z) (response : upstream) : result http_body :=
  let request_model := served_model (model request) in
  if stream request
  then Ok (StreamingResponse (stream_response request_model _id created response))
  else c <- chat_response request_model response; Ok (JSONResponse c).

End Engine.

(** ** Notions used by the statements *)

(** [delta.get("content")] of a chunk: the content fragment it carries. *)
Fixpoint delta_get (key : pystr) (d : list (pystr * pystr)) : option pystr :=
  match d with
  | [] => None
  | (k, v) :: d' => if str_eqb k key then Some v else delta_get key d'
  end.

Definition delta_content (c : chunk) : option pystr :=
  delta_get (lit "content") (delta c).

(** The text a client of the streaming mode assembles from the chunks. *)
Definition streamed_text (chunks : list chunk) : pystr :=
  concat_parts (omap delta_content chunks).

Definition stop_marked (c : chunk) : bool :=
  match finish_reason c with
  | Some r => str_eqb r (lit "stop")
  | None => false
  end.

(** The flattener as the specification words it: the line of one message, if
    any, and the lines of the surviving messages joined by a newline. *)
Definition flatten_line (msg : Message) : option pystr :=
  match strip (re_sub_span think_open think_close (content msg)) with
  | [] => None
  | remaining => Some (capitalize (role_value (role msg)) ++ lit ": " ++ remaining)
  end.

Definition flatten_spec (messages : list Message) : pystr :=
  join NL (omap flatten_line messages).

(** A match of [open .*? close] starts at no position of [s]. *)
Definition no_match (open close s : pystr) : Prop :=
  forall i, match_len open close (drop i s) = None.

(** The value of [data.get("content_type")] for a decoded dict. *)
Definition content_type_of (fields : list (pystr * json)) : json :=
  match dict_lookup (lit "content_type") fields with
  | Some v => v
  | None => JNull
  end.

(** The value of [data.get("content")] for a decoded dict. *)
Definition content_of (fields : list (pystr * json)) : json :=
  match dict_lookup (lit "content") fields with
  | Some v => v
  | None => JNull
  end.

(** The model has the "deep" option in the catalog. *)
Definition deep_reasoning (m : pystr) : bool :=
  str_in (lit "deep") (user_action_of m model_to_user_action).

Definition set_stream (b : bool) (request : ChatCompletionRequest)
  : ChatCompletionRequest :=
  {| model := model request; messages := messages request; stream := b |}.

(** The first chunk and the last chunk of a stream read to its end. *)
Definition role_chunk (m _id : pystr) (created : Z) : chunk :=
  generate_chunk _id created m [(lit "role", lit "assistant")] None.

Definition stop_chunk (m _id : pystr) (created : Z) : chunk :=
  generate_chunk _id created m [] (Some (lit "stop")).

(** ** Sample inputs *)

(** An instance of [py_repr], exact on [None], the booleans and the ints. *)
Definition sample_repr (v : json) : pystr :=
  match v with
  | JNull => lit "None"
  | JBool true => lit "True"
  | JBool false => lit "False"
  | JInt n => str_of_int n
  | _ => lit "..."
  end.

Definition truncate_demo : list Message :=
  [ {| role := user; content := lit "aaaa" |};
    {| role := system; content := lit "ss" |};
    {| role := assistant; content := lit "bbb" |};
    {| role := user; content := lit "cc" |} ].

Definition think_only : Message :=
  {| role := user; content := lit "<think>x</think>   " |}.

Definition ok_lines (lines : list string) : upstream :=
  {| status_code := 200; aiter_lines := map quoted lines |}.

Definition thinking_a : string :=
  "data:{'content':'a','content_type':'thinking'}".
Definition thinking_b : string :=
  "data:{'content':'b','content_type':'thinking'}".
Definition text_c : string :=
  "data:{'content':'c','content_type':'text'}".
Definition text_hello : string :=
  "data:{'content':'hello','content_type':'text'}".
Definition other_x : string :=
  "data:{'content':'x','content_type':'other'}".
Definition details_only : string :=
  "data:{'content':'<details>x</details>','content_type':'thinking'}".
Definition empty_text : string :=
  "data:{'content':'','content_type':'text'}".
(** A card whose payload is the JSON array [[]]. *)
Definition card_array : string :=
  "data:{'content':'[]','content_type':'card'}".
(** A search-sources card with no source. *)
Definition card_no_rows : string :=
  "data:{'content':'{\'cardType\':\'DB-CARD-2\',\'cardInfo\':{\'cardItems\':[{\'type\':\'2002\',\'content\':\'[]\'}]}}','content_type':'card'}".

(** A pending card is never the empty string. *)
Definition pending_ok (st : seg_state) : Prop := card_content st <> Some [].

Definition demo_request : ChatCompletionRequest :=
  {| model := lit "deepseek-v3"; messages := truncate_demo; stream := false |}.

Definition fields_of (content0 content_type : string) : list (pystr * json) :=
  [ (lit "content", JStr (lit content0));
    (lit "content_type", JStr (lit content_type)) ].

(** The text that an upstream line brings when it is an event with a str
    content: the content of the decoded dict after the removal of the details
    spans, which is what a thinking or text event puts into the stream. *)
Definition event_text (line : pystr) : option pystr :=
  if startswith (lit "data:") line then
    match json_loads (drop 5 line) with
    | Ok (JObj fields) =>
      match content_of fields with
      | JStr c => Some (strip_details c)
      | _ => None
      end
    | _ => None
    end
  else None.

Definition is_marker (t : pystr) : bool :=
  str_eqb t think_open || str_eqb t think_close.

(** No event among [lines] has a think marker as its own text. *)
Definition plain_events (lines : list pystr) : bool :=
  forallb (fun line =>
             match event_text line with
             | Some t => negb (is_marker t)
             | None => true
             end) lines.

(** The markers among the fragments [texts], read in order from the thinking
    flag [open]: an opening marker finds the flag down and raises it, a closing
    marker finds it up and lowers it, and the flag is down at the end. *)
Fixpoint markers_alternate (open : bool) (texts : list pystr) : bool :=
  match texts with
  | [] => negb open
  | t :: rest =>
    if str_eqb t think_open then negb open && markers_alternate true rest
    else if str_eqb t think_close then open && markers_alternate false rest
    else markers_alternate open rest
  end.

(** The number of fragments of [texts] that are the marker [marker]. *)
Definition count_marker (marker : pystr) (texts : list pystr) : nat :=
  length (List.filter (fun t => str_eqb t marker) texts).


(** * The rest of [app.py] *)

(** ** [get_user_agent] *)

Definition default_user_agent : pystr :=
  lit "Mozilla/5.0 (Macintosh; Intel Mac OS X 10_15_7) "
    ++ lit "AppleWebKit/537.36 (KHTML, like Gecko) "
    ++ lit "Chrome/133.0.0.0 Safari/537.36".

(** [device_ua_map] is threaded through the calls; [ua_random] is the value
    that [ua.random] has at this call, read only for a new [device_id]. *)
Definition get_user_agent (RANDOM_UA : bool) (ua_random : pystr)
    (device_id : pystr) (device_ua_map : gmap pystr pystr)
  : pystr * gmap pystr pystr :=
  if negb RANDOM_UA then (default_user_agent, device_ua_map)
  else
    match device_ua_map !! device_id with
    | None => (ua_random, <[device_id := ua_random]> device_ua_map)
    | Some user_agent => (user_agent, device_ua_map)
    end.

(** A series of calls, each with its [device_id] and its [ua.random]: the map
    after them. *)
Fixpoint user_agent_calls (RANDOM_UA : bool) (calls : list (pystr * pystr))
    (device_ua_map : gmap pystr pystr) : gmap pystr pystr :=
  match calls with
  | [] => device_ua_map
  | (device_id, ua_random) :: rest =>
    user_agent_calls RANDOM_UA rest
      (snd (get_user_agent RANDOM_UA ua_random device_id device_ua_map))
  end.

(** ** [nanoid] and [generate_device_id] *)

Definition url_alphabet : pystr :=
  lit "abcdefgh0ijkl1mno2pqrs3tuv4wxyz5ABCDEFGH6IJKL7MNO8PQRS9TUV-WXYZ_".

(** [secrets.choice(seq)] is [seq[i]] for the index [i] that
    [randbelow(len(seq))] draws. *)
Definition choice (seq0 : pystr) (i : nat) : N := nth i seq0 0%N.

(** [draw k] is the index drawn by the [k]-th call of [secrets.choice]. *)
Definition nanoid (draw : nat -> nat) (size : Z) : pystr :=
  map (fun k => choice url_alphabet (draw k)) (seq 0 (Z.to_nat size)).

(** [uuid_hex] stands for [uuid.uuid4().hex]. *)
Definition generate_device_id (uuid_hex : pystr) (draw : nat -> nat) : pystr :=
  uuid_hex ++ lit "_" ++ nanoid draw 20.

(** ** The catalog *)

(** [model_to_user_action] with both of its columns: the model of the backend
    and the options. *)
Definition model_catalog : list (pystr * (pystr * list pystr)) :=
  map (fun e => (lit (fst e), (lit (fst (snd e)), map lit (snd (snd e)))))
    [ ("deepseek-r1", ("deepseek", ["deep"]));
      ("deepseek-r1-search", ("deepseek", ["deep"; "online"]));
      ("deepseek-v3", ("deepseek", []));
      ("deepseek-v3-search", ("deepseek", ["online"]));
      ("doubao", ("doubao", []));
      ("doubao-search", ("doubao", ["online"]));
      ("doubao-thinking", ("doubao-thinking", ["deep"]));
      ("doubao-thinking-search", ("doubao-thinking", ["deep"; "online"]));
      ("qwen", ("qwen", []));
      ("qwen-search", ("qwen", ["online"]));
      ("qwen-plus", ("qwen-plus", []));
      ("qwen-plus-search", ("qwen-plus", ["online"]));
      ("qwq-plus", ("qwq-plus", ["deep"]));
      ("qwq-plus-search", ("qwq-plus", ["deep"; "search"]));
      ("qwen-long", ("qwen-long", []));
      ("qwen-long-search", ("qwen-long", ["online"]));
      ("moonshot-v1-32k", ("moonshot", []));
      ("moonshot-v1-32k-search", ("moonshot", ["online"]));
      ("ernie-4.5-turbo-32k", ("ernie-4.5-turbo", []));
      ("ernie-4.5-turbo-32k-search", ("ernie-4.5-turbo", ["online"])) ]%string.

(** [model_to_user_action.get(m)] *)
Fixpoint catalog_get (m : pystr) (table : list (pystr * (pystr * list pystr)))
  : option (pystr * list pystr) :=
  match table with
  | [] => None
  | (k, entry) :: table' =>
    if str_eqb k m then Some entry else catalog_get m table'
  end.

(** ** [prepare_request_payload] *)

(** What the function reads from outside the request: the configuration, the
    clock, the random draws and the map of user agents. *)
Record environment :=
  { MAX_CHARS : Z;
    RANDOM_UA : bool;
    now : Z;
    draws : nat -> nat;
    ua_random : pystr;
    device_ua_map : gmap pystr pystr }.

Record headers :=
  { header_user_agent : pystr;
    header_device_id : pystr;
    header_nonce : pystr;
    header_sign : pystr;
    header_timestamp : pystr }.

Section Payload.

(** [generate_sign(timestamp, payload, nonce)]: the MD5 digest is not
    modelled. *)
Variable generate_sign : pystr -> json -> pystr -> pystr.

Definition prepare_request_payload (env : environment)
    (request : ChatCompletionRequest) (device_id conversation_id : pystr)
  : json * headers * gmap pystr pystr :=
  let truncated_messages := truncate_messages (messages request) (MAX_CHARS env) in
  let concatenated_message := concatenate_messages truncated_messages in
  let user_action :=
    match catalog_get (model request) model_catalog with
    | Some entry => snd entry
    | None => []
    end in
  let backend_model :=
    match catalog_get (model request) model_catalog with
    | Some entry => fst entry
    | None => lit "deepseek"
    end in
  let payload :=
    JObj [ (lit "role", JStr (lit "user"));
           (lit "stream", JBool true);
           (lit "botCode", JStr (lit "AI_SEARCH"));
           (lit "userAction", JStr (join (lit ",") user_action));
           (lit "model", JStr backend_model);
           (lit "conversationId", JStr conversation_id);
           (lit "question", JStr concatenated_message);
           (lit "anonymousKey", JStr []);
           (lit "chatOption",
            JObj [ (lit "writeCode", JNull);
                   (lit "searchKnowledge", JBool false) ]);
           (lit "files", JArr []);
           (lit "status", JStr (lit "local"));
           (lit "agentId", JStr []) ] in
  let timestamp := str_of_int (now env) in
  let nonce := nanoid (draws env) 21 in
  let sign := generate_sign timestamp payload nonce in
  let '(user_agent, ua_map) :=
    get_user_agent (RANDOM_UA env) (ua_random env) device_id
      (device_ua_map env) in
  (payload,
   {| header_user_agent := user_agent;
      header_device_id := device_id;
      header_nonce := nonce;
      header_sign := sign;
      header_timestamp := timestamp |},
   ua_map).

End Payload.

(** The [question] of a payload. *)
Definition question_of (payload : json) : pystr :=
  match payload with
  | JObj fields =>
    match dict_lookup (lit "question") fields with
    | Some (JStr q) => q
    | _ => []
    end
  | _ => []
  end.

(** ** [create_conversation] *)

(** How a call ends: with a value, with an exception of [exn], or with the
    [KeyError] of a subscript. *)
Inductive ended (A : Type) :=
| Returned (a : A)
| Raised (e : exn)
| KeyError (key : pystr).
Arguments Returned {A} a.
Arguments Raised {A} e.
Arguments KeyError {A} key.

(** [obj[key]] for a str [key]: a dict looks the key up; a list and a str
    take no str index; nothing else is subscriptable. *)
Definition subscript (obj : json) (key : pystr) : ended json :=
  match obj with
  | JObj d =>
    match dict_lookup key d with
    | Some v => Returned v
    | None => KeyError key
    end
  | _ => Raised TypeError
  end.

(** The answer of the upstream to the creation of a session: its status and
    the value that [response.json()] returns, which the code asks for only
    when the status is 200.  That call decodes the bytes of the body inside
    the HTTP client and is not modelled: a body it does not decode raises
    there, and such an answer is not of this type. *)
Record answer := { answer_status : Z; answer_json : json }.

(** [create_conversation]: the catalog is read for the payload before the
    request is sent; [response] is what the upstream answers. *)
Definition create_conversation (model_name : pystr) (response : answer)
  : ended json :=
  match catalog_get model_name model_catalog with
  | None => KeyError model_name
  | Some _ =>
    if negb (answer_status response =? 200)
    then Raised (HTTPException 500 (lit "创建会话失败"))
    else
      let data := answer_json response in
      match py_get data (lit "success") JNull with
      | Raise e => Raised e
      | Ok success =>
        if truthy success then
          match subscript data (lit "data") with
          | Returned d => subscript d (lit "conversationId")
          | Raised e => Raised e
          | KeyError k => KeyError k
          end
        else Raised (HTTPException 500 (lit "创建会话失败"))
      end
  end.

(** ** [list_models] *)

Record model_entry :=
  { entry_id : pystr; entry_object : pystr; entry_created : Z;
    entry_owned_by : pystr }.

(** The [data] of the answer of [/v1/models]. *)
Definition list_models (time_now : Z) : list model_entry :=
  map (fun m => {| entry_id := m; entry_object := lit "model";
                   entry_created := time_now;
                   entry_owned_by := lit "dangbei" |})
    supported_models.

(** ** Notions used by the further properties *)

(** The chunk belongs to the response of this model, identifier and time. *)
Definition same_envelope (request_model _id : pystr) (created : Z) (c : chunk)
  : Prop :=
  chunk_id c = _id /\ chunk_created c = created /\ chunk_model c = request_model.

(** The card renderer on a well-formed card, said without exceptions:
    [item_sources] gives the source records of one item, when the item is an
    object and, if it is of type "2002", its content is a JSON array of
    objects; an item of another type has none. *)
Definition field_or (fields : list (pystr * json)) (key : pystr)
    (default : json) : json :=
  match dict_lookup key fields with
  | Some v => v
  | None => default
  end.

Definition as_object (v : json) : option (list (pystr * json)) :=
  match v with
  | JObj fields => Some fields
  | _ => None
  end.

Definition item_sources (item : json) : option (list (list (pystr * json))) :=
  match item with
  | JObj fields =>
    if eq_str (field_or fields (lit "type") JNull) (lit "2002") then
      match field_or fields (lit "content") (JStr (lit "[]")) with
      | JStr raw =>
        match json_loads raw with
        | Ok (JArr sources) => mapM as_object sources
        | _ => None
        end
      | _ => None
      end
    else Some []
  | _ => None
  end.

Definition row_text (py_repr : json -> pystr) (source : list (pystr * json))
  : pystr :=
  lit "| " ++ fmt py_repr (field_or source (lit "idIndex") (JStr []))
    ++ lit " | [" ++ fmt py_repr (field_or source (lit "name") (JStr []))
    ++ lit "](" ++ fmt py_repr (field_or source (lit "url") (JStr []))
    ++ lit ") | " ++ fmt py_repr (field_or source (lit "siteName") (JStr []))
    ++ lit " |".

Definition render_rows (rows : list pystr) : pystr :=
  match rows with
  | [] => unparseable
  | _ :: _ => table_header ++ NL ++ join NL rows
  end.

(** A card with two sources, the second without a name. *)
Definition card_two_sources : string :=
  "{'cardType':'DB-CARD-2','cardInfo':{'cardItems':[{'type':'1'},{'type':'2002','content':'[{\'idIndex\':1,\'name\':\'n\',\'url\':\'u\',\'siteName\':\'s\'},{\'idIndex\':2}]'}]}}".

(** A character that needs no escape in a URL: a letter, a digit, [-] or
    [_]. *)
Definition url_safe (c : N) : bool :=
  ((97 <=? c) && (c <=? 122) || (65 <=? c) && (c <=? 90)
   || (48 <=? c) && (c <=? 57) || (c =? 45) || (c =? 95))%N.

(** A digit of [uuid4().hex]. *)
Definition hex_lower (c : N) : bool :=
  ((48 <=? c) && (c <=? 57) || (97 <=? c) && (c <=? 102))%N.

Definition demo_answer : answer :=
  {| answer_status := 200;
     answer_json :=
       JObj [ (lit "success", JBool true);
              (lit "data", JObj [(lit "conversationId", JStr (lit "c-1"))]) ] |}.

(** ** [json.dumps] and the text of a chunk

    [json.dumps] with its default settings, as [generate_chunk] calls it:
    [ensure_ascii] on, [", "] between items and [": "] after a key. *)

(** ["0123456789abcdef"[d]] *)
Definition hex_char (d : N) : N :=
  if (d <? 10)%N then (48 + d)%N else (87 + d)%N.

(** ['\\u{0:04x}'.format(n)] for [n] below 65536. *)
Definition u_escape (n : N) : pystr :=
  [ ch "\"; ch "u"; hex_char (n / 4096); hex_char ((n / 256) mod 16);
    hex_char ((n / 16) mod 16); hex_char (n mod 16) ]%N.

(** What [encode_basestring_ascii] puts for one character: itself for a
    printable ASCII character other than the quote and the backslash, a short
    escape for those two and for the usual control characters, a [\uXXXX]
    escape for the rest, with a surrogate pair above the basic plane. *)
Definition escape_char (c : N) : pystr :=
  if (c =? ch "\")%N then [ch "\"; ch "\"]
  else if (c =? QUOTE)%N then [ch "\"; QUOTE]
  else if (c =? 8)%N then [ch "\"; ch "b"]
  else if (c =? 12)%N then [ch "\"; ch "f"]
  else if (c =? 10)%N then [ch "\"; ch "n"]
  else if (c =? 13)%N then [ch "\"; ch "r"]
  else if (c =? 9)%N then [ch "\"; ch "t"]
  else if ((32 <=? c) && (c <=? 126))%N then [c]
  else if (c <? 65536)%N then u_escape c
  else
    let n := (c - 65536)%N in
    u_escape (N.lor 55296 (N.land (N.shiftr n 10) 1023))
      ++ u_escape (N.lor 56320 (N.land n 1023)).

Definition encode_basestring_ascii (s : pystr) : pystr :=
  QUOTE :: flat_map escape_char s ++ [QUOTE].

Section Dumps.

(** [float.__repr__], which is not modelled. *)
Variable float_repr : pyfloat -> pystr.

Fixpoint json_dumps (v : json) : pystr :=
  match v with
  | JNull => lit "null"
  | JBool true => lit "true"
  | JBool false => lit "false"
  | JInt n => str_of_int n
  | JFloat f => float_repr f
  | JStr s => encode_basestring_ascii s
  | JArr items => lit "[" ++ join (lit ", ") (map json_dumps items) ++ lit "]"
  | JObj fields =>
    lit "{"
      ++ join (lit ", ")
           (map (fun kv =>
                   encode_basestring_ascii (fst kv) ++ lit ": "
                     ++ json_dumps (snd kv)) fields)
      ++ lit "}"
  end.

(** The dict that [generate_chunk] builds, as a decoded value. *)
Definition chunk_json (c : chunk) : json :=
  JObj
    [ (lit "id", JStr (chunk_id c));
      (lit "object", JStr (lit "chat.completion.chunk"));
      (lit "created", JInt (chunk_created c));
      (lit "model", JStr (chunk_model c));
      (lit "choices",
       JArr
         [ JObj
             [ (lit "index", JInt 0);
               (lit "delta", JObj (map (fun kv => (fst kv, JStr (snd kv)))
                                     (delta c)));
               (lit "finish_reason",
                match finish_reason c with
                | Some reason => JStr reason
                | None => JNull
                end) ] ]) ].

(** The str that [generate_chunk] returns: one server-sent event. *)
Definition chunk_event (c : chunk) : pystr :=
  lit "data: " ++ json_dumps (chunk_json c) ++ NL ++ NL.

End Dumps.

(** A code point that is a character of its own: not a surrogate, and within
    the range of Unicode. *)
Definition is_scalar (c : N) : bool :=
  ((c <? 55296) || (57344 <=? c) && (c <=? 1114111))%N.

Definition printable_ascii (c : N) : bool := ((32 <=? c) && (c <=? 126))%N.

(** No key comes twice. *)
Fixpoint distinct_keys (keys : list pystr) : bool :=
  match keys with
  | [] => true
  | k :: rest => negb (str_in k rest) && distinct_keys rest
  end.

(** A value that [json.dumps] writes and [json.loads] reads back: it has no
    float, its strings are made of characters, and no dict has a key twice. *)
Fixpoint round_trips (v : json) : bool :=
  match v with
  | JNull | JBool _ | JInt _ => true
  | JFloat _ => false
  | JStr s => forallb is_scalar s
  | JArr items => forallb round_trips items
  | JObj fields =>
    distinct_keys (map fst fields)
    && forallb (fun kv => forallb is_scalar (fst kv) && round_trips (snd kv))
         fields
  end.

(** The strings of a chunk are made of characters and its delta has no key
    twice. *)
Definition chunk_round_trips (c : chunk) : bool :=
  forallb is_scalar (chunk_id c)
  && forallb is_scalar (chunk_model c)
  && distinct_keys (map fst (delta c))
  && forallb
       (fun kv => forallb is_scalar (fst kv) && forallb is_scalar (snd kv))
       (delta c)
  && match finish_reason c with
     | Some reason => forallb is_scalar reason
     | None => true
     end.

(** Induction on a decoded value, with the hypothesis for every item of a list
    and every value of a dict. *)
Fixpoint json_induction (P : json -> Prop)
    (HNull : P JNull) (HBool : forall b, P (JBool b))
    (HInt : forall n, P (JInt n)) (HFloat : forall f, P (JFloat f))
    (HStr : forall s, P (JStr s))
    (HArr : forall items, Forall P items -> P (JArr items))
    (HObj : forall fields,
        Forall (fun kv => P (snd kv)) fields -> P (JObj fields))
    (v : json) : P v :=
  match v with
  | JNull => HNull
  | JBool b => HBool b
  | JInt n => HInt n
  | JFloat f => HFloat f
  | JStr s => HStr s
  | JArr items =>
    HArr items
      ((fix go (l : list json) : Forall P l :=
          match l with
          | [] => @List.Forall_nil _ P
          | x :: l' =>
            @List.Forall_cons _ P x l'
              (json_induction P HNull HBool HInt HFloat HStr HArr HObj x)
              (go l')
          end) items)
  | JObj fields =>
    HObj fields
      ((fix go (l : list (pystr * json))
          : Forall (fun kv => P (snd kv)) l :=
          match l with
          | [] => @List.Forall_nil _ (fun kv => P (snd kv))
          | kv :: l' =>
            @List.Forall_cons _ (fun kv => P (snd kv)) kv l'
              (json_induction P HNull HBool HInt HFloat HStr HArr HObj (snd kv))
              (go l')
          end) fields)
  end.

(** What may follow the digits of an [int] for the decoder to stop there:
    anything but a digit, a dot or an exponent mark. *)
Definition number_end (rest : pystr) : bool :=
  match rest with
  | [] => true
  | c :: _ =>
    negb (is_digit c || (c =? ch ".") || (c =? ch "e") || (c =? ch "E"))%N
  end.

(** The decoder, given fuel for twice the text, reads the writing of [v]
    back and stops right after it. *)
Definition reads_back (float_repr : pyfloat -> pystr) (v : json) : Prop :=
  round_trips v = true ->
  forall fuel rest,
    number_end rest = true ->
    (2 * length (json_dumps float_repr v ++ rest) <= fuel)%nat ->
    scan_once fuel (json_dumps float_repr v ++ rest) = Scanned v rest.

(** A value with no float in it. *)
Fixpoint float_free (v : json) : bool :=
  match v with
  | JNull | JBool _ | JInt _ | JStr _ => true
  | JFloat _ => false
  | JArr items => forallb float_free items
  | JObj fields => forallb (fun kv => float_free (snd kv)) fields
  end.

(** A chunk whose text has a line break, a quote and characters outside
    ASCII, one of them outside the basic plane. *)
Definition demo_chunk : chunk :=
  generate_chunk (lit "chatcmpl-1") 1700000000 (lit "deepseek-v3")
    [(lit "content", [20320; 22909; 10; 128512; QUOTE]%N)] None.
(** * Properties *)

(** ** Strings *)

Lemma str_eqb_eq (a b : pystr) : str_eqb a b = true <-> a = b.
Proof.
  revert b. induction a as [|x a IH]; intros [|y b]; simpl; try easy.
  rewrite andb_true_iff, N.eqb_eq, IH. split.
  - intros [-> ->]. reflexivity.
  - intros [= -> ->]. auto.
Qed.

Lemma str_eqb_refl (a : pystr) : str_eqb a a = true.
Proof. apply str_eqb_eq. reflexivity. Qed.

Lemma str_eqb_neq (a b : pystr) : str_eqb a b = false <-> a <> b.
Proof.
  rewrite <- str_eqb_eq. destruct (str_eqb a b); split; congruence.
Qed.

Lemma startswith_app (p s : pystr) : startswith p (p ++ s) = true.
Proof.
  induction p as [|c p IH]; simpl; [reflexivity|].
  rewrite N.eqb_refl. exact IH.
Qed.

Lemma startswith_prefix (p s : pystr) :
  startswith p s = true <-> exists t, s = p ++ t.
Proof.
  revert s. induction p as [|c p IH]; intros s; simpl.
  - split; eauto.
  - destruct s as [|d s]; simpl.
    + split; [discriminate|]. intros [t [=]].
    + rewrite andb_true_iff, N.eqb_eq, IH. split.
      * intros [-> [t ->]]. eauto.
      * intros [t [= -> ->]]. eauto.
Qed.

(** ** Context truncator *)

Lemma fold_chars_acc (msgs : list Message) (a : Z) :
  fold_left (fun acc msg => acc + len (content msg)) msgs a
  = a + total_chars msgs.
Proof.
  unfold total_chars. revert a.
  induction msgs as [|m msgs IH]; intros a; simpl; [lia|].
  rewrite IH, (IH (0 + _)). lia.
Qed.

Lemma total_chars_cons (m : Message) (msgs : list Message) :
  total_chars (m :: msgs) = len (content m) + total_chars msgs.
Proof. unfold total_chars at 1. simpl. rewrite fold_chars_acc. lia. Qed.

Lemma total_chars_app (l1 l2 : list Message) :
  total_chars (l1 ++ l2) = total_chars l1 + total_chars l2.
Proof.
  induction l1 as [|m l1 IH]; simpl; [reflexivity|].
  rewrite !total_chars_cons, IH. lia.
Qed.

Lemma total_chars_reverse (l : list Message) :
  total_chars (reverse l) = total_chars l.
Proof.
  induction l as [|m l IH]; [reflexivity|].
  rewrite reverse_cons, total_chars_app, IH, !total_chars_cons.
  unfold total_chars at 2. simpl. lia.
Qed.

Lemma total_chars_nonneg (l : list Message) : 0 <= total_chars l.
Proof.
  induction l as [|m l IH]; [reflexivity|].
  rewrite total_chars_cons. unfold len. lia.
Qed.

(** The loop keeps a prefix of the reversed list, that is the most recent
    messages, puts it back in the original order, and stays within what is
    available. *)
Lemma keep_recent_spec (available : Z) (rev_ua acc : list Message) (cur : Z) :
  exists kept dropped,
    rev_ua = kept ++ dropped
    /\ keep_recent available rev_ua acc cur = reverse kept ++ acc
    /\ (cur <= available -> cur + total_chars kept <= available).
Proof.
  revert acc cur. induction rev_ua as [|m rest IH]; intros acc cur; simpl.
  - exists [], []. repeat split. unfold total_chars; simpl; lia.
  - destruct (Z.leb_spec (cur + len (content m)) available) as [Hfit|Hnofit].
    + destruct (IH (m :: acc) (cur + len (content m)))
        as (kept & dropped & -> & Hk & Hsum).
      exists (m :: kept), dropped. repeat split.
      * rewrite Hk, reverse_cons, <- app_assoc. reflexivity.
      * intros _. rewrite total_chars_cons. specialize (Hsum Hfit). lia.
    + exists [], (m :: rest). repeat split.
      unfold total_chars; simpl; lia.
Qed.

(** C6. Context truncator: within the budget the input comes back unchanged;
    over the budget the result is every message that is neither user nor
    assistant, in the original order, followed by a trailing part of the
    user and assistant messages in the original order; its total stays within
    the budget unless the first group alone exceeds it, and then no user or
    assistant message is kept. *)
Theorem truncate_messages_spec (messages : list Message) (max_chars : Z) :
  (total_chars messages <= max_chars ->
   truncate_messages messages max_chars = messages)
  /\ (max_chars < total_chars messages ->
      exists kept,
        truncate_messages messages max_chars
        = List.filter (fun msg => negb (is_ua msg)) messages ++ kept
        /\ kept `suffix_of` List.filter is_ua messages
        /\ (total_chars (List.filter (fun msg => negb (is_ua msg)) messages)
            <= max_chars ->
            total_chars (truncate_messages messages max_chars) <= max_chars)
        /\ (max_chars
            < total_chars (List.filter (fun msg => negb (is_ua msg)) messages)
            -> kept = [])).
Proof.
  unfold truncate_messages. split.
  - intros H. apply Z.leb_le in H. rewrite H. reflexivity.
  - intros H. apply Z.leb_gt in H. rewrite H.
    set (others := List.filter (fun msg => negb (is_ua msg)) messages).
    destruct (Z.leb_spec (max_chars - total_chars others) 0) as [Hfull|Hroom].
    + exists []. rewrite app_nil_r. repeat split.
      * apply suffix_nil.
      * lia.
    + destruct (keep_recent_spec (max_chars - total_chars others)
                  (reverse (List.filter is_ua messages)) [] 0)
        as (kept & dropped & Hsplit & -> & Hsum).
      rewrite app_nil_r. exists (reverse kept). repeat split.
      * exists (reverse dropped). rewrite <- reverse_app, <- Hsplit.
        rewrite reverse_involutive. reflexivity.
      * intros _. rewrite total_chars_app, total_chars_reverse. lia.
      * intros Hover. lia.
Qed.



(** ** Removal of tag-pair spans *)

Lemma find_some (pat s : pystr) (n : nat) :
  find pat s = Some n ->
  startswith pat (drop n s) = true
  /\ forall i, (i < n)%nat -> startswith pat (drop i s) = false.
Proof.
  revert n. induction s as [|c s IH]; intros n; simpl.
  - destruct (startswith pat []) eqn:E; [|discriminate].
    intros [= <-]. split; [exact E | lia].
  - destruct (startswith pat (c :: s)) eqn:E.
    + intros [= <-]. split; [exact E | lia].
    + destruct (find pat s) as [k|]; [|discriminate].
      intros [= <-]. destruct (IH k eq_refl) as [H1 H2]. split; [exact H1|].
      intros [|i] Hi; [exact E|]. apply H2. lia.
Qed.

Lemma find_first (pat pre rest : pystr) :
  (forall i, (i < length pre)%nat ->
             startswith pat (drop i (pre ++ pat ++ rest)) = false) ->
  find pat (pre ++ pat ++ rest) = Some (length pre).
Proof.
  induction pre as [|c pre IH]; intros H; simpl.
  - destruct pat as [|p pat]; [destruct rest; reflexivity|].
    simpl. rewrite N.eqb_refl, startswith_app. reflexivity.
  - pose proof (H 0%nat ltac:(simpl; lia)) as H0. simpl in H0.
    destruct pat as [|p pat].
    { destruct pre; discriminate H0. }
    rewrite H0, IH; [reflexivity|].
    intros i Hi. apply (H (S i)). simpl. lia.
Qed.

Lemma sub_from_skip (open close : pystr) (k : nat) (s : pystr) :
  sub_from open close k s = sub_from open close 0 (drop k s).
Proof.
  revert k. induction s as [|c s IH]; intros [|k]; try reflexivity.
  simpl. apply IH.
Qed.

(** Where no match starts, the text is left as it is. *)
Lemma re_sub_span_no_match (open close s : pystr) :
  no_match open close s -> re_sub_span open close s = s.
Proof.
  unfold re_sub_span, no_match. induction s as [|c s IH]; intros H; simpl.
  - reflexivity.
  - pose proof (H 0%nat) as H0. simpl in H0. rewrite H0. f_equal.
    apply IH. intros i. apply (H (S i)).
Qed.

(** The leftmost match is removed and the substitution goes on after it. *)
Lemma re_sub_span_first_match (open close pre matched rest : pystr) :
  (forall i, (i < length pre)%nat ->
             match_len open close (drop i (pre ++ matched ++ rest)) = None) ->
  match_len open close (matched ++ rest) = Some (length matched) ->
  matched <> [] ->
  re_sub_span open close (pre ++ matched ++ rest)
  = pre ++ re_sub_span open close rest.
Proof.
  unfold re_sub_span. intros Hpre Hm Hne.
  induction pre as [|c pre IH]; simpl.
  - destruct matched as [|m matched]; [congruence|].
    change (sub_from open close 0 ((m :: matched) ++ rest))
      with (match match_len open close ((m :: matched) ++ rest) with
            | Some n => sub_from open close (n - 1) (matched ++ rest)
            | None => m :: sub_from open close 0 (matched ++ rest)
            end).
    rewrite Hm, sub_from_skip. simpl. rewrite Nat.sub_0_r.
    rewrite drop_app_length. reflexivity.
  - pose proof (Hpre 0%nat ltac:(simpl; lia)) as H0. simpl in H0.
    rewrite H0. f_equal. apply IH.
    intros i Hi. apply (Hpre (S i)). simpl. lia.
Qed.

(** A match is an opening tag, the shortest text up to a closing tag, and that
    closing tag. *)
Lemma match_len_span (open close mid rest : pystr) :
  (forall i, (i < length mid)%nat ->
             startswith close (drop i (mid ++ close ++ rest)) = false) ->
  match_len open close (open ++ mid ++ close ++ rest)
  = Some (length (open ++ mid ++ close)).
Proof.
  intros H. unfold match_len.
  rewrite startswith_app, drop_app_length, find_first by exact H.
  simpl. rewrite !length_app. f_equal. lia.
Qed.

(** ** Message flattener *)

Lemma concatenate_step_line (acc : list pystr) (msg : Message) :
  concatenate_step acc msg = acc ++ option_list (flatten_line msg).
Proof.
  unfold concatenate_step, flatten_line.
  destruct (strip _); simpl; [rewrite app_nil_r|]; reflexivity.
Qed.

Lemma concatenate_loop (messages : list Message) (acc : list pystr) :
  fold_left concatenate_step messages acc = acc ++ omap flatten_line messages.
Proof.
  revert acc. induction messages as [|m ms IH]; intros acc; simpl.
  - rewrite app_nil_r. reflexivity.
  - rewrite IH, concatenate_step_line, <- app_assoc.
    destruct (flatten_line m); reflexivity.
Qed.

(** C7. Message flattener: the messages are taken in their order; each one
    has its think spans removed and is trimmed; one that is left empty gives
    no line, any other gives the line of its capitalized role, a colon and a
    space, and what remains; the lines are joined by one newline. *)
Theorem concatenate_messages_spec (messages : list Message) :
  concatenate_messages messages = join NL (omap flatten_line messages)
  /\ (forall before after,
        omap flatten_line (before ++ after)
        = omap flatten_line before ++ omap flatten_line after)
  /\ (forall msg,
        strip (re_sub_span think_open think_close (content msg)) = [] ->
        forall before after,
          concatenate_messages (before ++ msg :: after)
          = concatenate_messages (before ++ after))
  /\ (forall msg,
        strip (re_sub_span think_open think_close (content msg)) <> [] ->
        flatten_line msg
        = Some (capitalize (role_value (role msg)) ++ lit ": "
                  ++ strip (re_sub_span think_open think_close (content msg)))).
Proof.
  assert (Heq : forall ms,
            concatenate_messages ms = join NL (omap flatten_line ms)).
  { intros ms. unfold concatenate_messages. rewrite concatenate_loop.
    reflexivity. }
  split; [apply Heq|]. split; [|split].
  - intros before after. apply omap_app.
  - intros msg Hempty before after. rewrite !Heq, !omap_app. simpl.
    unfold flatten_line at 2. rewrite Hempty. reflexivity.
  - intros msg Hne. unfold flatten_line.
    destruct (strip _); [congruence | reflexivity].
Qed.

Example re_sub_span_lazy :
  re_sub_span think_open think_close (lit "a<think>x</think>b</think>c") = lit "ab</think>c"
  /\ re_sub_span think_open think_close (lit "a<think>x</think>b<think>c")
     = lit "ab<think>c"
  /\ re_sub_span think_open think_close (lit "a<think>x" ++ NL ++ lit "y</think>b")
     = lit "ab"
  /\ re_sub_span think_open think_close (lit "<think>1</think><think>2</think>")
     = [].
Proof. repeat split; vm_compute; reflexivity. Qed.

(** The message of the specification that is left empty gives no line. *)
Example concatenate_messages_think_only :
  flatten_line think_only = None
  /\ concatenate_messages
       [ {| role := system; content := lit " hi " |};
         think_only;
         {| role := assistant; content := lit "<think>why</think>yo" |} ]
     = lit "System: hi" ++ NL ++ lit "Assistant: yo".
Proof. split; vm_compute; reflexivity. Qed.

(** ** The two consumers of the upstream stream *)

(** One step through a block: a case analysis on the first call that may
    raise, or on the first test, that is not itself built from others. *)
Ltac step_result :=
  match goal with
  | |- context [bind ?r _] =>
    lazymatch r with
    | context [bind] => fail
    | context [if _ then _ else _] => fail
    | _ => let E := fresh "E" in destruct r eqn:E; cbn [bind]
    end
  | |- context [if ?b then _ else _] =>
    lazymatch b with
    | context [bind] => fail
    | context [if _ then _ else _] => fail
    | _ => let E := fresh "E" in destruct b eqn:E; cbv beta iota
    end
  end.

Section Consumers.

Variable py_repr : json -> pystr.
Variable request_model _id : pystr.
Variable created : Z.

Local Abbreviation stream_try' := (stream_try py_repr request_model _id created).
Local Abbreviation stream_line' :=
  (stream_line py_repr request_model _id created).
Local Abbreviation stream_lines' :=
  (stream_lines py_repr request_model _id created).
Local Abbreviation stream_response' :=
  (stream_response py_repr request_model _id created).
Local Abbreviation chat_try' := (chat_try py_repr request_model).
Local Abbreviation chat_line' := (chat_line py_repr request_model).
Local Abbreviation chat_lines' := (chat_lines py_repr request_model).
Local Abbreviation chat_response' := (chat_response py_repr request_model).
Local Abbreviation content_chunk' := (content_chunk request_model _id created).

Lemma delta_content_chunk (c : pystr) : delta_content (content_chunk' c) = Some c.
Proof. reflexivity. Qed.

(** The non-streaming block computes the variables of the streaming block. *)
Lemma chat_try_stream_try (st : seg_state) (json_str : pystr) :
  chat_try' st json_str
  = (p <- stream_try' st json_str; Ok (snd p)).
Proof.
  unfold chat_try, stream_try.
  repeat (step_result; try reflexivity).
Qed.

(** What the streaming block appends to [content_parts] is what it yields. *)
Lemma stream_try_parts (st st' : seg_state) (json_str : pystr)
    (chunks : list chunk) :
  stream_try' st json_str = Ok (chunks, st') ->
  content_parts st' = content_parts st ++ omap delta_content chunks.
Proof.
  unfold stream_try.
  repeat (step_result; try discriminate);
    intros [= <- <-]; simpl; rewrite <- ?app_assoc, ?app_nil_r; reflexivity.
Qed.

Lemma chat_line_stream_line (st : seg_state) (line : pystr) :
  chat_line' st line = (p <- stream_line' st line; Ok (snd p)).
Proof.
  unfold chat_line, stream_line.
  destruct (startswith _ line); [|reflexivity].
  rewrite chat_try_stream_try.
  destruct (stream_try' st (drop 5 line)) as [[chunks st']|[]]; reflexivity.
Qed.

Lemma stream_line_parts (st st' : seg_state) (line : pystr)
    (chunks : list chunk) :
  stream_line' st line = Ok (chunks, st') ->
  content_parts st' = content_parts st ++ omap delta_content chunks.
Proof.
  unfold stream_line.
  destruct (startswith _ line).
  - destruct (stream_try' st (drop 5 line)) as [[chunks' st'']|e] eqn:E.
    + intros [= <- <-]. eapply stream_try_parts, E.
    + destruct e; intros [= <- <-]; simpl; rewrite app_nil_r; reflexivity.
  - intros [= <- <-]. simpl. rewrite app_nil_r. reflexivity.
Qed.

Lemma chat_lines_stream_lines (lines : list pystr) (st : seg_state) :
  chat_lines' st lines = snd (stream_lines' st lines).
Proof.
  revert st. induction lines as [|line rest IH]; intros st; simpl.
  - reflexivity.
  - rewrite chat_line_stream_line.
    destruct (stream_line' st line) as [[chunks st']|e]; simpl; [|reflexivity].
    rewrite IH. destruct (stream_lines' st' rest). reflexivity.
Qed.

Lemma stream_lines_parts (lines : list pystr) (st st' : seg_state)
    (chunks : list chunk) :
  stream_lines' st lines = (chunks, Ok st') ->
  content_parts st' = content_parts st ++ omap delta_content chunks.
Proof.
  revert st chunks. induction lines as [|line rest IH]; intros st chunks; simpl.
  - intros [= <- <-]. simpl. rewrite app_nil_r. reflexivity.
  - destruct (stream_line' st line) as [[chunks1 st1]|e] eqn:E; [|discriminate].
    destruct (stream_lines' st1 rest) as [more r] eqn:E'.
    intros [= <- ->]. rewrite (IH _ _ E'), (stream_line_parts _ _ _ _ E).
    rewrite omap_app, app_assoc. reflexivity.
Qed.

(** The message of the non-streaming mode is what the chunks of the streaming
    mode add up to, and so is the content the generator logs. *)
Lemma chat_response_streamed (response : upstream) :
  status_code response = 200 ->
  chat_response' response
  = match outcome (stream_response' response) with
    | Ok _ =>
      Ok {| completion_model := request_model;
            message_role := lit "assistant";
            message_content := streamed_text (yielded (stream_response' response));
            completion_finish_reason := lit "stop" |}
    | Raise e => Raise e
    end
  /\ (forall logged,
        outcome (stream_response' response) = Ok logged ->
        logged = Some (streamed_text (yielded (stream_response' response)))).
Proof.
  intros H200.
  unfold chat_response, stream_response. rewrite H200.
  change (negb (200 =? 200)) with false. cbv iota.
  rewrite chat_lines_stream_lines.
  destruct (stream_lines' initial_state (aiter_lines response))
    as [chunks [st|e]] eqn:E; cbn [snd bind].
  2: { split; [reflexivity | discriminate]. }
  pose proof (stream_lines_parts _ _ _ _ E) as Hparts. simpl in Hparts.
  assert (Htext :
    forall closed flushed stop parts,
      parts
      = omap delta_content chunks ++ omap delta_content (closed ++ flushed) ->
      delta_content stop = None ->
      concat_parts parts
      = streamed_text
          (generate_chunk _id created request_model
             [(lit "role", lit "assistant")] None
             :: chunks ++ closed ++ flushed ++ [stop])).
  { intros closed flushed stop parts -> Hstop. unfold streamed_text. f_equal.
    change (omap delta_content (?c :: ?l)) with (omap delta_content l).
    rewrite !omap_app. simpl. rewrite Hstop, !app_nil_r. reflexivity. }
  destruct (thinking st) eqn:Hth;
    destruct (if is_r1 request_model then card_pending _ else None)
      as [card|] eqn:Hcard; cbn [yielded outcome];
    (split; [f_equal; f_equal | intros logged [= <-]; f_equal]);
    apply Htext; try reflexivity;
    simpl; rewrite Hparts, <- ?app_assoc, ?app_nil_r; reflexivity.
Qed.

(** ** One event *)

Lemma py_get_content (fields : list (pystr * json)) :
  py_get (JObj fields) (lit "content") JNull = Ok (content_of fields).
Proof. reflexivity. Qed.

Lemma get_is_content_type (fields : list (pystr * json)) (s : pystr) :
  get_is (JObj fields) (lit "content_type") s
  = Ok (eq_str (content_type_of fields) s).
Proof. reflexivity. Qed.

Lemma truthy_str (c : pystr) : c <> [] -> truthy (JStr c) = true.
Proof. destruct c; [congruence | reflexivity]. Qed.

Lemma eq_str_true (v : json) (s : pystr) : eq_str v s = true <-> v = JStr s.
Proof.
  destruct v; simpl; try (split; [discriminate | intros [=]]).
  rewrite str_eqb_eq. split; [intros -> | intros [= ->]]; reflexivity.
Qed.

(** C10. An event with a non-empty content whose content type is none of
    "thinking", "text" and "card" (or is missing) yields no chunk and leaves
    the variables of the loop as they were, in the streaming consumer and in
    the non-streaming one. *)
Theorem unknown_content_type_ignored (st : seg_state) (line : pystr)
    (fields : list (pystr * json)) (c : pystr) :
  startswith (lit "data:") line = true ->
  json_loads (drop 5 line) = Ok (JObj fields) ->
  content_of fields = JStr c ->
  c <> [] ->
  eq_str (content_type_of fields) (lit "thinking") = false ->
  eq_str (content_type_of fields) (lit "text") = false ->
  eq_str (content_type_of fields) (lit "card") = false ->
  stream_line' st line = Ok ([], st) /\ chat_line' st line = Ok st.
Proof.
  intros Hdata Hloads Hcontent Hne Hthinking Htext Hcard.
  assert (Hstream : stream_try' st (drop 5 line) = Ok ([], st)).
  { unfold stream_try. rewrite Hloads. cbn [bind].
    rewrite py_get_content, Hcontent. cbn [bind].
    rewrite (truthy_str c Hne). cbv beta iota zeta.
    rewrite (truthy_str c Hne). cbn [sub_details bind].
    rewrite !get_is_content_type, Hthinking, Htext, Hcard. reflexivity. }
  split.
  - unfold stream_line. rewrite Hdata, Hstream. reflexivity.
  - rewrite chat_line_stream_line. unfold stream_line.
    rewrite Hdata, Hstream. reflexivity.
Qed.

(** An event whose content is missing, empty or otherwise false is skipped. *)
Lemma stream_try_falsy (st : seg_state) (json_str : pystr)
    (fields : list (pystr * json)) :
  json_loads json_str = Ok (JObj fields) ->
  truthy (content_of fields) = false ->
  stream_try' st json_str = Ok ([], st).
Proof.
  intros Hloads Hfalsy. unfold stream_try. rewrite Hloads. cbn [bind].
  rewrite py_get_content. cbn [bind]. rewrite Hfalsy. reflexivity.
Qed.

(** The block for an event with a non-empty str content, after the
    substitution: the dispatch on the content type sees the stripped text. *)
Lemma stream_try_content (st : seg_state) (json_str : pystr)
    (fields : list (pystr * json)) (c : pystr) :
  json_loads json_str = Ok (JObj fields) ->
  content_of fields = JStr c ->
  c <> [] ->
  stream_try' st json_str
  = if eq_str (content_type_of fields) (lit "thinking") then
      Ok ((if thinking st then [] else [content_chunk' think_open])
            ++ [content_chunk' (strip_details c)],
          append_part (strip_details c)
            (if thinking st then st
             else append_part think_open (set_thinking true st)))
    else if eq_str (content_type_of fields) (lit "text") then
      Ok ((if thinking st then [content_chunk' think_close] else [])
            ++ [content_chunk' (strip_details c)],
          append_part (strip_details c)
            (if thinking st
             then append_part think_close (set_thinking false st)
             else st))
    else if eq_str (content_type_of fields) (lit "card") then
      parsed_content <- parse_card_content py_repr (strip_details c);
      if is_r1 request_model
      then Ok ([], set_card_content parsed_content st)
      else Ok ([content_chunk' (parsed_content ++ NL ++ NL)],
               append_part (parsed_content ++ NL ++ NL) st)
    else Ok ([], st).
Proof.
  intros Hloads Hcontent Hne. unfold stream_try. rewrite Hloads. cbn [bind].
  rewrite py_get_content, Hcontent. cbn [bind].
  rewrite (truthy_str c Hne). cbv beta iota zeta.
  rewrite (truthy_str c Hne). cbn [sub_details bind].
  rewrite !get_is_content_type. cbn [bind].
  destruct (eq_str _ (lit "thinking")).
  { destruct (thinking st); reflexivity. }
  destruct (eq_str _ (lit "text")).
  { destruct (thinking st); reflexivity. }
  reflexivity.
Qed.

(** C5, as the code has it. The test for an empty content comes before the
    substitution: an event whose content is missing or empty is skipped, with
    no chunk and no change of the variables, in both consumers; an event with
    a non-empty str content has its details spans removed before its content
    type is looked at, and what a thinking or text event then yields, after
    the marker its type calls for, is the stripped text, empty or not. *)
Theorem details_stripped_after_empty_test (st : seg_state) (json_str : pystr)
    (fields : list (pystr * json)) :
  json_loads json_str = Ok (JObj fields) ->
  (truthy (content_of fields) = false ->
   stream_try' st json_str = Ok ([], st) /\ chat_try' st json_str = Ok st)
  /\ (forall c,
        content_of fields = JStr c -> c <> [] ->
        (content_type_of fields = JStr (lit "thinking") ->
         stream_try' st json_str
         = Ok ((if thinking st then [] else [content_chunk' think_open])
                 ++ [content_chunk' (strip_details c)],
               append_part (strip_details c)
                 (if thinking st then st
                  else append_part think_open (set_thinking true st))))
        /\ (content_type_of fields = JStr (lit "text") ->
            stream_try' st json_str
            = Ok ((if thinking st then [content_chunk' think_close] else [])
                    ++ [content_chunk' (strip_details c)],
                  append_part (strip_details c)
                    (if thinking st
                     then append_part think_close (set_thinking false st)
                     else st)))
        /\ (content_type_of fields = JStr (lit "card") ->
            stream_try' st json_str
            = (parsed_content <- parse_card_content py_repr (strip_details c);
               if is_r1 request_model
               then Ok ([], set_card_content parsed_content st)
               else Ok ([content_chunk' (parsed_content ++ NL ++ NL)],
                        append_part (parsed_content ++ NL ++ NL) st)))).
Proof.
  intros Hloads. split.
  - intros Hfalsy. rewrite chat_try_stream_try.
    rewrite (stream_try_falsy st json_str fields Hloads Hfalsy).
    split; reflexivity.
  - intros c Hcontent Hne.
    rewrite (stream_try_content st json_str fields c Hloads Hcontent Hne).
    repeat split; intros ->; reflexivity.
Qed.

(** A card event: deferred for the two r1 model names, inline otherwise. *)
Lemma card_event_by_model (st : seg_state) (json_str : pystr)
    (fields : list (pystr * json)) (c parsed_content : pystr) :
  json_loads json_str = Ok (JObj fields) ->
  content_of fields = JStr c ->
  c <> [] ->
  content_type_of fields = JStr (lit "card") ->
  parse_card_content py_repr (strip_details c) = Ok parsed_content ->
  (request_model = lit "deepseek-r1"
   \/ request_model = lit "deepseek-r1-search" ->
   stream_try' st json_str
   = Ok ([], {| thinking := thinking st;
                content_parts := content_parts st;
                card_content := Some parsed_content |}))
  /\ (request_model <> lit "deepseek-r1" ->
      request_model <> lit "deepseek-r1-search" ->
      stream_try' st json_str
      = Ok ([content_chunk' (parsed_content ++ NL ++ NL)],
            {| thinking := thinking st;
               content_parts := content_parts st ++ [parsed_content ++ NL ++ NL];
               card_content := card_content st |})).
Proof.
  intros Hloads Hcontent Hne Hcard Hparsed.
  rewrite (stream_try_content st json_str fields c Hloads Hcontent Hne).
  rewrite Hcard, Hparsed.
  change (eq_str (JStr (lit "card")) (lit "thinking")) with false.
  change (eq_str (JStr (lit "card")) (lit "text")) with false.
  change (eq_str (JStr (lit "card")) (lit "card")) with true.
  cbv iota. cbn [bind]. split.
  - intros [-> | ->]; reflexivity.
  - intros H1 H2. apply str_eqb_neq in H1, H2.
    unfold is_r1, str_in. cbn [existsb]. rewrite H1, H2. reflexivity.
Qed.

(** ** End of the stream *)

Lemma parse_card_try_nonempty (content0 r : pystr) :
  parse_card_try py_repr content0 = Ok r -> r <> [].
Proof.
  unfold parse_card_try.
  repeat (step_result; try discriminate); intros [= <-]; discriminate.
Qed.

Lemma parse_card_content_nonempty (content0 r : pystr) :
  parse_card_content py_repr content0 = Ok r -> r <> [].
Proof.
  unfold parse_card_content.
  destruct (parse_card_try py_repr content0) as [r'|e] eqn:E.
  - intros [= <-]. eapply parse_card_try_nonempty, E.
  - destruct e; try discriminate. intros [= <-]. discriminate.
Qed.

Lemma stream_try_pending (st st' : seg_state) (json_str : pystr)
    (chunks : list chunk) :
  stream_try' st json_str = Ok (chunks, st') -> pending_ok st -> pending_ok st'.
Proof.
  unfold stream_try, pending_ok.
  repeat (step_result; try discriminate); intros [= <- <-] Hok; simpl; auto.
  intros [= ->].
  match goal with
  | H : parse_card_content _ _ = Ok [] |- _ =>
    exact (parse_card_content_nonempty _ _ H eq_refl)
  end.
Qed.

Lemma stream_lines_pending (lines : list pystr) (st st' : seg_state)
    (chunks : list chunk) :
  stream_lines' st lines = (chunks, Ok st') -> pending_ok st -> pending_ok st'.
Proof.
  revert st chunks. induction lines as [|line rest IH]; intros st chunks; simpl.
  - intros [= <- <-]. auto.
  - unfold stream_line.
    destruct (startswith _ line).
    + destruct (stream_try' st (drop 5 line)) as [[c1 st1]|e] eqn:E.
      * destruct (stream_lines' st1 rest) as [more r] eqn:E'.
        intros [= <- ->] Hok. eapply IH; [exact E'|].
        eapply stream_try_pending; eauto.
      * destruct e; try discriminate.
        destruct (stream_lines' st rest) as [more r] eqn:E'.
        intros [= <- ->]. eapply IH, E'.
    + destruct (stream_lines' st rest) as [more r] eqn:E'.
      intros [= <- ->]. eapply IH, E'.
Qed.

(** What the generator yields when the loop ends without an exception. *)
Lemma end_of_stream (response : upstream) (chunks : list chunk)
    (st : seg_state) :
  status_code response = 200 ->
  stream_lines' initial_state (aiter_lines response) = (chunks, Ok st) ->
  yielded (stream_response' response)
  = role_chunk request_model _id created
      :: chunks
      ++ (if thinking st then [content_chunk' think_close] else [])
      ++ match (if is_r1 request_model then card_content st else None) with
         | Some card => [content_chunk' (card ++ NL ++ NL)]
         | None => []
         end
      ++ [stop_chunk request_model _id created].
Proof.
  intros H200 Hloop. unfold stream_response. rewrite H200, Hloop.
  change (negb (200 =? 200)) with false. cbv iota.
  pose proof (stream_lines_pending _ _ _ _ Hloop) as Hok.
  unfold pending_ok in Hok. specialize (Hok ltac:(discriminate)).
  assert (Hpending :
    forall st2, card_content st2 = card_content st ->
      (if is_r1 request_model then card_pending st2 else None)
      = (if is_r1 request_model then card_content st else None)).
  { intros st2 Heq. destruct (is_r1 request_model); [|reflexivity].
    unfold card_pending. rewrite Heq.
    destruct (card_content st) as [[|c card]|];
      [exfalso; apply Hok; reflexivity | reflexivity | reflexivity]. }
  destruct (thinking st); cbv beta iota zeta;
    rewrite Hpending by reflexivity;
    destruct (if is_r1 request_model then card_content st else None);
    reflexivity.
Qed.

(** C4, as the code has it. The deferral is keyed on the two model names
    "deepseek-r1" and "deepseek-r1-search", not on the "deep" option of the
    catalog.  For them the rendering of a card event replaces whatever was
    pending and no chunk is yielded, and when the loop has ended the pending
    rendering is yielded once, with two newlines, after the closing marker if
    there is one and before the stop chunk.  For every other model the
    rendering and two newlines are yielded at once, neither the thinking flag
    nor the pending card changes, and nothing is flushed at the end. *)
Theorem card_deferred_for_r1_only :
  (forall st json_str fields c parsed_content,
     json_loads json_str = Ok (JObj fields) ->
     content_of fields = JStr c ->
     c <> [] ->
     content_type_of fields = JStr (lit "card") ->
     parse_card_content py_repr (strip_details c) = Ok parsed_content ->
     (request_model = lit "deepseek-r1"
      \/ request_model = lit "deepseek-r1-search" ->
      stream_try' st json_str
      = Ok ([], {| thinking := thinking st;
                   content_parts := content_parts st;
                   card_content := Some parsed_content |}))
     /\ (request_model <> lit "deepseek-r1" ->
         request_model <> lit "deepseek-r1-search" ->
         stream_try' st json_str
         = Ok ([content_chunk' (parsed_content ++ NL ++ NL)],
               {| thinking := thinking st;
                  content_parts :=
                    content_parts st ++ [parsed_content ++ NL ++ NL];
                  card_content := card_content st |})))
  /\ (forall response chunks st,
        status_code response = 200 ->
        stream_lines' initial_state (aiter_lines response) = (chunks, Ok st) ->
        (request_model = lit "deepseek-r1"
         \/ request_model = lit "deepseek-r1-search" ->
         yielded (stream_response' response)
         = role_chunk request_model _id created
             :: chunks
             ++ (if thinking st then [content_chunk' think_close] else [])
             ++ match card_content st with
                | Some card => [content_chunk' (card ++ NL ++ NL)]
                | None => []
                end
             ++ [stop_chunk request_model _id created])
        /\ (request_model <> lit "deepseek-r1" ->
            request_model <> lit "deepseek-r1-search" ->
            yielded (stream_response' response)
            = role_chunk request_model _id created
                :: chunks
                ++ (if thinking st then [content_chunk' think_close] else [])
                ++ [stop_chunk request_model _id created])).
Proof.
  split.
  - intros st json_str fields c parsed_content. apply card_event_by_model.
  - intros response chunks st H200 Hloop.
    rewrite (end_of_stream response chunks st H200 Hloop). split.
    + intros [-> | ->]; reflexivity.
    + intros H1 H2. apply str_eqb_neq in H1, H2.
      unfold is_r1, str_in. cbn [existsb]. rewrite H1, H2. reflexivity.
Qed.

(** C8, as the code has it. When the upstream chat call does not answer 200,
    the streaming generator yields, after the role chunk, one chunk that
    carries the error message as its content and is itself marked stop;
    nothing follows it and the lines of the answer play no part.  The
    non-streaming mode raises an HTTP 500 error and returns no message. *)
Theorem upstream_failure (response : upstream) :
  status_code response <> 200 ->
  stream_response' response
  = {| yielded :=
         [ role_chunk request_model _id created;
           generate_chunk _id created request_model
             [(lit "content",
               lit "错误：无法获取响应，状态码: "
                 ++ str_of_int (status_code response))]
             (Some (lit "stop")) ];
       outcome := Ok None |}
  /\ chat_response' response
     = Raise (HTTPException 500
                (lit "无法从 API 获取响应，状态码: "
                   ++ str_of_int (status_code response)))
  /\ (forall lines,
        stream_response' {| status_code := status_code response;
                            aiter_lines := lines |}
        = stream_response' response).
Proof.
  intros Hstatus. apply Z.eqb_neq in Hstatus.
  unfold stream_response, chat_response. cbn [status_code].
  rewrite Hstatus. repeat split; reflexivity.
Qed.

(** ** The state machine *)

(** A line changes the thinking flag only together with the marker of the
    change: with no chunk or one content chunk the flag stays; an opening
    marker comes with a change from text to thinking, a closing marker with a
    change from thinking to text, each before the content of the event. *)
Lemma think_markers_at_transitions (st st' : seg_state) (line : pystr)
    (chunks : list chunk) :
  stream_line' st line = Ok (chunks, st') ->
  (thinking st' = thinking st
   /\ (chunks = [] \/ exists c, chunks = [content_chunk' c]))
  \/ (thinking st = false /\ thinking st' = true
      /\ exists c, chunks = [content_chunk' think_open; content_chunk' c])
  \/ (thinking st = true /\ thinking st' = false
      /\ exists c, chunks = [content_chunk' think_close; content_chunk' c]).
Proof.
  unfold stream_line.
  destruct (startswith _ line); [|intros [= <- <-]; left; auto].
  destruct (stream_try' st (drop 5 line)) as [[chunks' st'']|e] eqn:E;
    [|destruct e; intros [=]; subst; left; auto].
  intros [= <- <-]. revert E. unfold stream_try.
  repeat (step_result; try discriminate); intros [= <- <-]; simpl;
    repeat match goal with
           | H : negb _ = true |- _ => apply negb_true_iff in H
           | H : negb _ = false |- _ => apply negb_false_iff in H
           end;
    first [ solve [left; split; eauto]
          | solve [right; left; repeat split; eauto]
          | solve [right; right; repeat split; eauto] ].
Qed.

(** No chunk of the loop is marked stop. *)
Lemma stream_line_unmarked (st st' : seg_state) (line : pystr)
    (chunks : list chunk) :
  stream_line' st line = Ok (chunks, st') ->
  Forall (fun c => stop_marked c = false) chunks.
Proof.
  intros H. apply think_markers_at_transitions in H.
  destruct H as [[_ [-> | [c ->]]] | [(_ & _ & c & ->) | (_ & _ & c & ->)]];
    repeat constructor.
Qed.

Lemma stream_lines_unmarked (lines : list pystr) (st : seg_state)
    (chunks : list chunk) (r : result seg_state) :
  stream_lines' st lines = (chunks, r) ->
  Forall (fun c => stop_marked c = false) chunks.
Proof.
  revert st chunks. induction lines as [|line rest IH]; intros st chunks; simpl.
  - intros [= <- <-]. constructor.
  - destruct (stream_line' st line) as [[c1 st1]|e] eqn:E.
    + destruct (stream_lines' st1 rest) as [more r'] eqn:E'.
      intros [= <- <-]. apply Forall_app. split.
      * eapply stream_line_unmarked, E.
      * eapply IH, E'.
    + intros [= <- <-]. constructor.
Qed.

Lemma outcome_of_loop (response : upstream) (chunks : list chunk)
    (r : result seg_state) :
  status_code response = 200 ->
  stream_lines' initial_state (aiter_lines response) = (chunks, r) ->
  match r with
  | Ok _ => exists logged, outcome (stream_response' response) = Ok (Some logged)
  | Raise e =>
    stream_response' response
    = {| yielded := role_chunk request_model _id created :: chunks;
         outcome := Raise e |}
  end.
Proof.
  intros H200 Hloop. unfold stream_response. rewrite H200, Hloop.
  change (negb (200 =? 200)) with false. cbv iota.
  destruct r as [st|e]; [|reflexivity].
  destruct (thinking st); cbv beta iota zeta;
    destruct (if is_r1 request_model then card_pending _ else None);
    cbn [outcome]; eexists; reflexivity.
Qed.

(** A generator that runs to its end yields exactly one stop-marked chunk,
    the last one; one that an exception leaves yields none. *)
Lemma stop_marker_when_completed (response : upstream) :
  status_code response = 200 ->
  match outcome (stream_response' response) with
  | Ok _ =>
    exists body,
      yielded (stream_response' response)
      = body ++ [stop_chunk request_model _id created]
      /\ Forall (fun c => stop_marked c = false) body
  | Raise _ =>
    Forall (fun c => stop_marked c = false) (yielded (stream_response' response))
  end.
Proof.
  intros H200.
  destruct (stream_lines' initial_state (aiter_lines response))
    as [chunks r] eqn:Hloop.
  pose proof (stream_lines_unmarked _ _ _ _ Hloop) as Hun.
  pose proof (outcome_of_loop response chunks r H200 Hloop) as Hout.
  destruct r as [st|e].
  - destruct Hout as [logged ->].
    rewrite (end_of_stream response chunks st H200 Hloop).
    set (closed := if thinking st then [content_chunk' think_close] else []).
    set (flushed :=
           match (if is_r1 request_model then card_content st else None) with
           | Some card => [content_chunk' (card ++ NL ++ NL)]
           | None => []
           end).
    exists (role_chunk request_model _id created :: chunks ++ closed ++ flushed).
    split.
    + rewrite <- app_comm_cons, <- !app_assoc. reflexivity.
    + constructor; [reflexivity|].
      repeat (apply Forall_app; split); [exact Hun | |].
      * subst closed. destruct (thinking st); repeat constructor.
      * subst flushed.
        destruct (if is_r1 request_model then card_content st else None);
          repeat constructor.
  - rewrite Hout. cbn [outcome yielded]. constructor; [reflexivity | exact Hun].
Qed.

End Consumers.

(** ** The endpoint *)

(** The two modes on one request and one upstream answer accepted with status
    200: the non-streaming mode returns a message exactly when the streaming
    generator runs to its end, and the content of that message is then the
    concatenation, in order, of the content fragments of the chunks; an
    exception that leaves one mode leaves the other, the streaming mode having
    delivered the chunks yielded before it. *)
Lemma modes_agree_when_completed (py_repr : json -> pystr)
    (request : ChatCompletionRequest) (_id : pystr) (created : Z)
    (response : upstream) :
  status_code response = 200 ->
  exists g,
    chat_completions py_repr (set_stream true request) _id created response
    = Ok (StreamingResponse g)
    /\ chat_completions py_repr (set_stream false request) _id created response
       = match outcome g with
         | Ok _ =>
           Ok (JSONResponse
                 {| completion_model := served_model (model request);
                    message_role := lit "assistant";
                    message_content := streamed_text (yielded g);
                    completion_finish_reason := lit "stop" |})
         | Raise e => Raise e
         end.
Proof.
  intros H200. eexists. split; [reflexivity|].
  unfold chat_completions. cbn [set_stream stream model].
  destruct (chat_response_streamed py_repr (served_model (model request))
              _id created response H200) as [-> _].
  destruct (outcome _); reflexivity.
Qed.

Example modes_agree_on_think_then_text :
  exists g,
    chat_completions sample_repr (set_stream true demo_request) [] 0
      (ok_lines [thinking_a; thinking_b; text_c])
    = Ok (StreamingResponse g)
    /\ chat_completions sample_repr (set_stream false demo_request) [] 0
         (ok_lines [thinking_a; thinking_b; text_c])
       = match outcome g with
         | Ok _ =>
           Ok (JSONResponse
                 {| completion_model := served_model (model demo_request);
                    message_role := lit "assistant";
                    message_content := streamed_text (yielded g);
                    completion_finish_reason := lit "stop" |})
         | Raise e => Raise e
         end.
Proof.
  apply (modes_agree_when_completed sample_repr demo_request [] 0
           (ok_lines [thinking_a; thinking_b; text_c])).
  reflexivity.
Qed.

(** The scenario of three events: two of thinking, one of text. *)
Example scenario_think_then_text :
  omap delta_content
    (yielded (stream_response sample_repr (lit "deepseek-v3") [] 0
                (ok_lines [thinking_a; thinking_b; text_c])))
  = map lit ["<think>"; "a"; "b"; "</think>"; "c"]%string
  /\ chat_response sample_repr (lit "deepseek-v3")
       (ok_lines [thinking_a; thinking_b; text_c])
     = Ok {| completion_model := lit "deepseek-v3";
             message_role := lit "assistant";
             message_content := lit "<think>ab</think>c";
             completion_finish_reason := lit "stop" |}.
Proof. split; vm_compute; reflexivity. Qed.

(** The scenario of a deferred card: it comes after the text, at the end. *)
Example scenario_deferred_card :
  omap delta_content
    (yielded (stream_response sample_repr (lit "deepseek-r1") [] 0
                (ok_lines [card_no_rows; text_hello])))
  = [lit "hello"; unparseable ++ NL ++ NL]
  /\ omap delta_content
       (yielded (stream_response sample_repr (lit "deepseek-v3") [] 0
                   (ok_lines [card_no_rows; text_hello])))
     = [unparseable ++ NL ++ NL; lit "hello"].
Proof. split; vm_compute; reflexivity. Qed.

(** ** Witnesses *)

Lemma truncate_messages_spec_witness :
  truncate_messages truncate_demo 11 = truncate_demo
  /\ exists kept,
       truncate_messages truncate_demo 8
       = List.filter (fun msg => negb (is_ua msg)) truncate_demo ++ kept
       /\ kept `suffix_of` List.filter is_ua truncate_demo
       /\ total_chars (truncate_messages truncate_demo 8) <= 8.
Proof.
  split.
  - apply (proj1 (truncate_messages_spec truncate_demo 11)).
    vm_compute. discriminate.
  - destruct (proj2 (truncate_messages_spec truncate_demo 8))
      as (kept & H1 & H2 & H3 & _).
    + vm_compute. reflexivity.
    + exists kept. repeat split; [exact H1 | exact H2 |].
      apply H3. vm_compute. discriminate.
Defined.

Lemma concatenate_messages_spec_witness :
  concatenate_messages truncate_demo = join NL (omap flatten_line truncate_demo)
  /\ concatenate_messages (truncate_demo ++ think_only :: truncate_demo)
     = concatenate_messages (truncate_demo ++ truncate_demo).
Proof.
  destruct (concatenate_messages_spec truncate_demo) as (H1 & _ & H3 & _).
  split; [exact H1|]. apply (H3 think_only). vm_compute. reflexivity.
Defined.

Lemma unknown_content_type_ignored_witness :
  stream_line sample_repr (lit "deepseek-v3") [] 0
    {| thinking := true; content_parts := [think_open]; card_content := None |}
    (quoted other_x)
  = Ok ([], {| thinking := true; content_parts := [think_open];
               card_content := None |})
  /\ chat_line sample_repr (lit "deepseek-v3")
       {| thinking := true; content_parts := [think_open];
          card_content := None |}
       (quoted other_x)
     = Ok {| thinking := true; content_parts := [think_open];
             card_content := None |}.
Proof.
  apply (unknown_content_type_ignored sample_repr (lit "deepseek-v3") [] 0 _
           (quoted other_x) (fields_of "x" "other") (lit "x"));
    solve [vm_compute; reflexivity | discriminate].
Defined.

Lemma details_stripped_after_empty_test_witness :
  (stream_try sample_repr (lit "deepseek-v3") [] 0 initial_state
     (drop 5 (quoted empty_text))
   = Ok ([], initial_state)
   /\ chat_try sample_repr (lit "deepseek-v3") initial_state
        (drop 5 (quoted empty_text))
      = Ok initial_state)
  /\ stream_try sample_repr (lit "deepseek-v3") [] 0 initial_state
       (drop 5 (quoted text_hello))
     = Ok ([] ++ [content_chunk (lit "deepseek-v3") [] 0
                    (strip_details (lit "hello"))],
           append_part (strip_details (lit "hello")) initial_state).
Proof.
  split.
  - apply (details_stripped_after_empty_test sample_repr (lit "deepseek-v3")
             [] 0 initial_state (drop 5 (quoted empty_text))
             (fields_of EmptyString "text")); vm_compute; reflexivity.
  - apply (details_stripped_after_empty_test sample_repr (lit "deepseek-v3")
             [] 0 initial_state (drop 5 (quoted text_hello))
             (fields_of "hello" "text"));
      solve [vm_compute; reflexivity | discriminate].
Defined.

Lemma card_deferred_for_r1_only_witness :
  stream_try sample_repr (lit "deepseek-r1") [] 0 initial_state
    (drop 5 (quoted card_no_rows))
  = Ok ([], {| thinking := false; content_parts := [];
               card_content := Some unparseable |})
  /\ yielded (stream_response sample_repr (lit "deepseek-r1") [] 0
                (ok_lines [card_no_rows; text_hello]))
     = [ role_chunk (lit "deepseek-r1") [] 0;
         content_chunk (lit "deepseek-r1") [] 0 (lit "hello");
         content_chunk (lit "deepseek-r1") [] 0 (unparseable ++ NL ++ NL);
         stop_chunk (lit "deepseek-r1") [] 0 ].
Proof.
  destruct (card_deferred_for_r1_only sample_repr (lit "deepseek-r1") [] 0)
    as [Hevent Hflush].
  split.
  - eapply (Hevent initial_state (drop 5 (quoted card_no_rows)) _ _ unparseable);
      solve [vm_compute; reflexivity | discriminate
            | left; reflexivity].
  - apply (Hflush (ok_lines [card_no_rows; text_hello])
             [content_chunk (lit "deepseek-r1") [] 0 (lit "hello")]
             {| thinking := false; content_parts := [lit "hello"];
                card_content := Some unparseable |});
      solve [vm_compute; reflexivity | left; reflexivity].
Defined.

Lemma upstream_failure_witness :
  stream_response sample_repr (lit "deepseek-v3") [] 0
    {| status_code := 503; aiter_lines := map quoted [thinking_a; text_c] |}
  = {| yielded :=
         [ role_chunk (lit "deepseek-v3") [] 0;
           generate_chunk [] 0 (lit "deepseek-v3")
             [(lit "content",
               lit "错误：无法获取响应，状态码: " ++ str_of_int 503)]
             (Some (lit "stop")) ];
       outcome := Ok None |}
  /\ chat_response sample_repr (lit "deepseek-v3")
       {| status_code := 503; aiter_lines := map quoted [thinking_a; text_c] |}
     = Raise (HTTPException 500
                (lit "无法从 API 获取响应，状态码: " ++ str_of_int 503)).
Proof.
  destruct (upstream_failure sample_repr (lit "deepseek-v3") [] 0
              {| status_code := 503;
                 aiter_lines := map quoted [thinking_a; text_c] |})
    as (H1 & H2 & _).
  - discriminate.
  - split; [exact H1 | exact H2].
Defined.

(** ** Where the code departs from the specification *)

(** C2, on the code. A card event whose payload decodes to something other
    than an object makes the card renderer raise inside the loop: the
    generator stops after the opening marker and the thinking fragment, with
    no closing marker and no stop chunk, and the non-streaming mode returns
    no message. *)
Theorem stream_aborts_inside_think (py_repr : json -> pystr) (_id : pystr)
    (created : Z) :
  yielded (stream_response py_repr (lit "deepseek-v3") _id created
             (ok_lines [thinking_a; card_array; text_c]))
  = [ role_chunk (lit "deepseek-v3") _id created;
      content_chunk (lit "deepseek-v3") _id created think_open;
      content_chunk (lit "deepseek-v3") _id created (lit "a") ]
  /\ outcome (stream_response py_repr (lit "deepseek-v3") _id created
                (ok_lines [thinking_a; card_array; text_c]))
     = Raise AttributeError
  /\ chat_response py_repr (lit "deepseek-v3")
       (ok_lines [thinking_a; card_array; text_c])
     = Raise AttributeError.
Proof. repeat split; vm_compute; reflexivity. Qed.

(** A line that decodes to something other than an object, or whose content
    is a number, leaves the loop in the same way: the handler of the loop
    catches the decoding error only. *)
Example stream_aborts_on_non_object :
  outcome (stream_response sample_repr (lit "deepseek-v3") [] 0
             (ok_lines [thinking_a; "data:[]"; text_c]%string))
  = Raise AttributeError
  /\ outcome (stream_response sample_repr (lit "deepseek-v3") [] 0
                (ok_lines [thinking_a; "data:{'content':5}"; text_c]%string))
     = Raise TypeError
  /\ omap delta_content
       (yielded (stream_response sample_repr (lit "deepseek-v3") [] 0
                   (ok_lines [thinking_a; "data:{bad"; "ping"; text_c]%string)))
     = map lit ["<think>"; "a"; "</think>"; "c"]%string.
Proof. repeat split; vm_compute; reflexivity. Qed.

(** C1, on the code. On the same answer the two modes do not deliver the same
    text: the stream has already delivered the opening marker and the thinking
    fragment when the card renderer raises, and the non-streaming mode, which
    raises too, returns no message at all; the text of the event that follows
    is delivered by neither. *)
Theorem modes_differ_when_renderer_raises (py_repr : json -> pystr)
    (_id : pystr) (created : Z) :
  exists g,
    chat_completions py_repr (set_stream true demo_request) _id created
      (ok_lines [thinking_a; card_array; text_c])
    = Ok (StreamingResponse g)
    /\ streamed_text (yielded g) = lit "<think>a"
    /\ outcome g = Raise AttributeError
    /\ chat_completions py_repr (set_stream false demo_request) _id created
         (ok_lines [thinking_a; card_array; text_c])
       = Raise AttributeError.
Proof. eexists. repeat split; vm_compute; reflexivity. Qed.

(** C3, on the code. The renderer catches the decoding error only: a payload
    that decodes to a list or a number, a card whose items are not objects,
    and a card whose items are not iterable make it raise. *)
Theorem parse_card_content_raises (py_repr : json -> pystr) :
  parse_card_content py_repr (lit "[]") = Raise AttributeError
  /\ parse_card_content py_repr (lit "123") = Raise AttributeError
  /\ parse_card_content py_repr
       (quoted "{'cardType':'DB-CARD-2','cardInfo':{'cardItems':[1]}}")
     = Raise AttributeError
  /\ parse_card_content py_repr
       (quoted "{'cardType':'DB-CARD-2','cardInfo':{'cardItems':null}}")
     = Raise TypeError.
Proof. repeat split; vm_compute; reflexivity. Qed.

(** What is not JSON is rendered as the fallback text. *)
Lemma parse_card_content_not_json (py_repr : json -> pystr) (s : pystr) :
  json_loads s = Raise JSONDecodeError ->
  parse_card_content py_repr s = Ok unparseable.
Proof.
  intros H. unfold parse_card_content, parse_card_try. rewrite H. reflexivity.
Qed.

Example parse_card_content_empty :
  parse_card_content sample_repr [] = Ok unparseable
  /\ parse_card_content sample_repr (lit "no json") = Ok unparseable
  /\ parse_card_content sample_repr (lit "{}") = Ok unsupported.
Proof. repeat split; vm_compute; reflexivity. Qed.

(** The renderer never lets a decoding error through. *)
Lemma parse_card_content_catches (py_repr : json -> pystr) (s : pystr) :
  parse_card_content py_repr s <> Raise JSONDecodeError.
Proof.
  unfold parse_card_content.
  destruct (parse_card_try py_repr s) as [r|[]]; discriminate.
Qed.

(** C9, on the code. Every occurrence of "Bearer " is deleted from a header
    that starts with it, not the prefix alone: a header with the prefix twice
    is accepted, and a key that contains "Bearer " is refused in both of its
    forms. *)
Theorem check_authorization_replaces_all :
  check_authorization (lit "k") (Some (lit "Bearer Bearer k")) = Ok true
  /\ check_authorization (lit "k") (Some (lit "Bearer kBearer ")) = Ok true
  /\ check_authorization (lit "a Bearer b") (Some (lit "Bearer a Bearer b"))
     = Raise (HTTPException 401 (lit "无效的 API 密钥"))
  /\ check_authorization (lit "Bearer b") (Some (lit "Bearer b"))
     = Raise (HTTPException 401 (lit "无效的 API 密钥")).
Proof. repeat split; vm_compute; reflexivity. Qed.

Lemma replace_no_occurrence (old new s : pystr) :
  (forall i, startswith old (drop i s) = false) ->
  str_replace old new s = s.
Proof.
  unfold str_replace. induction s as [|c s IH]; intros H; simpl.
  - reflexivity.
  - pose proof (H 0%nat) as H0. simpl in H0. rewrite H0. f_equal.
    apply IH. intros i. apply (H (S i)).
Qed.

(** For a key in which "Bearer " does not occur, the bare key and the key
    after "Bearer " are accepted, and a missing header is refused. *)
Lemma check_authorization_plain_key (API_KEY : pystr) :
  API_KEY <> [] ->
  (forall i, startswith (lit "Bearer ") (drop i API_KEY) = false) ->
  check_authorization API_KEY (Some API_KEY) = Ok true
  /\ check_authorization API_KEY (Some (lit "Bearer " ++ API_KEY)) = Ok true
  /\ check_authorization API_KEY None
     = Raise (HTTPException 401 (lit "缺少 Authorization 头部"))
  /\ check_authorization API_KEY (Some [])
     = Raise (HTTPException 401 (lit "缺少 Authorization 头部")).
Proof.
  intros Hne Hfree. repeat split.
  - unfold check_authorization. destruct API_KEY as [|c k]; [congruence|].
    pose proof (Hfree 0%nat) as H0. change (drop 0 (c :: k)) with (c :: k) in H0.
    rewrite H0, str_eqb_refl. reflexivity.
  - unfold check_authorization.
    change (lit "Bearer " ++ API_KEY)
      with (66%N :: (drop 1 (lit "Bearer ") ++ API_KEY)).
    cbv iota.
    change (66%N :: (drop 1 (lit "Bearer ") ++ API_KEY))
      with (lit "Bearer " ++ API_KEY).
    rewrite startswith_app.
    assert (str_replace (lit "Bearer ") [] (lit "Bearer " ++ API_KEY) = API_KEY)
      as ->.
    { unfold str_replace.
      change (lit "Bearer " ++ API_KEY)
        with (66%N :: (drop 1 (lit "Bearer ") ++ API_KEY)).
      cbn [replace_from].
      change (66%N :: (drop 1 (lit "Bearer ") ++ API_KEY))
        with (lit "Bearer " ++ API_KEY).
      rewrite startswith_app. simpl.
      apply (replace_no_occurrence (lit "Bearer ") [] API_KEY Hfree). }
    rewrite str_eqb_refl. reflexivity.
Qed.

(** ** Counterexamples to the specification as it is worded *)

(** C4: "doubao-thinking" has the "deep" option, and its card is yielded
    inline, before the text that follows it. *)
Lemma deep_model_card_inline :
  deep_reasoning (lit "doubao-thinking") = true
  /\ stream_try sample_repr (lit "doubao-thinking") [] 0 initial_state
       (drop 5 (quoted card_no_rows))
     = Ok ([content_chunk (lit "doubao-thinking") [] 0 (unparseable ++ NL ++ NL)],
           {| thinking := false; content_parts := [unparseable ++ NL ++ NL];
              card_content := None |})
  /\ omap delta_content
       (yielded (stream_response sample_repr (lit "doubao-thinking") [] 0
                   (ok_lines [card_no_rows; text_hello])))
     = [unparseable ++ NL ++ NL; lit "hello"].
Proof. repeat split; vm_compute; reflexivity. Qed.

(** C5: an event made of one details span is not skipped; as a thinking event
    it opens a think interval and yields an empty fragment. *)
Lemma details_only_event_not_ignored :
  stream_try sample_repr (lit "deepseek-v3") [] 0 initial_state
    (drop 5 (quoted details_only))
  = Ok ([ content_chunk (lit "deepseek-v3") [] 0 think_open;
          content_chunk (lit "deepseek-v3") [] 0 [] ],
        {| thinking := true; content_parts := [think_open; []];
           card_content := None |}).
Proof. vm_compute. reflexivity. Qed.

(** C8: on a 503 the error message and the stop mark travel in one chunk;
    no separate stop chunk follows a content chunk. *)
Lemma failure_is_one_chunk :
  map (fun c => (delta c, finish_reason c))
    (yielded (stream_response sample_repr (lit "deepseek-v3") [] 0
                {| status_code := 503; aiter_lines := [] |}))
  = [ ([(lit "role", lit "assistant")], None);
      ([(lit "content", lit "错误：无法获取响应，状态码: 503")],
       Some (lit "stop")) ].
Proof. vm_compute. reflexivity. Qed.

(** ** The decoder always has fuel enough *)

Lemma skip_ws_length (s : pystr) : (length (skip_ws s) <= length s)%nat.
Proof.
  induction s as [|c s IH]; simpl; [lia|].
  destruct (is_ws c); simpl; lia.
Qed.

Lemma hex4_length (s rest : pystr) (n : N) :
  hex4 s = Some (n, rest) -> length s = (4 + length rest)%nat.
Proof.
  unfold hex4. repeat case_match; try discriminate.
  intros [= <- <-]. reflexivity.
Qed.

Ltac use_hex4 :=
  repeat match goal with
         | H : hex4 _ = Some _ |- _ => apply hex4_length in H
         end.

Lemma scanstring_shorter (fuel : nat) (s acc v rest : pystr) :
  scanstring fuel s acc = Scanned v rest -> (length rest < length s)%nat.
Proof.
  revert s acc. induction fuel as [|fuel IH]; intros s acc; simpl;
    [discriminate|].
  destruct s as [|c s1]; [discriminate|].
  repeat case_match; try discriminate; subst; intros Hscan;
    first [ injection Hscan as <- <-; simpl; lia
          | apply IH in Hscan; use_hex4; simpl in *; lia ].
Qed.

Lemma scanstring_fuel (fuel : nat) (s acc : pystr) :
  (length s < fuel)%nat -> scanstring fuel s acc <> NoFuel.
Proof.
  revert s acc. induction fuel as [|fuel IH]; intros s acc Hfuel; simpl;
    [lia|].
  destruct s as [|c s1]; [discriminate|].
  repeat case_match; try discriminate; subst;
    apply IH; use_hex4; simpl in *; lia.
Qed.

Lemma span_digits_length (s ds rest : pystr) :
  span_digits s = (ds, rest) -> length s = (length ds + length rest)%nat.
Proof.
  revert ds rest. induction s as [|c s IH]; intros ds rest; simpl.
  - intros [= <- <-]. reflexivity.
  - destruct (is_digit c).
    + destruct (span_digits s) as [ds' rest'] eqn:E.
      intros [= <- <-]. simpl. rewrite (IH _ _ eq_refl). reflexivity.
    + intros [= <- <-]. reflexivity.
Qed.

Lemma match_number_shorter (s rest : pystr) (v : json) :
  match_number s = Some (v, rest) -> (length rest < length s)%nat.
Proof.
  unfold match_number.
  repeat case_match; try discriminate; subst; simplify_eq;
    repeat match goal with
           | H : span_digits _ = _ |- _ => apply span_digits_length in H
           end;
    intros [= <- <-]; simpl in *; lia.
Qed.

Ltac use_shorter :=
  repeat match goal with
         | H : scanstring _ _ _ = Scanned _ _ |- _ =>
           apply scanstring_shorter in H
         | H : match_number _ = Some _ |- _ => apply match_number_shorter in H
         | H : skip_ws ?s = _ :: _ |- _ =>
           let L := fresh "L" in
           pose proof (skip_ws_length s) as L; rewrite H in L; clear H
         end.

Lemma scan_shorter (fuel : nat) :
  (forall s v rest,
     scan_once fuel s = Scanned v rest -> (length rest < length s)%nat)
  /\ (forall s items v rest,
        parse_array fuel s items = Scanned v rest ->
        (length rest < length s)%nat)
  /\ (forall s fields v rest,
        parse_object fuel s fields = Scanned v rest ->
        (length rest < length s)%nat).
Proof.
  induction fuel as [|fuel (IHscan & IHarr & IHobj)];
    [repeat split; intros; discriminate|].
  repeat split.
  - intros s v rest. simpl. destruct s as [|c s']; [discriminate|].
    repeat case_match; try discriminate; subst; intros Hscan;
      first [ injection Hscan as <- <-
            | apply IHarr in Hscan | apply IHobj in Hscan ];
      use_shorter; rewrite ?length_drop; simpl in *; lia.
  - intros s items v rest. simpl.
    destruct (scan_once fuel s) as [v1 rest1| |] eqn:E; try discriminate.
    apply IHscan in E.
    repeat case_match; try discriminate; subst; intros Hscan;
      first [ injection Hscan as <- <- | apply IHarr in Hscan ];
      use_shorter;
      try match goal with
          | H : (_ < length (skip_ws ?t))%nat |- _ =>
            pose proof (skip_ws_length t)
          end;
      simpl in *; lia.
  - intros s fields v rest. simpl. destruct s as [|q s1]; [discriminate|].
    destruct (q =? _)%N; [|discriminate].
    destruct (scanstring _ s1 []) as [key rest0| |] eqn:Ekey;
      try discriminate.
    apply scanstring_shorter in Ekey.
    destruct (skip_ws rest0) as [|colon rest1] eqn:Ews; [discriminate|].
    pose proof (skip_ws_length rest0) as L0. rewrite Ews in L0. clear Ews.
    destruct (colon =? _)%N; [|discriminate].
    destruct (scan_once fuel (skip_ws rest1)) as [v1 rest2| |] eqn:Eval;
      try discriminate.
    apply IHscan in Eval. pose proof (skip_ws_length rest1) as L1.
    destruct (skip_ws rest2) as [|c rest3] eqn:Ews2; [discriminate|].
    pose proof (skip_ws_length rest2) as L2. rewrite Ews2 in L2. clear Ews2.
    repeat case_match; try discriminate; intros Hscan;
      first [ injection Hscan as <- <-
            | apply IHobj in Hscan; pose proof (skip_ws_length rest3) ];
      simpl in *; lia.
Qed.

Lemma scan_fuel (fuel : nat) :
  (forall s, (2 * length s < fuel)%nat -> scan_once fuel s <> NoFuel)
  /\ (forall s items,
        (2 * length s + 1 < fuel)%nat -> parse_array fuel s items <> NoFuel)
  /\ (forall s fields,
        (2 * length s + 1 < fuel)%nat -> parse_object fuel s fields <> NoFuel).
Proof.
  induction fuel as [|fuel (IHscan & IHarr & IHobj)];
    [repeat split; intros; lia|].
  repeat split.
  - intros s Hfuel. simpl. destruct s as [|c s']; [discriminate|].
    repeat case_match; try discriminate; subst;
      try match goal with
          | H : scanstring _ _ _ = NoFuel |- _ =>
            exfalso; revert H; apply scanstring_fuel; simpl; lia
          end;
      first [ apply IHarr | apply IHobj ];
      use_shorter; simpl in *; lia.
  - intros s items Hfuel. simpl.
    destruct (scan_once fuel s) as [v1 rest1| |] eqn:E; try discriminate.
    + apply (proj1 (scan_shorter fuel)) in E.
      repeat case_match; try discriminate; subst.
      apply IHarr. use_shorter.
      match goal with
      | |- context [skip_ws ?t] => pose proof (skip_ws_length t)
      end.
      simpl in *; lia.
    + exfalso. revert E. apply IHscan. lia.
  - intros s fields Hfuel. simpl. destruct s as [|q s1]; [discriminate|].
    destruct (q =? _)%N; [|discriminate].
    destruct (scanstring _ s1 []) as [key rest0| |] eqn:Ekey;
      try discriminate.
    2: { exfalso. revert Ekey. apply scanstring_fuel. simpl. lia. }
    apply scanstring_shorter in Ekey.
    destruct (skip_ws rest0) as [|colon rest1] eqn:Ews; [discriminate|].
    pose proof (skip_ws_length rest0) as L0. rewrite Ews in L0. clear Ews.
    destruct (colon =? _)%N; [|discriminate].
    pose proof (skip_ws_length rest1) as L1.
    destruct (scan_once fuel (skip_ws rest1)) as [v1 rest2| |] eqn:Eval;
      try discriminate.
    2: { exfalso. revert Eval. apply IHscan. simpl in *. lia. }
    apply (proj1 (scan_shorter fuel)) in Eval.
    destruct (skip_ws rest2) as [|c rest3] eqn:Ews2; [discriminate|].
    pose proof (skip_ws_length rest2) as L2. rewrite Ews2 in L2. clear Ews2.
    repeat case_match; try discriminate.
    apply IHobj. pose proof (skip_ws_length rest3). simpl in *. lia.
Qed.

(** [json_loads] never comes to the end of its fuel: a refusal is a decoding
    error of the input. *)
Lemma json_loads_fuel (s : pystr) :
  scan_once (2 * length s + 2) (skip_ws s) <> NoFuel.
Proof.
  apply (proj1 (scan_fuel _)). pose proof (skip_ws_length s). lia.
Qed.
(** * Further properties *)

(** ** Lines that are not events *)

Lemma stream_lines_skip (py_repr : json -> pystr) (request_model _id : pystr)
    (created : Z) (line : pystr) (after : list pystr) :
  (forall st,
      stream_line py_repr request_model _id created st line = Ok ([], st)) ->
  forall before st,
    stream_lines py_repr request_model _id created st (before ++ line :: after)
    = stream_lines py_repr request_model _id created st (before ++ after).
Proof.
  intros Hskip. induction before as [|l before IH]; intros st.
  - cbn [app stream_lines]. rewrite Hskip.
    destruct (stream_lines py_repr request_model _id created st after).
    reflexivity.
  - cbn [app stream_lines].
    destruct (stream_line py_repr request_model _id created st l)
      as [[chunks st']|e]; [rewrite IH|]; reflexivity.
Qed.

(** X1. A line that does not start with "data:", or whose text after that
    prefix [json.loads] rejects with [JSONDecodeError], is passed over: no
    chunk and no change of the variables, in the streaming loop and in the
    non-streaming one; and the response is the one the same answer gives
    without that line, wherever the line stands among the others. *)
Theorem malformed_line_skipped (py_repr : json -> pystr)
    (request_model _id : pystr) (created : Z) (line : pystr) :
  startswith (lit "data:") line = false
  \/ json_loads (drop 5 line) = Raise JSONDecodeError ->
  (forall st,
      stream_line py_repr request_model _id created st line = Ok ([], st)
      /\ chat_line py_repr request_model st line = Ok st)
  /\ (forall status before after,
        stream_response py_repr request_model _id created
          {| status_code := status; aiter_lines := before ++ line :: after |}
        = stream_response py_repr request_model _id created
            {| status_code := status; aiter_lines := before ++ after |}
        /\ chat_response py_repr request_model
             {| status_code := status; aiter_lines := before ++ line :: after |}
           = chat_response py_repr request_model
               {| status_code := status; aiter_lines := before ++ after |}).
Proof.
  intros H.
  assert (Hs : forall st,
             stream_line py_repr request_model _id created st line
             = Ok ([], st)).
  { intros st. unfold stream_line.
    destruct (startswith _ line) eqn:Hdata; [|reflexivity].
    destruct H as [H | He]; [discriminate|].
    unfold stream_try. rewrite He. reflexivity. }
  split.
  - intros st.
    rewrite (chat_line_stream_line py_repr request_model _id created).
    rewrite Hs. split; reflexivity.
  - intros status before after.
    pose proof (stream_lines_skip py_repr request_model _id created line after
                  Hs before initial_state) as Hlines.
    split.
    + unfold stream_response. cbn [status_code aiter_lines].
      rewrite Hlines. reflexivity.
    + unfold chat_response. cbn [status_code aiter_lines].
      rewrite !(chat_lines_stream_lines py_repr request_model _id created).
      rewrite Hlines. reflexivity.
Qed.

Lemma malformed_line_skipped_witness :
  (stream_line sample_repr (lit "deepseek-v3") [] 0 initial_state (lit "ping")
   = Ok ([], initial_state)
   /\ chat_line sample_repr (lit "deepseek-v3") initial_state (lit "ping")
      = Ok initial_state)
  /\ stream_response sample_repr (lit "deepseek-v3") [] 0
       {| status_code := 200;
          aiter_lines := [quoted thinking_a] ++ lit "data:{bad"
                           :: [quoted text_c] |}
     = stream_response sample_repr (lit "deepseek-v3") [] 0
         {| status_code := 200;
            aiter_lines := [quoted thinking_a] ++ [quoted text_c] |}.
Proof.
  split.
  - apply (malformed_line_skipped sample_repr (lit "deepseek-v3") [] 0
             (lit "ping")).
    left. vm_compute. reflexivity.
  - apply (malformed_line_skipped sample_repr (lit "deepseek-v3") [] 0
             (lit "data:{bad")).
    right. vm_compute. reflexivity.
Defined.

(** ** The think markers of a stream read to its end *)

Lemma alternate_plain (b : bool) (t : pystr) (rest : list pystr) :
  is_marker t = false ->
  markers_alternate b (t :: rest) = markers_alternate b rest.
Proof.
  unfold is_marker. intros H. apply orb_false_iff in H. destruct H as [H1 H2].
  cbn [markers_alternate]. rewrite H1, H2. reflexivity.
Qed.

Lemma alternate_open (rest : list pystr) :
  markers_alternate false (think_open :: rest) = markers_alternate true rest.
Proof. reflexivity. Qed.

Lemma alternate_close (rest : list pystr) :
  markers_alternate true (think_close :: rest) = markers_alternate false rest.
Proof. reflexivity. Qed.

(** What ends with a line break is no marker. *)
Lemma card_text_plain (parsed : pystr) : is_marker (parsed ++ NL ++ NL) = false.
Proof.
  unfold is_marker. apply orb_false_iff.
  split; apply str_eqb_neq; intros H; apply (f_equal last) in H;
    unfold NL in H; rewrite app_assoc, last_snoc in H; vm_compute in H;
    discriminate.
Qed.

(** Markers that alternate are equal in number, up to the interval open at
    the start. *)
Lemma alternate_counts (texts : list pystr) (b : bool) :
  markers_alternate b texts = true ->
  (count_marker think_open texts + (if b then 1 else 0)
   = count_marker think_close texts)%nat.
Proof.
  unfold count_marker. revert b.
  induction texts as [|t texts IH]; intros b; cbn [markers_alternate].
  - destruct b; [discriminate | reflexivity].
  - cbn [List.filter].
    destruct (str_eqb t think_open) eqn:Ho.
    + apply str_eqb_eq in Ho. subst t.
      change (str_eqb think_open think_close) with false. cbv iota.
      intros H. apply andb_true_iff in H. destruct H as [Hb H].
      destruct b; [discriminate|]. specialize (IH true H).
      cbn [length]. cbv iota in IH |- *. lia.
    + destruct (str_eqb t think_close) eqn:Hc.
      * intros H. apply andb_true_iff in H. destruct H as [Hb H].
        destruct b; [|discriminate]. specialize (IH false H).
        cbn [length]. cbv iota in IH |- *. lia.
      * intros H. exact (IH b H).
Qed.

Section Markers.

Variable py_repr : json -> pystr.
Variable request_model _id : pystr.
Variable created : Z.

Lemma omap_content_cons (text : pystr) (l : list chunk) :
  omap delta_content (content_chunk request_model _id created text :: l)
  = text :: omap delta_content l.
Proof. reflexivity. Qed.

(** The fragments of a list of content chunks written out. *)
Ltac fragments :=
  cbn [app]; rewrite ?omap_content_cons;
  change (omap delta_content (@nil chunk)) with (@nil pystr); cbn [app].

(** A line moves the reading of the markers from the thinking flag before it
    to the thinking flag after it, when its own text is no marker. *)
Lemma stream_line_alternates (st st' : seg_state) (line : pystr)
    (chunks : list chunk) :
  stream_line py_repr request_model _id created st line = Ok (chunks, st') ->
  plain_events [line] = true ->
  forall rest,
    markers_alternate (thinking st) (omap delta_content chunks ++ rest)
    = markers_alternate (thinking st') rest.
Proof.
  intros Hline Hplain rest. revert Hline.
  unfold plain_events in Hplain. cbn [forallb] in Hplain.
  rewrite andb_true_r in Hplain. unfold event_text in Hplain.
  unfold stream_line.
  destruct (startswith (lit "data:") line); [|intros [= <- <-]; reflexivity].
  destruct (json_loads (drop 5 line)) as [data|e] eqn:Hloads.
  2: { unfold stream_try. rewrite Hloads. cbn [bind].
       destruct e; intros [=]; subst; reflexivity. }
  destruct data as [| | | | | |fields];
    try (unfold stream_try; rewrite Hloads; cbn [bind py_get]; discriminate).
  destruct (truthy (content_of fields)) eqn:Ht.
  2: { rewrite (stream_try_falsy py_repr request_model _id created st _ fields
                  Hloads Ht).
       intros [= <- <-]. reflexivity. }
  destruct (content_of fields) as [| | | |c| |] eqn:Hc;
    try (unfold stream_try; rewrite Hloads; cbn [bind];
         rewrite py_get_content, Hc; cbn [bind]; rewrite Ht;
         cbv beta iota zeta; rewrite Ht; cbn [sub_details bind];
         discriminate).
  assert (Hne : c <> []) by (destruct c; [discriminate Ht | discriminate]).
  apply negb_true_iff in Hplain.
  rewrite (stream_try_content py_repr request_model _id created st _ fields c
             Hloads Hc Hne).
  destruct (eq_str (content_type_of fields) (lit "thinking")).
  { destruct (thinking st) eqn:Hth; intros [= <- <-];
      cbn [thinking append_part set_thinking].
    - fragments.
      rewrite Hth. apply alternate_plain, Hplain.
    - fragments.
      rewrite alternate_open. apply alternate_plain, Hplain. }
  destruct (eq_str (content_type_of fields) (lit "text")).
  { destruct (thinking st) eqn:Hth; intros [= <- <-];
      cbn [thinking append_part set_thinking].
    - fragments.
      rewrite alternate_close. apply alternate_plain, Hplain.
    - fragments.
      rewrite Hth. apply alternate_plain, Hplain. }
  destruct (eq_str (content_type_of fields) (lit "card"));
    [|intros [= <- <-]; reflexivity].
  destruct (parse_card_content py_repr (strip_details c)) as [parsed|e];
    cbn [bind].
  2: { destruct e; intros [=]; subst; reflexivity. }
  destruct (is_r1 request_model); intros [= <- <-];
    cbn [thinking append_part set_card_content]; [reflexivity|].
  fragments.
  apply alternate_plain, card_text_plain.
Qed.

Lemma stream_lines_alternate (lines : list pystr) (st st' : seg_state)
    (chunks : list chunk) :
  stream_lines py_repr request_model _id created st lines = (chunks, Ok st') ->
  plain_events lines = true ->
  forall rest,
    markers_alternate (thinking st) (omap delta_content chunks ++ rest)
    = markers_alternate (thinking st') rest.
Proof.
  revert st chunks. induction lines as [|line lines IH]; intros st chunks.
  - cbn [stream_lines]. intros [= <- <-] _ rest. reflexivity.
  - cbn [stream_lines].
    destruct (stream_line py_repr request_model _id created st line)
      as [[c1 st1]|e] eqn:E; [|discriminate].
    destruct (stream_lines py_repr request_model _id created st1 lines)
      as [more r] eqn:E'.
    intros [= <- ->] Hplain rest.
    unfold plain_events in Hplain. cbn [forallb] in Hplain.
    apply andb_true_iff in Hplain. destruct Hplain as [Hline Hlines].
    rewrite omap_app, <- app_assoc.
    rewrite (stream_line_alternates st st1 line c1 E).
    + apply (IH st1 more E' Hlines).
    + unfold plain_events. cbn [forallb]. rewrite Hline. reflexivity.
Qed.

(** Every chunk of the loop is a content chunk. *)
Lemma stream_lines_Forall (P : chunk -> Prop) (lines : list pystr)
    (st : seg_state) (chunks : list chunk) (r : result seg_state) :
  (forall text, P (content_chunk request_model _id created text)) ->
  stream_lines py_repr request_model _id created st lines = (chunks, r) ->
  Forall P chunks.
Proof.
  intros HP. revert st chunks.
  induction lines as [|line rest IH]; intros st chunks; cbn [stream_lines].
  - intros [= <- <-]. constructor.
  - destruct (stream_line py_repr request_model _id created st line)
      as [[c1 st1]|e] eqn:E.
    + destruct (stream_lines py_repr request_model _id created st1 rest)
        as [more r'] eqn:E'.
      intros [= <- <-]. apply Forall_app. split; [|eapply IH, E'].
      apply think_markers_at_transitions in E.
      destruct E as [[_ [-> | [c ->]]]
                    | [(_ & _ & c & ->) | (_ & _ & c & ->)]];
        repeat constructor; apply HP.
    + intros [= <- <-]. constructor.
Qed.

(** When no exception leaves the generator, what it yields between the role
    chunk and the stop chunk are content chunks, and when no event has a
    marker as its own text the markers among them alternate, from an opening
    one to a closing one: every think interval that was opened has been
    closed, and no two are open at once. *)
Lemma think_markers_balanced (response : upstream) (logged : option pystr) :
  status_code response = 200 ->
  outcome (stream_response py_repr request_model _id created response)
  = Ok logged ->
  exists body,
    yielded (stream_response py_repr request_model _id created response)
    = role_chunk request_model _id created
        :: body ++ [stop_chunk request_model _id created]
    /\ Forall (fun c => exists text,
                   c = content_chunk request_model _id created text) body
    /\ (plain_events (aiter_lines response) = true ->
        markers_alternate false (omap delta_content body) = true).
Proof.
  intros H200 Hout.
  destruct (stream_lines py_repr request_model _id created initial_state
              (aiter_lines response)) as [chunks r] eqn:Hloop.
  pose proof (outcome_of_loop py_repr request_model _id created response
                chunks r H200 Hloop) as Hr.
  destruct r as [st|e]; [|rewrite Hr in Hout; discriminate].
  rewrite (end_of_stream py_repr request_model _id created response chunks st
             H200 Hloop).
  set (closed := if thinking st
                 then [content_chunk request_model _id created think_close]
                 else []).
  set (flushed :=
         match (if is_r1 request_model then card_content st else None) with
         | Some card =>
           [content_chunk request_model _id created (card ++ NL ++ NL)]
         | None => []
         end).
  exists (chunks ++ closed ++ flushed). split; [|split].
  - rewrite <- !app_assoc. reflexivity.
  - repeat (apply Forall_app; split).
    + apply (stream_lines_Forall _ _ _ _ _ (fun text => ex_intro _ text eq_refl)
               Hloop).
    + subst closed. destruct (thinking st); repeat constructor.
      eexists. reflexivity.
    + subst flushed.
      destruct (if is_r1 request_model then card_content st else None);
        repeat constructor.
      eexists. reflexivity.
  - intros Hplain. rewrite omap_app.
    rewrite (stream_lines_alternate _ _ _ _ Hloop Hplain).
    assert (Hflush : markers_alternate false (omap delta_content flushed)
                     = true).
    { subst flushed.
      destruct (if is_r1 request_model then card_content st else None)
        as [card|]; [|reflexivity].
      fragments.
      rewrite alternate_plain by apply card_text_plain. reflexivity. }
    rewrite omap_app. subst closed. destruct (thinking st).
    + fragments.
      rewrite alternate_close. exact Hflush.
    + exact Hflush.
Qed.

End Markers.

(** X2. When the upstream answers 200 and no exception leaves the generator,
    what it yields is the role chunk, then chunks that each carry a content
    fragment and are not marked stop, then one stop chunk.  When moreover no
    event of the answer has a think marker as its own text, the markers among
    the fragments alternate, an opening one first and a closing one last, and
    are equal in number. *)
Theorem completed_stream_well_formed (py_repr : json -> pystr)
    (request_model _id : pystr) (created : Z) (response : upstream)
    (logged : option pystr) :
  status_code response = 200 ->
  outcome (stream_response py_repr request_model _id created response)
  = Ok logged ->
  exists body,
    yielded (stream_response py_repr request_model _id created response)
    = role_chunk request_model _id created
        :: body ++ [stop_chunk request_model _id created]
    /\ Forall (fun c => stop_marked c = false /\ is_Some (delta_content c)) body
    /\ (plain_events (aiter_lines response) = true ->
        markers_alternate false (omap delta_content body) = true
        /\ count_marker think_open (omap delta_content body)
           = count_marker think_close (omap delta_content body)).
Proof.
  intros H200 Hout.
  destruct (think_markers_balanced py_repr request_model _id created response
              logged H200 Hout) as (body & Hy & Hbody & Hmarkers).
  exists body. split; [exact Hy|]. split.
  - eapply Forall_impl; [exact Hbody|].
    intros c [text ->]. split; [reflexivity | eexists; reflexivity].
  - intros Hplain. specialize (Hmarkers Hplain). split; [exact Hmarkers|].
    pose proof (alternate_counts _ _ Hmarkers) as Hcount. cbv iota in Hcount.
    lia.
Qed.

Lemma completed_stream_well_formed_witness :
  exists body,
    yielded (stream_response sample_repr (lit "deepseek-r1") [] 0
               (ok_lines [thinking_a; card_no_rows; thinking_b; text_c]))
    = role_chunk (lit "deepseek-r1") [] 0
        :: body ++ [stop_chunk (lit "deepseek-r1") [] 0]
    /\ Forall (fun c => stop_marked c = false /\ is_Some (delta_content c)) body
    /\ markers_alternate false (omap delta_content body) = true
    /\ count_marker think_open (omap delta_content body)
       = count_marker think_close (omap delta_content body).
Proof.
  destruct (completed_stream_well_formed sample_repr (lit "deepseek-r1") [] 0
              (ok_lines [thinking_a; card_no_rows; thinking_b; text_c])
              (Some (think_open ++ lit "ab" ++ think_close ++ lit "c"
                       ++ unparseable ++ NL ++ NL)))
    as (body & Hy & Hbody & Hmarkers); [reflexivity | vm_compute; reflexivity|].
  exists body. split; [exact Hy|]. split; [exact Hbody|].
  apply Hmarkers. vm_compute. reflexivity.
Defined.

(** ** The envelope of the chunks *)

Lemma stream_line_envelope (py_repr : json -> pystr)
    (request_model _id : pystr) (created : Z) (st st' : seg_state)
    (line : pystr) (chunks : list chunk) :
  stream_line py_repr request_model _id created st line = Ok (chunks, st') ->
  Forall (same_envelope request_model _id created) chunks.
Proof.
  intros H. apply think_markers_at_transitions in H.
  destruct H as [[_ [-> | [c ->]]] | [(_ & _ & c & ->) | (_ & _ & c & ->)]];
    repeat constructor.
Qed.

Lemma stream_lines_envelope (py_repr : json -> pystr)
    (request_model _id : pystr) (created : Z) (lines : list pystr)
    (st : seg_state) (chunks : list chunk) (r : result seg_state) :
  stream_lines py_repr request_model _id created st lines = (chunks, r) ->
  Forall (same_envelope request_model _id created) chunks.
Proof.
  revert st chunks. induction lines as [|line rest IH]; intros st chunks; simpl.
  - intros [= <- <-]. constructor.
  - destruct (stream_line py_repr request_model _id created st line)
      as [[c1 st1]|e] eqn:E.
    + destruct (stream_lines py_repr request_model _id created st1 rest)
        as [more r'] eqn:E'.
      intros [= <- <-]. apply Forall_app. split.
      * eapply stream_line_envelope, E.
      * eapply IH, E'.
    + intros [= <- <-]. constructor.
Qed.

(** X3. Whatever the upstream answers and however the generator ends, every
    chunk it yields carries the identifier, the creation time and the model
    of the response it belongs to. *)
Theorem chunks_share_envelope (py_repr : json -> pystr)
    (request_model _id : pystr) (created : Z) (response : upstream) :
  Forall (same_envelope request_model _id created)
    (yielded (stream_response py_repr request_model _id created response)).
Proof.
  unfold stream_response.
  destruct (negb (status_code response =? 200)).
  { repeat constructor. }
  destruct (stream_lines py_repr request_model _id created initial_state
              (aiter_lines response)) as [chunks r] eqn:Hloop.
  pose proof (stream_lines_envelope _ _ _ _ _ _ _ _ Hloop) as Hchunks.
  destruct r as [st|e]; cbn [yielded].
  - destruct (thinking st); cbv beta iota zeta;
      destruct (if is_r1 request_model then card_pending _ else None);
      cbn [yielded]; (constructor; [repeat constructor|]);
      repeat (apply Forall_app; split); try exact Hchunks;
      repeat constructor.
  - constructor; [repeat constructor | exact Hchunks].
Qed.

(** ** Text without a details span *)

Lemma find_none (pat s : pystr) :
  find pat s = None -> forall i, startswith pat (drop i s) = false.
Proof.
  induction s as [|c s IH]; simpl.
  - destruct (startswith pat []) eqn:E; [discriminate|].
    intros _ i. rewrite drop_nil. exact E.
  - destruct (startswith pat (c :: s)) eqn:E; [discriminate|].
    destruct (find pat s); [discriminate|]. intros _ [|i]; [exact E|].
    apply IH. reflexivity.
Qed.

(** X4. A text or thinking event whose content has no "<details>" in it is
    passed on exactly as it came: the content fragment of the chunk, and the
    part appended in the non-streaming mode, is the content of the event. *)
Theorem content_without_details_unchanged (py_repr : json -> pystr)
    (request_model _id : pystr) (created : Z) (st : seg_state)
    (json_str : pystr) (fields : list (pystr * json)) (c : pystr) :
  json_loads json_str = Ok (JObj fields) ->
  content_of fields = JStr c ->
  c <> [] ->
  find details_open c = None ->
  content_type_of fields = JStr (lit "text")
  \/ content_type_of fields = JStr (lit "thinking") ->
  exists marker st',
    stream_try py_repr request_model _id created st json_str
    = Ok (marker ++ [content_chunk request_model _id created c], st')
    /\ chat_try py_repr request_model st json_str = Ok st'
    /\ last (content_parts st') = Some c.
Proof.
  intros Hloads Hcontent Hne Hfind Htype.
  assert (Hstrip : strip_details c = c).
  { apply re_sub_span_no_match. intros i. unfold match_len.
    rewrite (find_none _ _ Hfind i). reflexivity. }
  rewrite chat_try_stream_try with (_id := _id) (created := created).
  rewrite (stream_try_content py_repr request_model _id created st json_str
             fields c Hloads Hcontent Hne), Hstrip.
  destruct Htype as [-> | ->].
  - change (eq_str (JStr (lit "text")) (lit "thinking")) with false.
    change (eq_str (JStr (lit "text")) (lit "text")) with true. cbv iota.
    do 2 eexists. split; [reflexivity|]. split; [reflexivity|].
    simpl. apply last_snoc.
  - change (eq_str (JStr (lit "thinking")) (lit "thinking")) with true.
    cbv iota.
    do 2 eexists. split; [reflexivity|]. split; [reflexivity|].
    simpl. apply last_snoc.
Qed.

Lemma content_without_details_unchanged_witness :
  exists marker st',
    stream_try sample_repr (lit "deepseek-v3") [] 0 initial_state
      (drop 5 (quoted text_hello))
    = Ok (marker ++ [content_chunk (lit "deepseek-v3") [] 0 (lit "hello")], st')
    /\ chat_try sample_repr (lit "deepseek-v3") initial_state
         (drop 5 (quoted text_hello))
       = Ok st'
    /\ last (content_parts st') = Some (lit "hello").
Proof.
  apply (content_without_details_unchanged sample_repr (lit "deepseek-v3") [] 0
           initial_state (drop 5 (quoted text_hello))
           (fields_of "hello" "text") (lit "hello"));
    solve [vm_compute; reflexivity | discriminate | left; reflexivity].
Defined.
(** ** The card renderer *)

(** X5. The card renderer never returns the empty text and never lets a
    [JSONDecodeError] out.  A payload that [json.loads] rejects with that
    error is rendered as the fallback text, and a payload that decodes to an
    object whose "cardType" is not "DB-CARD-2" (or is missing) as the text for
    an unsupported card. *)
Theorem parse_card_content_outcomes (py_repr : json -> pystr) (s : pystr) :
  (forall rendered,
      parse_card_content py_repr s = Ok rendered -> rendered <> [])
  /\ parse_card_content py_repr s <> Raise JSONDecodeError
  /\ (json_loads s = Raise JSONDecodeError ->
      parse_card_content py_repr s = Ok unparseable)
  /\ (forall card,
        json_loads s = Ok (JObj card) ->
        field_or card (lit "cardType") JNull <> JStr (lit "DB-CARD-2") ->
        parse_card_content py_repr s = Ok unsupported).
Proof.
  split; [|split; [|split]].
  - intros rendered. apply parse_card_content_nonempty.
  - unfold parse_card_content.
    destruct (parse_card_try py_repr s) as [r|[]]; discriminate.
  - intros Hloads. unfold parse_card_content, parse_card_try.
    rewrite Hloads. reflexivity.
  - intros card Hloads Htype. unfold parse_card_content, parse_card_try, get_is.
    rewrite Hloads. cbn [bind py_get].
    fold (field_or card (lit "cardType") JNull).
    destruct (eq_str (field_or card (lit "cardType") JNull) (lit "DB-CARD-2"))
      eqn:E; [|reflexivity].
    apply eq_str_true in E. contradiction.
Qed.

Lemma parse_card_content_outcomes_witness :
  parse_card_content sample_repr (lit "no json") = Ok unparseable
  /\ parse_card_content sample_repr (quoted "{'cardType':'DB-CARD-1'}")
     = Ok unsupported.
Proof.
  split.
  - apply (proj1 (proj2 (proj2
             (parse_card_content_outcomes sample_repr (lit "no json"))))).
    vm_compute. reflexivity.
  - apply (proj2 (proj2 (proj2
             (parse_card_content_outcomes sample_repr
                (quoted "{'cardType':'DB-CARD-1'}"))))
             [(lit "cardType", JStr (lit "DB-CARD-1"))]).
    + vm_compute. reflexivity.
    + vm_compute. discriminate.
Defined.

Lemma for_sources_objects (py_repr : json -> pystr) (sources : list json)
    (records : list (list (pystr * json))) (acc : list pystr) :
  mapM as_object sources = Some records ->
  for_sources py_repr sources acc = Ok (acc ++ map (row_text py_repr) records).
Proof.
  revert records acc. induction sources as [|source rest IH];
    intros records acc; simpl.
  - intros [= <-]. simpl. rewrite app_nil_r. reflexivity.
  - destruct source as [| | | | | |fields]; simpl; try discriminate.
    destruct (mapM as_object rest) as [records'|] eqn:E; simpl;
      [|discriminate].
    intros [= <-]. unfold card_row. cbn [py_get bind].
    rewrite (IH records' _ eq_refl). simpl. rewrite <- app_assoc. reflexivity.
Qed.

Lemma for_items_well_formed (py_repr : json -> pystr) (items : list json)
    (sources : list (list (list (pystr * json)))) (acc : list pystr) :
  mapM item_sources items = Some sources ->
  for_items py_repr items acc
  = Ok (acc ++ map (row_text py_repr) (concat sources)).
Proof.
  revert sources acc. induction items as [|item rest IH];
    intros sources acc; simpl.
  - intros [= <-]. simpl. rewrite app_nil_r. reflexivity.
  - destruct (item_sources item) as [records|] eqn:Eitem; simpl;
      [|discriminate].
    destruct (mapM item_sources rest) as [sources'|] eqn:E; simpl;
      [|discriminate].
    intros [= <-]. revert Eitem. unfold item_sources.
    destruct item as [| | | | | |fields]; try discriminate.
    unfold get_is. cbn [py_get bind]. unfold field_or.
    destruct (eq_str _ _).
    + destruct (match dict_lookup (lit "content") fields with
                | Some v => v | None => JStr (lit "[]") end)
        as [| | | |raw| |]; try discriminate.
      cbn [json_loads_value]. destruct (json_loads raw) as [[| | | | |l|]|];
        try discriminate.
      intros Hl. cbn [bind py_iter].
      rewrite (for_sources_objects py_repr l records acc Hl). cbn [bind].
      rewrite (IH sources' _ eq_refl). simpl concat.
      rewrite map_app, app_assoc. reflexivity.
    + intros [= <-]. rewrite (IH sources' _ eq_refl). reflexivity.
Qed.

(** X6. A well-formed search-sources card is rendered as a table with one row
    for each source, in the order of the items and of the sources within an
    item; an item of another type gives no row, a field that a source lacks
    is left blank, and a card with no source at all gives the fallback
    text. *)
Theorem card_table_rows (py_repr : json -> pystr) (content0 : pystr)
    (card info : list (pystr * json)) (items : list json)
    (sources : list (list (list (pystr * json)))) :
  json_loads content0 = Ok (JObj card) ->
  field_or card (lit "cardType") JNull = JStr (lit "DB-CARD-2") ->
  field_or card (lit "cardInfo") (JObj []) = JObj info ->
  field_or info (lit "cardItems") (JArr []) = JArr items ->
  mapM item_sources items = Some sources ->
  parse_card_content py_repr content0
  = Ok (render_rows (map (row_text py_repr) (concat sources))).
Proof.
  intros Hloads Htype Hinfo Hitems Hsources.
  unfold parse_card_content, parse_card_try, get_is.
  rewrite Hloads. cbn [bind py_get]. unfold field_or in *.
  rewrite Htype. change (eq_str (JStr (lit "DB-CARD-2")) (lit "DB-CARD-2")) with true.
  cbv iota. rewrite Hinfo. cbn [bind py_get]. rewrite Hitems.
  cbn [bind py_iter].
  rewrite (for_items_well_formed py_repr items sources [] Hsources).
  cbn [bind app]. unfold render_rows.
  destruct (map _ _); reflexivity.
Qed.

Lemma card_table_rows_witness :
  parse_card_content sample_repr (quoted card_two_sources)
  = Ok (table_header ++ NL ++ lit "| 1 | [n](u) | s |" ++ NL
          ++ lit "| 2 | []() |  |").
Proof.
  eapply eq_trans.
  - eapply (card_table_rows sample_repr (quoted card_two_sources));
      vm_compute; reflexivity.
  - vm_compute. reflexivity.
Defined.

(** ** The authorization check *)

(** X7. The check ends in one of two ways only, [True] or an HTTP 401.  A
    header that does not start with "Bearer " is accepted exactly when it is
    the key; a header made of "Bearer " and a rest in which "Bearer " does
    not occur is accepted exactly when the rest is the key. *)
Theorem check_authorization_outcomes (API_KEY : pystr)
    (authorization : option pystr) :
  (check_authorization API_KEY authorization = Ok true
   \/ exists detail,
        check_authorization API_KEY authorization
        = Raise (HTTPException 401 detail))
  /\ (forall header,
        authorization = Some header ->
        startswith (lit "Bearer ") header = false ->
        (check_authorization API_KEY authorization = Ok true
         <-> header = API_KEY /\ header <> []))
  /\ (forall rest,
        authorization = Some (lit "Bearer " ++ rest) ->
        (forall i, startswith (lit "Bearer ") (drop i rest) = false) ->
        (check_authorization API_KEY authorization = Ok true
         <-> rest = API_KEY)).
Proof.
  assert (Hbearer : forall rest,
            (forall i, startswith (lit "Bearer ") (drop i rest) = false) ->
            check_authorization API_KEY (Some (lit "Bearer " ++ rest))
            = if negb (str_eqb rest API_KEY)
              then Raise (HTTPException 401 (lit "无效的 API 密钥"))
              else Ok true).
  { intros rest Hfree. unfold check_authorization.
    change (lit "Bearer " ++ rest)
      with (66%N :: (drop 1 (lit "Bearer ") ++ rest)).
    cbv iota.
    change (66%N :: (drop 1 (lit "Bearer ") ++ rest))
      with (lit "Bearer " ++ rest).
    rewrite startswith_app.
    assert (str_replace (lit "Bearer ") [] (lit "Bearer " ++ rest) = rest)
      as ->; [|reflexivity].
    unfold str_replace.
    change (lit "Bearer " ++ rest)
      with (66%N :: (drop 1 (lit "Bearer ") ++ rest)).
    cbn [replace_from].
    change (66%N :: (drop 1 (lit "Bearer ") ++ rest))
      with (lit "Bearer " ++ rest).
    rewrite startswith_app. simpl.
    apply (replace_no_occurrence (lit "Bearer ") [] rest Hfree). }
  split; [|split].
  - unfold check_authorization.
    destruct authorization as [[|c a]|]; eauto.
    destruct (negb _); eauto.
  - intros header -> Hplain. unfold check_authorization.
    destruct header as [|c a].
    { split; [discriminate | intros [_ Hne]; congruence]. }
    rewrite Hplain.
    destruct (str_eqb (c :: a) API_KEY) eqn:E; simpl.
    + apply str_eqb_eq in E. split; [intros _; split; [exact E | discriminate]
                                    | reflexivity].
    + apply str_eqb_neq in E. split; [discriminate | intros [Heq _]; congruence].
  - intros rest -> Hfree. rewrite (Hbearer rest Hfree).
    destruct (str_eqb rest API_KEY) eqn:E; simpl.
    + apply str_eqb_eq in E. split; [intros _; exact E | reflexivity].
    + apply str_eqb_neq in E. split; [discriminate | congruence].
Qed.

Lemma check_authorization_outcomes_witness :
  (check_authorization (lit "sk-1") (Some (lit "sk-1")) = Ok true
   <-> lit "sk-1" = lit "sk-1" /\ lit "sk-1" <> [])
  /\ (check_authorization (lit "sk-1") (Some (lit "Bearer " ++ lit "sk-2"))
      = Ok true
      <-> lit "sk-2" = lit "sk-1").
Proof.
  destruct (check_authorization_outcomes (lit "sk-1") (Some (lit "sk-1")))
    as (_ & H1 & _).
  destruct (check_authorization_outcomes (lit "sk-1")
              (Some (lit "Bearer " ++ lit "sk-2"))) as (_ & _ & H2).
  split.
  - apply H1; reflexivity.
  - apply H2; [reflexivity|].
    intros i. do 4 (destruct i as [|i]; [reflexivity|]).
    destruct i; reflexivity.
Defined.

(** ** More on the context truncator *)

Lemma filter_filter_same {A} (f : A -> bool) (l : list A) :
  List.filter f (List.filter f l) = List.filter f l.
Proof.
  induction l as [|x l IH]; simpl; [reflexivity|].
  destruct (f x) eqn:E; simpl; rewrite ?E, IH; reflexivity.
Qed.

Lemma filter_split_perm {A} (f : A -> bool) (l : list A) :
  List.filter (fun x => negb (f x)) l ++ List.filter f l ≡ₚ l.
Proof.
  induction l as [|x l IH]; simpl; [reflexivity|].
  destruct (f x); simpl.
  - rewrite <- Permutation_middle, IH. reflexivity.
  - rewrite IH. reflexivity.
Qed.

(** What the truncator returns over the budget, from the loop it runs. *)
Lemma truncate_over_budget (messages : list Message) (max_chars : Z) :
  max_chars < total_chars messages ->
  exists kept dropped,
    List.filter is_ua messages = dropped ++ kept
    /\ truncate_messages messages max_chars
       = List.filter (fun msg => negb (is_ua msg)) messages ++ kept
    /\ (kept = []
        \/ total_chars (List.filter (fun msg => negb (is_ua msg)) messages)
           + total_chars kept <= max_chars).
Proof.
  intros H. unfold truncate_messages. apply Z.leb_gt in H. rewrite H.
  set (others := List.filter (fun msg => negb (is_ua msg)) messages).
  destruct (Z.leb_spec (max_chars - total_chars others) 0) as [Hfull|Hroom].
  - exists [], (List.filter is_ua messages).
    rewrite !app_nil_r. auto.
  - destruct (keep_recent_spec (max_chars - total_chars others)
                (reverse (List.filter is_ua messages)) [] 0)
      as (kept & dropped & Hsplit & -> & Hsum).
    rewrite app_nil_r. exists (reverse kept), (reverse dropped).
    repeat split.
    + rewrite <- reverse_app, <- Hsplit, reverse_involutive. reflexivity.
    + right. rewrite total_chars_reverse. lia.
Qed.

(** X8. Truncating twice is truncating once: what the truncator returns is
    returned unchanged when it is given back to it with the same budget. *)
Theorem truncate_messages_idempotent (messages : list Message) (max_chars : Z) :
  truncate_messages (truncate_messages messages max_chars) max_chars
  = truncate_messages messages max_chars.
Proof.
  destruct (Z.le_gt_cases (total_chars messages) max_chars) as [Hle|Hgt].
  { unfold truncate_messages at 2. apply Z.leb_le in Hle. rewrite Hle.
    unfold truncate_messages. rewrite Hle. reflexivity. }
  destruct (truncate_over_budget messages max_chars Hgt)
    as (kept & dropped & _ & -> & [-> | Hfit]).
  - rewrite app_nil_r.
    set (others := List.filter (fun msg => negb (is_ua msg)) messages).
    unfold truncate_messages.
    destruct (total_chars others <=? max_chars) eqn:E; [reflexivity|].
    assert (Hsame : List.filter (fun msg => negb (is_ua msg)) others = others)
      by apply filter_filter_same.
    rewrite Hsame.
    destruct (Z.leb_spec (max_chars - total_chars others) 0); [reflexivity|].
    apply Z.leb_gt in E. lia.
  - unfold truncate_messages at 1. rewrite total_chars_app.
    apply Z.leb_le in Hfit. rewrite Hfit. reflexivity.
Qed.

(** X9. The truncator only drops: what it returns is, up to the order, a part
    of what it was given, with no message added, changed or repeated. *)
Theorem truncate_messages_only_drops (messages : list Message) (max_chars : Z) :
  truncate_messages messages max_chars ⊆+ messages.
Proof.
  destruct (Z.le_gt_cases (total_chars messages) max_chars) as [Hle|Hgt].
  { unfold truncate_messages. apply Z.leb_le in Hle. rewrite Hle.
    reflexivity. }
  destruct (truncate_over_budget messages max_chars Hgt)
    as (kept & dropped & Hua & -> & _).
  rewrite <- (filter_split_perm is_ua messages) at 2.
  apply submseteq_skips_l, sublist_submseteq. rewrite Hua.
  apply sublist_inserts_l. reflexivity.
Qed.

(** X10. Over the budget, with room left after the preserved messages, the
    newest user or assistant message decides: if it fits in that room it is
    kept, as the last message of the result; if it does not, no user or
    assistant message is kept at all, however short the older ones are. *)
Theorem newest_turn_decides (messages : list Message) (max_chars : Z)
    (older : list Message) (newest : Message) :
  max_chars < total_chars messages ->
  List.filter is_ua messages = older ++ [newest] ->
  0 < max_chars
      - total_chars (List.filter (fun msg => negb (is_ua msg)) messages) ->
  (len (content newest)
   <= max_chars
      - total_chars (List.filter (fun msg => negb (is_ua msg)) messages) ->
   last (truncate_messages messages max_chars) = Some newest)
  /\ (max_chars
      - total_chars (List.filter (fun msg => negb (is_ua msg)) messages)
      < len (content newest) ->
      truncate_messages messages max_chars
      = List.filter (fun msg => negb (is_ua msg)) messages).
Proof.
  intros Hover Hua Hroom. unfold truncate_messages.
  apply Z.leb_gt in Hover. rewrite Hover.
  set (others := List.filter (fun msg => negb (is_ua msg)) messages) in *.
  apply Z.leb_gt in Hroom. rewrite Hroom.
  rewrite Hua, reverse_app. simpl. split.
  - intros Hfit. apply Z.leb_le in Hfit.
    change (0 + len (content newest)) with (len (content newest)).
    rewrite Hfit.
    destruct (keep_recent_spec (max_chars - total_chars others)
                (reverse older) [newest] (len (content newest)))
      as (kept & dropped & _ & -> & _).
    rewrite !app_assoc. apply last_snoc.
  - intros Hbig. apply Z.leb_gt in Hbig.
    change (0 + len (content newest)) with (len (content newest)).
    rewrite Hbig. apply app_nil_r.
Qed.

Lemma newest_turn_decides_witness :
  last (truncate_messages truncate_demo 8)
  = Some {| role := user; content := lit "cc" |}
  /\ truncate_messages
       [ {| role := user; content := lit "a" |};
         {| role := system; content := lit "ss" |};
         {| role := assistant; content := lit "bbbb" |} ] 5
     = [ {| role := system; content := lit "ss" |} ].
Proof.
  split.
  - apply (proj1 (newest_turn_decides truncate_demo 8
                    [ {| role := user; content := lit "aaaa" |};
                      {| role := assistant; content := lit "bbb" |} ]
                    {| role := user; content := lit "cc" |}
                    ltac:(vm_compute; reflexivity)
                    ltac:(vm_compute; reflexivity)
                    ltac:(vm_compute; reflexivity))).
    vm_compute. discriminate.
  - apply (proj2 (newest_turn_decides
                    [ {| role := user; content := lit "a" |};
                      {| role := system; content := lit "ss" |};
                      {| role := assistant; content := lit "bbbb" |} ] 5
                    [ {| role := user; content := lit "a" |} ]
                    {| role := assistant; content := lit "bbbb" |}
                    ltac:(vm_compute; reflexivity)
                    ltac:(vm_compute; reflexivity)
                    ltac:(vm_compute; reflexivity))).
    vm_compute. reflexivity.
Defined.

(** ** The map of user agents *)

Lemma get_user_agent_keeps (RANDOM_UA : bool) (ua_random device_id d u : pystr)
    (m : gmap pystr pystr) :
  m !! d = Some u ->
  snd (get_user_agent RANDOM_UA ua_random device_id m) !! d = Some u.
Proof.
  intros Hd. unfold get_user_agent.
  destruct (negb RANDOM_UA); [exact Hd|].
  destruct (m !! device_id) eqn:E; simpl; [exact Hd|].
  rewrite lookup_insert_ne; [exact Hd|]. intros ->. congruence.
Qed.

Lemma user_agent_calls_keep (RANDOM_UA : bool) (calls : list (pystr * pystr))
    (d u : pystr) (m : gmap pystr pystr) :
  m !! d = Some u -> user_agent_calls RANDOM_UA calls m !! d = Some u.
Proof.
  revert m. induction calls as [|[device_id ua_random] rest IH]; intros m Hd;
    simpl; [exact Hd|].
  apply IH, get_user_agent_keeps, Hd.
Qed.

Lemma user_agent_calls_off (calls : list (pystr * pystr))
    (m : gmap pystr pystr) :
  user_agent_calls false calls m = m.
Proof.
  revert m. induction calls as [|[device_id ua_random] rest IH]; intros m;
    [reflexivity|].
  cbn [user_agent_calls]. unfold get_user_agent.
  change (negb false) with true. cbv iota. cbn [snd]. apply IH.
Qed.

(** X11. A device keeps its user agent: what the first call for a device
    returns is returned by every later call for it, whatever calls for other
    devices come between and whatever the random source would give, and no
    call changes the entry of another device.  With [RANDOM_UA] off every call
    returns the default user agent and the map is never written; with it on,
    a device that has an entry gets that entry and the map stays as it is,
    and a new device gets the value of [ua.random] at that call, which is
    stored for it. *)
Theorem user_agent_sticks (RANDOM_UA : bool) (ua_first ua_later : pystr)
    (device_id : pystr) (calls : list (pystr * pystr))
    (m : gmap pystr pystr) :
  fst (get_user_agent RANDOM_UA ua_later device_id
         (user_agent_calls RANDOM_UA calls
            (snd (get_user_agent RANDOM_UA ua_first device_id m))))
  = fst (get_user_agent RANDOM_UA ua_first device_id m)
  /\ (forall d u,
        m !! d = Some u ->
        user_agent_calls RANDOM_UA calls
          (snd (get_user_agent RANDOM_UA ua_first device_id m)) !! d
        = Some u)
  /\ (RANDOM_UA = false ->
      get_user_agent RANDOM_UA ua_first device_id m = (default_user_agent, m)
      /\ user_agent_calls RANDOM_UA ((device_id, ua_first) :: calls) m = m)
  /\ (RANDOM_UA = true ->
      get_user_agent RANDOM_UA ua_first device_id m
      = match m !! device_id with
        | Some user_agent => (user_agent, m)
        | None => (ua_first, <[device_id := ua_first]> m)
        end).
Proof.
  split; [|split; [|split]].
  - destruct RANDOM_UA;
      [|unfold get_user_agent; change (negb false) with true; cbv iota;
        cbn [fst]; reflexivity].
    assert (Hfirst :
      snd (get_user_agent true ua_first device_id m) !! device_id
      = Some (fst (get_user_agent true ua_first device_id m))).
    { unfold get_user_agent. simpl.
      destruct (m !! device_id) eqn:E; simpl; [exact E|].
      apply lookup_insert_eq. }
    pose proof (user_agent_calls_keep true calls _ _ _ Hfirst) as Hlater.
    unfold get_user_agent at 1. simpl. rewrite Hlater. reflexivity.
  - intros d u Hd. apply user_agent_calls_keep, get_user_agent_keeps, Hd.
  - intros ->. split; [|apply user_agent_calls_off].
    unfold get_user_agent. change (negb false) with true. cbv iota.
    reflexivity.
  - intros ->. unfold get_user_agent. change (negb true) with false.
    cbv iota. destruct (m !! device_id); reflexivity.
Qed.

Lemma user_agent_sticks_witness :
  (fst (get_user_agent true (lit "ua-3") (lit "dev-1")
          (user_agent_calls true [(lit "dev-2", lit "ua-2")]
             (snd (get_user_agent true (lit "ua-1") (lit "dev-1")
                     ({[ lit "dev-0" := lit "ua-0" ]})))))
   = lit "ua-1"
   /\ user_agent_calls true [(lit "dev-2", lit "ua-2")]
        (snd (get_user_agent true (lit "ua-1") (lit "dev-1")
                ({[ lit "dev-0" := lit "ua-0" ]}))) !! lit "dev-0"
      = Some (lit "ua-0"))
  /\ (get_user_agent false (lit "ua-1") (lit "dev-1")
        ({[ lit "dev-0" := lit "ua-0" ]})
      = (default_user_agent, {[ lit "dev-0" := lit "ua-0" ]})
      /\ user_agent_calls false
           [(lit "dev-1", lit "ua-1"); (lit "dev-2", lit "ua-2")]
           ({[ lit "dev-0" := lit "ua-0" ]})
         = {[ lit "dev-0" := lit "ua-0" ]}).
Proof.
  split.
  - destruct (user_agent_sticks true (lit "ua-1") (lit "ua-3") (lit "dev-1")
                [(lit "dev-2", lit "ua-2")] ({[ lit "dev-0" := lit "ua-0" ]}))
      as (H1 & H2 & _ & H4).
    split.
    + rewrite H1, (H4 eq_refl). vm_compute. reflexivity.
    + apply H2. vm_compute. reflexivity.
  - destruct (user_agent_sticks false (lit "ua-1") (lit "ua-3") (lit "dev-1")
                [(lit "dev-2", lit "ua-2")] ({[ lit "dev-0" := lit "ua-0" ]}))
      as (_ & _ & H3 & _).
    exact (H3 eq_refl).
Defined.

(** ** Identifiers *)

Lemma url_alphabet_safe (i : nat) :
  (i < 64)%nat -> url_safe (choice url_alphabet i) = true.
Proof.
  intros Hi.
  assert (Hall : forallb (fun k => url_safe (choice url_alphabet k)) (seq 0 64)
                 = true) by (vm_compute; reflexivity).
  rewrite forallb_forall in Hall. apply Hall, in_seq. lia.
Qed.

(** X12. An identifier drawn by [nanoid] has the length asked for (none for
    a size that is not positive) and is made of letters, digits, [-] and [_]
    only.  A device identifier is 53 characters long when the UUID has its 32
    hexadecimal digits, is URL-safe, and its first underscore is the one
    that ends the UUID, even though the drawn part may have underscores. *)
Theorem identifiers_shape (draw : nat -> nat) (size : Z) (uuid_hex : pystr) :
  (forall k, (draw k < 64)%nat) ->
  (length (nanoid draw size) = Z.to_nat size
   /\ forallb url_safe (nanoid draw size) = true)
  /\ (length uuid_hex = 32%nat ->
      forallb hex_lower uuid_hex = true ->
      length (generate_device_id uuid_hex draw) = 53%nat
      /\ forallb url_safe (generate_device_id uuid_hex draw) = true
      /\ find (lit "_") (generate_device_id uuid_hex draw) = Some 32%nat).
Proof.
  intros Hdraw.
  assert (Hnano : forall n,
            length (nanoid draw n) = Z.to_nat n
            /\ forallb url_safe (nanoid draw n) = true).
  { intros n. unfold nanoid. split.
    - rewrite length_map, length_seq. reflexivity.
    - apply forallb_forall. intros c Hc. apply in_map_iff in Hc.
      destruct Hc as (k & <- & _). apply url_alphabet_safe, Hdraw. }
  split; [apply Hnano|]. intros Hlen Hhex.
  destruct (Hnano 20) as [Hl Hs]. unfold generate_device_id. repeat split.
  - rewrite !length_app, Hl, Hlen. reflexivity.
  - rewrite !forallb_app, Hs.
    change (forallb url_safe (lit "_")) with true. rewrite !andb_true_r.
    apply forallb_forall. intros c Hc.
    rewrite forallb_forall in Hhex. specialize (Hhex c Hc).
    unfold hex_lower in Hhex. unfold url_safe.
    rewrite !orb_true_iff, !andb_true_iff, !N.leb_le in Hhex.
    rewrite !orb_true_iff, !andb_true_iff, !N.leb_le, !N.eqb_eq. lia.
  - rewrite <- Hlen. apply find_first. intros i Hi.
    rewrite drop_app_le by lia.
    destruct (drop i uuid_hex) as [|c rest] eqn:Edrop.
    { apply (f_equal length) in Edrop. rewrite length_drop in Edrop.
      simpl in Edrop. lia. }
    assert (Hc : In c uuid_hex).
    { rewrite <- (take_drop i uuid_hex). apply in_or_app. right.
      rewrite Edrop. left. reflexivity. }
    rewrite forallb_forall in Hhex. specialize (Hhex c Hc).
    change (lit "_") with [95%N]. cbn [app startswith].
    destruct (95 =? c)%N eqn:E; [|reflexivity].
    apply N.eqb_eq in E. subst c. discriminate Hhex.
Qed.

Lemma identifiers_shape_witness :
  (length (nanoid (fun k => (k mod 64)%nat) 21) = 21%nat
   /\ forallb url_safe (nanoid (fun k => (k mod 64)%nat) 21) = true)
  /\ find (lit "_")
       (generate_device_id (lit "0123456789abcdef0123456789abcdef")
          (fun k => (k mod 64)%nat))
     = Some 32%nat.
Proof.
  destruct (identifiers_shape (fun k => (k mod 64)%nat) 21
              (lit "0123456789abcdef0123456789abcdef")) as [H1 H2].
  - intros k. apply Nat.mod_upper_bound. discriminate.
  - split; [exact H1|]. apply H2; vm_compute; reflexivity.
Defined.

(** ** The catalog *)

Lemma supported_cases (P : pystr -> Prop) (m : pystr) :
  str_in m supported_models = true ->
  Forall P supported_models -> P m.
Proof.
  intros Hin Hall. unfold str_in in Hin. apply existsb_exists in Hin.
  destruct Hin as (x & Hx & Heq). apply str_eqb_eq in Heq. subst x.
  rewrite Forall_forall in Hall. apply Hall, list_elem_of_In, Hx.
Qed.

(** X13. Whatever model a request names, the model it is served with is a
    supported one and has its entry in the catalog, so that neither the
    subscript of [create_conversation] nor the defaults of
    [prepare_request_payload] come into play; the options of that entry are
    the ones the segmenter's catalog column gives.  A model that is not
    supported is served as "deepseek-v3", on the backend "deepseek" with no
    option. *)
Theorem served_model_in_catalog (m : pystr) :
  str_in (served_model m) supported_models = true
  /\ (exists backend options,
        catalog_get (served_model m) model_catalog = Some (backend, options)
        /\ user_action_of (served_model m) model_to_user_action = options)
  /\ (str_in m supported_models = false ->
      served_model m = lit "deepseek-v3"
      /\ catalog_get (served_model m) model_catalog = Some (lit "deepseek", [])).
Proof.
  unfold served_model. destruct (str_in m supported_models) eqn:E; simpl.
  - split; [exact E|]. split; [|discriminate].
    apply (supported_cases
             (fun m => exists backend options,
                catalog_get m model_catalog = Some (backend, options)
                /\ user_action_of m model_to_user_action = options) m E).
    repeat constructor; do 2 eexists; split; vm_compute; reflexivity.
  - split; [reflexivity|]. split.
    + do 2 eexists. split; vm_compute; reflexivity.
    + intros _. split; reflexivity.
Qed.

(** X14. The models that [/v1/models] lists are the supported models, each
    once; every one of them is served under its own name, and a request for
    any other name is served as "deepseek-v3". *)
Theorem listed_models_served (time_now : Z) (m : pystr) :
  map entry_id (list_models time_now) = supported_models
  /\ NoDup (map entry_id (list_models time_now))
  /\ (In m (map entry_id (list_models time_now)) <-> served_model m = m)
  /\ (~ In m (map entry_id (list_models time_now)) ->
      served_model m = lit "deepseek-v3").
Proof.
  assert (Hids : map entry_id (list_models time_now) = supported_models).
  { reflexivity. }
  rewrite Hids.
  assert (Hin : In m supported_models <-> str_in m supported_models = true).
  { unfold str_in. rewrite existsb_exists. split.
    - intros H. exists m. split; [exact H | apply str_eqb_refl].
    - intros (x & Hx & Heq). apply str_eqb_eq in Heq. congruence. }
  split; [reflexivity|]. split; [|split].
  - apply (bool_decide_unpack _). vm_compute. exact I.
  - rewrite Hin. unfold served_model.
    destruct (str_in m supported_models) eqn:E; simpl.
    + split; reflexivity.
    + split; [discriminate|]. intros <-. revert E. vm_compute. discriminate.
  - rewrite Hin. unfold served_model.
    destruct (str_in m supported_models); simpl; [congruence | reflexivity].
Qed.

(** ** The creation of a session *)

(** X15. Given what [response.json()] returns, [create_conversation] returns
    an identifier exactly when the model has a catalog entry, the upstream
    answers 200, and the decoded body is an object whose "success" is true
    and whose "data" is an object with a "conversationId", which is then what
    is returned.  For a model of the catalog, an answer other than 200 is an
    HTTP 500 whatever its body, and so is an answer 200 whose decoded body is
    an object with no true "success". *)
Theorem create_conversation_returns (model_name : pystr) (response : answer)
    (conversation_id : json) :
  (create_conversation model_name response = Returned conversation_id
   <-> is_Some (catalog_get model_name model_catalog)
       /\ answer_status response = 200
       /\ exists data inner,
            answer_json response = JObj data
            /\ truthy (field_or data (lit "success") JNull) = true
            /\ dict_lookup (lit "data") data = Some (JObj inner)
            /\ dict_lookup (lit "conversationId") inner = Some conversation_id)
  /\ (is_Some (catalog_get model_name model_catalog) ->
      (answer_status response <> 200 ->
       create_conversation model_name response
       = Raised (HTTPException 500 (lit "创建会话失败")))
      /\ (forall data,
            answer_status response = 200 ->
            answer_json response = JObj data ->
            truthy (field_or data (lit "success") JNull) = false ->
            create_conversation model_name response
            = Raised (HTTPException 500 (lit "创建会话失败")))).
Proof.
  unfold create_conversation. split.
  - split.
    + destruct (catalog_get model_name model_catalog) as [entry|];
        [|discriminate].
      destruct (Z.eqb_spec (answer_status response) 200) as [H200|];
        [|discriminate]. cbv beta iota zeta. cbn [negb].
      destruct (answer_json response) as [| | | | | |fields];
        try discriminate.
      cbn [py_get]. fold (field_or fields (lit "success") JNull).
      destruct (truthy _) eqn:Etruthy; [|discriminate].
      cbn [subscript].
      destruct (dict_lookup (lit "data") fields) as [d|] eqn:Ed;
        [|discriminate].
      destruct d as [| | | | | |inner]; try discriminate.
      cbn [subscript].
      destruct (dict_lookup (lit "conversationId") inner) as [cid|] eqn:Ec;
        [|discriminate].
      intros [= <-]. split; [eexists; reflexivity|]. split; [exact H200|].
      exists fields, inner. auto.
    + intros ([entry ->] & -> & data & inner & -> & Htruthy & Hd & Hc).
      cbn [Z.eqb negb]. cbv beta iota zeta. cbn [py_get].
      fold (field_or data (lit "success") JNull).
      rewrite Htruthy. cbn [subscript]. rewrite Hd. cbn [subscript].
      rewrite Hc. reflexivity.
  - intros [entry ->]. split.
    + intros Hstatus. apply Z.eqb_neq in Hstatus. rewrite Hstatus.
      reflexivity.
    + intros data -> -> Hfalsy. cbn [Z.eqb negb]. cbv beta iota zeta.
      cbn [py_get]. fold (field_or data (lit "success") JNull).
      rewrite Hfalsy. reflexivity.
Qed.

Lemma create_conversation_returns_witness :
  create_conversation (lit "deepseek-v3") demo_answer = Returned (JStr (lit "c-1"))
  /\ create_conversation (lit "deepseek-v3")
       {| answer_status := 502; answer_json := answer_json demo_answer |}
     = Raised (HTTPException 500 (lit "创建会话失败"))
  /\ create_conversation (lit "deepseek-v3")
       {| answer_status := 200;
          answer_json := JObj [(lit "success", JBool false)] |}
     = Raised (HTTPException 500 (lit "创建会话失败")).
Proof.
  split; [|split].
  - apply (proj1 (create_conversation_returns (lit "deepseek-v3") demo_answer
                    (JStr (lit "c-1")))).
    split; [eexists; vm_compute; reflexivity|].
    split; [reflexivity|].
    do 2 eexists. repeat split; vm_compute; reflexivity.
  - apply (proj2 (create_conversation_returns (lit "deepseek-v3")
                    {| answer_status := 502;
                       answer_json := answer_json demo_answer |} JNull)).
    + eexists. vm_compute. reflexivity.
    + discriminate.
  - apply (proj2 (proj2 (create_conversation_returns (lit "deepseek-v3")
                           {| answer_status := 200;
                              answer_json :=
                                JObj [(lit "success", JBool false)] |} JNull)
                    ltac:(eexists; vm_compute; reflexivity))
             [(lit "success", JBool false)]);
      reflexivity.
Defined.

(** ** The size of the question *)

Lemma sub_from_length (open close : pystr) (skip : nat) (s : pystr) :
  (length (sub_from open close skip s) <= length s)%nat.
Proof.
  revert skip. induction s as [|c s IH]; intros skip; simpl; [lia|].
  destruct skip as [|k]; [destruct (match_len open close (c :: s))|];
    simpl;
    match goal with
    | |- context [sub_from _ _ ?j s] => specialize (IH j)
    end; lia.
Qed.

Lemma lstrip_length (s : pystr) : (length (lstrip s) <= length s)%nat.
Proof.
  induction s as [|c s IH]; simpl; [lia|].
  destruct (isspace c); simpl; lia.
Qed.

Lemma strip_length (s : pystr) : (length (strip s) <= length s)%nat.
Proof.
  unfold strip, rstrip. rewrite length_reverse.
  pose proof (lstrip_length (reverse (lstrip s))) as H1.
  rewrite length_reverse in H1. pose proof (lstrip_length s). lia.
Qed.

Lemma join_length (sep : pystr) (parts : list pystr) :
  (length (join sep parts)
   <= list_sum (map (fun p => length p + length sep) parts))%nat.
Proof.
  induction parts as [|p rest IH]; simpl; [lia|].
  destruct rest as [|q rest]; [simpl; lia|].
  rewrite !length_app. simpl in *. lia.
Qed.

Lemma flatten_line_length (msg : Message) (line : pystr) :
  flatten_line msg = Some line ->
  (length line <= length (content msg) + 11)%nat.
Proof.
  unfold flatten_line.
  pose proof (strip_length (re_sub_span think_open think_close (content msg)))
    as Hs.
  pose proof (sub_from_length think_open think_close 0 (content msg)) as Hr.
  fold (re_sub_span think_open think_close (content msg)) in Hr.
  destruct (strip _) as [|c rest]; [discriminate|].
  intros [= <-]. rewrite !length_app.
  assert (length (capitalize (role_value (role msg))) <= 9)%nat
    by (destruct (role msg); vm_compute; lia).
  change (length (lit ": ")) with 2%nat. simpl in *. lia.
Qed.

(** The flattened text is at most the contents and twelve characters for each
    message: the role, the colon, the space and the newline. *)
Lemma concatenate_messages_length (messages : list Message) :
  len (concatenate_messages messages)
  <= total_chars messages + 12 * Z.of_nat (length messages).
Proof.
  unfold concatenate_messages. rewrite concatenate_loop. cbn [app].
  assert (Hsum :
    (list_sum (map (fun p => length p + 1) (omap flatten_line messages))
     <= Z.to_nat (total_chars messages) + 12 * length messages)%nat).
  { induction messages as [|m ms IH]; [simpl; lia|].
    rewrite total_chars_cons. pose proof (total_chars_nonneg ms).
    unfold len. cbn [omap list_omap length].
    destruct (flatten_line m) as [line|] eqn:E; cbn [map list_sum].
    - apply flatten_line_length in E.
      change (list_sum (?a :: ?l)) with (a + list_sum l)%nat. lia.
    - lia. }
  pose proof (join_length NL (omap flatten_line messages)) as Hjoin.
  change (length NL) with 1%nat in Hjoin.
  pose proof (total_chars_nonneg messages). unfold len. lia.
Qed.

Lemma truncate_messages_total (messages : list Message) (max_chars : Z) :
  total_chars (truncate_messages messages max_chars)
  <= Z.max max_chars
       (total_chars (List.filter (fun msg => negb (is_ua msg)) messages))
  /\ (length (truncate_messages messages max_chars) <= length messages)%nat.
Proof.
  destruct (Z.le_gt_cases (total_chars messages) max_chars) as [Hle|Hgt].
  { unfold truncate_messages. pose proof Hle as Hle'.
    apply Z.leb_le in Hle'. rewrite Hle'. lia. }
  destruct (truncate_over_budget messages max_chars Hgt)
    as (kept & dropped & Hua & -> & Hfit).
  split.
  - rewrite total_chars_app. destruct Hfit as [-> | Hfit].
    + unfold total_chars at 2. simpl. lia.
    + lia.
  - rewrite <- (Permutation_length (filter_split_perm is_ua messages)).
    rewrite Hua, !length_app. lia.
Qed.

(** X16. The question sent upstream is bounded: its length is at most the
    budget, or the size of the preserved messages if that is more, and twelve
    characters for each message of the request. *)
Theorem question_bounded (generate_sign : pystr -> json -> pystr -> pystr)
    (env : environment) (request : ChatCompletionRequest)
    (device_id conversation_id : pystr) :
  len (question_of
         (fst (fst (prepare_request_payload generate_sign env request
                      device_id conversation_id))))
  <= Z.max (MAX_CHARS env)
       (total_chars
          (List.filter (fun msg => negb (is_ua msg)) (messages request)))
     + 12 * Z.of_nat (length (messages request)).
Proof.
  unfold prepare_request_payload.
  destruct (get_user_agent _ _ _ _) as [user_agent ua_map]. cbn [fst].
  match goal with
  | |- context [question_of (JObj ?fields)] =>
    change (question_of (JObj fields))
      with (concatenate_messages
              (truncate_messages (messages request) (MAX_CHARS env)))
  end.
  pose proof (concatenate_messages_length
                (truncate_messages (messages request) (MAX_CHARS env))).
  destruct (truncate_messages_total (messages request) (MAX_CHARS env)).
  lia.
Qed.

(** ** Writing a string and reading it back *)

Lemma below_cases (P : N -> bool) (bound : nat) (n : N) :
  forallb (fun k => P (N.of_nat k)) (seq 0 bound) = true ->
  (n < N.of_nat bound)%N -> P n = true.
Proof.
  intros Hall Hn. rewrite forallb_forall in Hall.
  specialize (Hall (N.to_nat n)). rewrite N2Nat.id in Hall.
  apply Hall, in_seq. lia.
Qed.

Lemma hex_digit_char (d : N) :
  (d < 16)%N -> hex_digit (hex_char d) = Some d.
Proof.
  intros Hd.
  pose (P := fun d => match hex_digit (hex_char d) with
                      | Some x => (x =? d)%N
                      | None => false
                      end).
  assert (H : P d = true).
  { apply (below_cases P 16 d); [vm_compute; reflexivity | exact Hd]. }
  unfold P in H. destruct (hex_digit (hex_char d)); [|discriminate].
  apply N.eqb_eq in H. congruence.
Qed.

Lemma hex4_u_escape (n : N) (rest : pystr) :
  (n < 65536)%N -> hex4 (drop 2 (u_escape n) ++ rest) = Some (n, rest).
Proof.
  intros Hn. unfold u_escape. cbn [drop app]. unfold hex4.
  rewrite !hex_digit_char.
  - do 2 f_equal.
    pose proof (N.div_mod n 4096 ltac:(discriminate)).
    pose proof (N.mod_lt n 4096 ltac:(discriminate)).
    assert (n / 256 = (n / 4096) * 16 + (n / 256) mod 16)%N.
    { rewrite (N.div_mod (n / 256) 16) at 1 by discriminate.
      rewrite N.Div0.div_div. change (256 * 16)%N with 4096%N. lia. }
    assert (n / 16 = (n / 256) * 16 + (n / 16) mod 16)%N.
    { rewrite (N.div_mod (n / 16) 16) at 1 by discriminate.
      rewrite N.Div0.div_div. change (16 * 16)%N with 256%N. lia. }
    pose proof (N.div_mod n 16 ltac:(discriminate)).
    lia.
  - apply N.mod_lt. discriminate.
  - apply N.mod_lt. discriminate.
  - apply N.mod_lt. discriminate.
  - apply N.Div0.div_lt_upper_bound. exact Hn.
Qed.

Lemma scanstring_step (fuel : nat) (c : N) (s1 acc : pystr) :
  scanstring (S fuel) (c :: s1) acc
  = if (c =? QUOTE)%N then Scanned acc s1
    else if (c =? ch "\")%N then
      match s1 with
      | [] => Invalid
      | e :: s2 =>
        if (e =? ch "u")%N then
          match hex4 s2 with
          | None => Invalid
          | Some (cp, s3) =>
            if is_high_surrogate cp then
              match s3 with
              | b :: u :: s4 =>
                if ((b =? ch "\") && (u =? ch "u"))%N then
                  match hex4 s4 with
                  | None => Invalid
                  | Some (cp2, s5) =>
                    if is_low_surrogate cp2
                    then scanstring fuel s5 (acc ++ [join_surrogates cp cp2])
                    else scanstring fuel s3 (acc ++ [cp])
                  end
                else scanstring fuel s3 (acc ++ [cp])
              | _ => scanstring fuel s3 (acc ++ [cp])
              end
            else scanstring fuel s3 (acc ++ [cp])
          end
        else
          match simple_escape e with
          | Some x => scanstring fuel s2 (acc ++ [x])
          | None => Invalid
          end
      end
    else if (c <=? 31)%N then Invalid
    else scanstring fuel s1 (acc ++ [c]).
Proof. reflexivity. Qed.

Lemma scanstring_u_bmp (fuel : nat) (n : N) (s3 acc : pystr) :
  (n < 65536)%N -> is_high_surrogate n = false ->
  scanstring (S fuel) (u_escape n ++ s3) acc = scanstring fuel s3 (acc ++ [n]).
Proof.
  intros Hn Hhigh.
  change (u_escape n ++ s3)
    with (ch "\" :: ch "u" :: (drop 2 (u_escape n) ++ s3)).
  rewrite scanstring_step.
  change (ch "\" =? QUOTE)%N with false.
  change (ch "\" =? ch "\")%N with true.
  change (ch "u" =? ch "u")%N with true. cbv iota.
  rewrite (hex4_u_escape n s3 Hn), Hhigh. reflexivity.
Qed.

Lemma scanstring_u_pair (fuel : nat) (hi lo : N) (s5 acc : pystr) :
  (hi < 65536)%N -> (lo < 65536)%N ->
  is_high_surrogate hi = true -> is_low_surrogate lo = true ->
  scanstring (S fuel) (u_escape hi ++ u_escape lo ++ s5) acc
  = scanstring fuel s5 (acc ++ [join_surrogates hi lo]).
Proof.
  intros Hhi Hlo Hhigh Hlow.
  change (u_escape hi ++ u_escape lo ++ s5)
    with (ch "\" :: ch "u"
            :: (drop 2 (u_escape hi)
                  ++ (ch "\" :: ch "u" :: (drop 2 (u_escape lo) ++ s5)))).
  rewrite scanstring_step.
  change (ch "\" =? QUOTE)%N with false.
  change (ch "\" =? ch "\")%N with true.
  change (ch "u" =? ch "u")%N with true. cbv iota.
  rewrite (hex4_u_escape hi _ Hhi), Hhigh.
  change ((ch "\" =? ch "\") && (ch "u" =? ch "u"))%N with true. cbv iota.
  rewrite (hex4_u_escape lo s5 Hlo), Hlow. reflexivity.
Qed.

Lemma surrogate_pair (c : N) :
  (65536 <= c)%N -> (c <= 1114111)%N ->
  exists hi lo,
    N.lor 55296 (N.land (N.shiftr (c - 65536) 10) 1023) = hi
    /\ N.lor 56320 (N.land (c - 65536) 1023) = lo
    /\ (hi < 65536)%N /\ (lo < 65536)%N
    /\ is_high_surrogate hi = true /\ is_low_surrogate lo = true
    /\ join_surrogates hi lo = c.
Proof.
  intros Hge Hle. set (n := (c - 65536)%N).
  assert (Hn : (n < 1048576)%N) by (subst n; lia).
  assert (Hlor1 : forall x, (x < 1024)%N -> N.lor 55296 x = (55296 + x)%N).
  { intros x Hx.
    pose (P := fun x => (N.lor 55296 x =? 55296 + x)%N).
    assert (H : P x = true)
      by (apply (below_cases P 1024 x); [vm_compute; reflexivity | exact Hx]).
    apply N.eqb_eq in H. exact H. }
  assert (Hlor2 : forall x, (x < 1024)%N -> N.lor 56320 x = (56320 + x)%N).
  { intros x Hx.
    pose (P := fun x => (N.lor 56320 x =? 56320 + x)%N).
    assert (H : P x = true)
      by (apply (below_cases P 1024 x); [vm_compute; reflexivity | exact Hx]).
    apply N.eqb_eq in H. exact H. }
  assert (Hland : forall x, N.land x 1023 = (x mod 1024)%N).
  { intros x. change 1023%N with (N.ones 10). rewrite N.land_ones.
    reflexivity. }
  assert (Hshift : N.shiftr n 10 = (n / 1024)%N).
  { rewrite N.shiftr_div_pow2. reflexivity. }
  rewrite !Hland, Hshift.
  assert (Hq : (n / 1024 < 1024)%N)
    by (apply N.Div0.div_lt_upper_bound; exact Hn).
  rewrite (N.mod_small (n / 1024) 1024 Hq).
  pose proof (N.mod_lt n 1024 ltac:(discriminate)) as Hr.
  rewrite (Hlor1 _ Hq), (Hlor2 _ Hr).
  do 2 eexists. split; [reflexivity|]. split; [reflexivity|].
  pose proof (N.div_mod n 1024 ltac:(discriminate)) as Hdm.
  unfold is_high_surrogate, is_low_surrogate, join_surrogates.
  assert (Hc : c = (n + 65536)%N) by (subst n; lia).
  clearbody n.
  generalize dependent (n / 1024)%N. generalize dependent (n mod 1024)%N.
  intros r Hr q Hq Hdm.
  split; [lia|]. split; [lia|].
  split; [apply andb_true_iff; split; apply N.leb_le; lia|].
  split; [apply andb_true_iff; split; apply N.leb_le; lia|].
  lia.
Qed.

Lemma escape_char_length (c : N) : (1 <= length (escape_char c))%nat.
Proof.
  unfold escape_char. repeat case_match; simpl; lia.
Qed.

(** The scanner reads back what the encoder wrote, up to the closing quote. *)
Lemma scanstring_encoded (s : pystr) :
  forallb is_scalar s = true ->
  forall fuel rest acc,
    (length (flat_map escape_char s ++ QUOTE :: rest) < fuel)%nat ->
    scanstring fuel (flat_map escape_char s ++ QUOTE :: rest) acc
    = Scanned (acc ++ s) rest.
Proof.
  induction s as [|c s IH]; intros Hs fuel rest acc Hfuel.
  - destruct fuel as [|fuel]; [simpl in Hfuel; lia|].
    simpl. rewrite app_nil_r. reflexivity.
  - simpl in Hs. apply andb_true_iff in Hs. destruct Hs as [Hc Hs].
    destruct fuel as [|fuel]; [lia|].
    cbn [flat_map] in *. rewrite <- app_assoc in *.
    rewrite length_app in Hfuel.
    pose proof (escape_char_length c) as Hlen.
    assert (Hgoal : forall acc',
              acc' = acc ++ [c] ->
              scanstring fuel (flat_map escape_char s ++ QUOTE :: rest) acc'
              = Scanned (acc ++ c :: s) rest).
    { intros acc' ->. rewrite (IH Hs fuel rest (acc ++ [c])) by lia.
      rewrite <- app_assoc. reflexivity. }
    unfold escape_char in *.
    destruct (N.eqb_spec c (ch "\")) as [->|Hn1];
      [cbn [app]; rewrite scanstring_step; apply Hgoal; reflexivity|].
    destruct (N.eqb_spec c QUOTE) as [->|Hn2];
      [cbn [app]; rewrite scanstring_step; apply Hgoal; reflexivity|].
    destruct (N.eqb_spec c 8) as [->|Hn3];
      [cbn [app]; rewrite scanstring_step; apply Hgoal; reflexivity|].
    destruct (N.eqb_spec c 12) as [->|Hn4];
      [cbn [app]; rewrite scanstring_step; apply Hgoal; reflexivity|].
    destruct (N.eqb_spec c 10) as [->|Hn5];
      [cbn [app]; rewrite scanstring_step; apply Hgoal; reflexivity|].
    destruct (N.eqb_spec c 13) as [->|Hn6];
      [cbn [app]; rewrite scanstring_step; apply Hgoal; reflexivity|].
    destruct (N.eqb_spec c 9) as [->|Hn7];
      [cbn [app]; rewrite scanstring_step; apply Hgoal; reflexivity|].
    destruct ((32 <=? c) && (c <=? 126))%N eqn:Hprint.
    { apply andb_true_iff in Hprint. destruct Hprint as [Hlo _].
      apply N.leb_le in Hlo. cbn [app]. rewrite scanstring_step.
      destruct (N.eqb_spec c QUOTE); [contradiction|].
      destruct (N.eqb_spec c (ch "\")); [contradiction|].
      destruct (N.leb_spec c 31); [lia|]. apply Hgoal. reflexivity. }
    destruct (N.ltb_spec c 65536) as [Hbmp|Hhigh].
    { rewrite scanstring_u_bmp; [apply Hgoal; reflexivity | exact Hbmp |].
      unfold is_scalar in Hc. unfold is_high_surrogate.
      apply orb_true_iff in Hc. destruct Hc as [Hc|Hc].
      - apply N.ltb_lt in Hc. apply andb_false_iff. left.
        apply N.leb_gt. exact Hc.
      - apply andb_true_iff in Hc. destruct Hc as [Hc _].
        apply N.leb_le in Hc. apply andb_false_iff. right.
        apply N.leb_gt. lia. }
    assert (Hmax : (c <= 1114111)%N).
    { unfold is_scalar in Hc. apply orb_true_iff in Hc.
      destruct Hc as [Hc|Hc].
      - apply N.ltb_lt in Hc. lia.
      - apply andb_true_iff in Hc. destruct Hc as [_ Hc].
        apply N.leb_le in Hc. exact Hc. }
    destruct (surrogate_pair c Hhigh Hmax)
      as (hi & lo & -> & -> & Hhi & Hlo & Hh & Hl & Hjoin).
    cbv zeta. rewrite <- app_assoc.
    rewrite scanstring_u_pair by assumption. apply Hgoal.
    rewrite Hjoin. reflexivity.
Qed.

(** ** Writing an int and reading it back *)

Lemma number_end_cons (c : N) (rest : pystr) :
  number_end (c :: rest) = true ->
  is_digit c = false /\ (c =? ch ".")%N = false
  /\ (c =? ch "e")%N = false /\ (c =? ch "E")%N = false.
Proof.
  unfold number_end. rewrite negb_true_iff, !orb_false_iff. tauto.
Qed.

(** The digits of [D d], for a digit constructor [D], are the digit of [D]
    and the digits of [d]. *)
Ltac digit_step d :=
  match goal with
  | |- context [NilEmpty.string_of_uint (?D d)] =>
    let k := eval vm_compute in
               (hd 0%N (lit (NilEmpty.string_of_uint (D Decimal.Nil)))) in
    change (lit (NilEmpty.string_of_uint (D d)))
      with (k :: lit (NilEmpty.string_of_uint d))
  end.

Lemma span_digits_uint (d : Decimal.uint) (rest : pystr) :
  number_end rest = true ->
  span_digits (lit (NilEmpty.string_of_uint d) ++ rest)
  = (lit (NilEmpty.string_of_uint d), rest).
Proof.
  intros Hend.
  induction d as [|d IH|d IH|d IH|d IH|d IH|d IH|d IH|d IH|d IH|d IH];
    [ destruct rest as [|c rest]; [reflexivity|];
      apply number_end_cons in Hend; destruct Hend as [Hd _];
      change (lit (NilEmpty.string_of_uint Decimal.Nil)) with (@nil N);
      cbn [app span_digits]; rewrite Hd; reflexivity
    | digit_step d; cbn [app span_digits]; rewrite IH; reflexivity .. ].
Qed.

Lemma digits_value_acc (d : Decimal.uint) (acc : positive) :
  fold_left (fun acc c => (acc * 10 + (c - 48))%N)
    (lit (NilEmpty.string_of_uint d)) (N.pos acc)
  = N.pos (Pos.of_uint_acc d acc).
Proof.
  revert acc.
  induction d as [|d IH|d IH|d IH|d IH|d IH|d IH|d IH|d IH|d IH|d IH];
    intros acc;
    [ reflexivity
    | digit_step d; cbn [fold_left Pos.of_uint_acc]; rewrite <- IH;
      f_equal; lia .. ].
Qed.

Lemma digits_value_uint (d : Decimal.uint) :
  digits_value (lit (NilEmpty.string_of_uint d)) = Pos.of_uint d.
Proof.
  unfold digits_value.
  induction d as [|d IH|d IH|d IH|d IH|d IH|d IH|d IH|d IH|d IH|d IH];
    [ reflexivity
    | digit_step d; cbn [fold_left Pos.of_uint];
      first [ exact IH | rewrite <- digits_value_acc; f_equal ] .. ].
Qed.

Lemma to_uint_head (p : positive) :
  exists c t,
    lit (NilEmpty.string_of_uint (Pos.to_uint p))
    = c :: lit (NilEmpty.string_of_uint t)
    /\ is_digit c = true /\ c <> 48%N.
Proof.
  pose proof (Unsigned.to_uint_nonnil p) as Hnil.
  pose proof (Unsigned.to_uint_nonzero p) as Hzero.
  assert (Hnorm : Decimal.unorm (Pos.to_uint p) = Pos.to_uint p).
  { rewrite <- DecimalPos.Unsigned.to_of, DecimalPos.Unsigned.of_to.
    reflexivity. }
  assert (Hhead : forall d', Pos.to_uint p <> Decimal.D0 d').
  { intros d' Heq.
    destruct (Decimal.nzhead (Pos.to_uint p)) eqn:Hnz.
    - unfold Decimal.unorm in Hnorm. rewrite Hnz in Hnorm. congruence.
    - exact (nzhead_nonzero (Pos.to_uint p) u Hnz).
    - rewrite unorm_nzhead in Hnorm by (rewrite Hnz; discriminate).
      rewrite Hnz in Hnorm. congruence.
    - rewrite unorm_nzhead in Hnorm by (rewrite Hnz; discriminate).
      rewrite Hnz in Hnorm. congruence.
    - rewrite unorm_nzhead in Hnorm by (rewrite Hnz; discriminate).
      rewrite Hnz in Hnorm. congruence.
    - rewrite unorm_nzhead in Hnorm by (rewrite Hnz; discriminate).
      rewrite Hnz in Hnorm. congruence.
    - rewrite unorm_nzhead in Hnorm by (rewrite Hnz; discriminate).
      rewrite Hnz in Hnorm. congruence.
    - rewrite unorm_nzhead in Hnorm by (rewrite Hnz; discriminate).
      rewrite Hnz in Hnorm. congruence.
    - rewrite unorm_nzhead in Hnorm by (rewrite Hnz; discriminate).
      rewrite Hnz in Hnorm. congruence.
    - rewrite unorm_nzhead in Hnorm by (rewrite Hnz; discriminate).
      rewrite Hnz in Hnorm. congruence.
    - rewrite unorm_nzhead in Hnorm by (rewrite Hnz; discriminate).
      rewrite Hnz in Hnorm. congruence. }
  destruct (Pos.to_uint p) as [|d|d|d|d|d|d|d|d|d|d];
    [ congruence | exfalso; exact (Hhead d eq_refl)
    | eexists _, d; split; [reflexivity|]; split;
      [reflexivity | discriminate] .. ].
Qed.

Lemma match_number_nonzero (neg : bool) (c : N) (ds rest : pystr) :
  is_digit c = true -> c <> 48%N ->
  span_digits (ds ++ rest) = (ds, rest) ->
  number_end rest = true ->
  match_number ((if neg then [ch "-"] else []) ++ c :: ds ++ rest)
  = Some (JInt (signed neg (Z.of_N (digits_value (c :: ds)))), rest).
Proof.
  intros Hc Hnz Hspan Hend.
  assert (Hminus : (c =? ch "-")%N = false).
  { apply N.eqb_neq. intros ->. discriminate. }
  apply N.eqb_neq in Hnz.
  assert (Hbody :
    match_number ((if neg then [ch "-"] else []) ++ c :: ds ++ rest)
    = let s3 := rest in
      let '(frac, s4) :=
        match s3 with
        | dot :: d :: _ =>
          if ((dot =? ch ".")%N && is_digit d) then span_digits (tail s3)
          else ([], s3)
        | _ => ([], s3)
        end in
      let '(expo, s5) :=
        match s4 with
        | e :: s' =>
          if ((e =? ch "e") || (e =? ch "E"))%N then
            let '(eneg, s'') :=
              match s' with
              | sg :: t =>
                if (sg =? ch "-")%N then (true, t)
                else if (sg =? ch "+")%N then (false, t)
                else (false, s')
              | [] => (false, s')
              end in
            let '(eds, rest) := span_digits s'' in
            match eds with
            | [] => (None, s4)
            | _ => (Some (signed eneg (Z.of_N (digits_value eds))), rest)
            end
          else (None, s4)
        | [] => (None, s4)
        end in
      match frac, expo with
      | [], None =>
        Some (JInt (signed neg (Z.of_N (digits_value (c :: ds)))), s5)
      | _, _ =>
        Some (JFloat (FDec neg (digits_value ((c :: ds) ++ frac))
                       (default 0 expo - len frac)), s5)
      end).
  { unfold match_number. destruct neg.
    - cbn [app]. change (ch "-" =? ch "-")%N with true. cbv iota.
      change (c =? ch "0")%N with (c =? 48)%N. rewrite Hnz, Hc, Hspan.
      reflexivity.
    - cbn [app]. rewrite Hminus.
      change (c =? ch "0")%N with (c =? 48)%N. rewrite Hnz, Hc, Hspan.
      reflexivity. }
  rewrite Hbody. cbv zeta.
  destruct rest as [|r rest]; [reflexivity|].
  apply number_end_cons in Hend. destruct Hend as (_ & Hdot & He & HE).
  destruct rest as [|r2 rest];
    [cbv iota beta | rewrite Hdot; cbn [andb]; cbv iota beta];
    rewrite He, HE; reflexivity.
Qed.

Lemma match_number_zero (rest : pystr) :
  number_end rest = true ->
  match_number (ch "0" :: rest) = Some (JInt 0, rest).
Proof.
  intros Hend. unfold match_number.
  change (ch "0" =? ch "-")%N with false. cbv beta iota zeta.
  change (ch "0" =? ch "0")%N with true. cbv beta iota zeta.
  destruct rest as [|r rest]; [reflexivity|].
  apply number_end_cons in Hend. destruct Hend as (_ & Hdot & He & HE).
  destruct rest as [|r2 rest];
    [cbv iota beta | rewrite Hdot; cbn [andb]; cbv iota beta];
    rewrite He, HE; reflexivity.
Qed.

Lemma str_of_int_cases (n : Z) :
  (n = 0 /\ str_of_int n = [ch "0"])
  \/ exists neg p c t,
       n = signed neg (Z.pos p)
       /\ str_of_int n
          = (if neg then [ch "-"] else [])
              ++ c :: lit (NilEmpty.string_of_uint t)
       /\ c :: lit (NilEmpty.string_of_uint t)
          = lit (NilEmpty.string_of_uint (Pos.to_uint p))
       /\ is_digit c = true /\ c <> 48%N.
Proof.
  destruct n as [|p|p].
  - left. split; reflexivity.
  - right. destruct (to_uint_head p) as (c & t & Heq & Hc & Hnz).
    exists false, p, c, t. repeat split; try assumption; [|congruence].
    unfold str_of_int. cbn [Z.to_int NilZero.string_of_int].
    unfold NilZero.string_of_uint. rewrite <- Heq.
    pose proof (Unsigned.to_uint_nonnil p).
    destruct (Pos.to_uint p); [congruence | reflexivity ..].
  - right. destruct (to_uint_head p) as (c & t & Heq & Hc & Hnz).
    exists true, p, c, t. repeat split; try assumption; [|congruence].
    unfold str_of_int. cbn [Z.to_int NilZero.string_of_int].
    unfold NilZero.string_of_uint.
    change (if true then [ch "-"] else []) with [ch "-"].
    cbn [app]. rewrite <- Heq.
    pose proof (Unsigned.to_uint_nonnil p).
    destruct (Pos.to_uint p); [congruence | reflexivity ..].
Qed.

(** The decoder reads back the decimal writing of an [int]. *)
Lemma match_number_str_of_int (n : Z) (rest : pystr) :
  number_end rest = true ->
  match_number (str_of_int n ++ rest) = Some (JInt n, rest).
Proof.
  intros Hend.
  destruct (str_of_int_cases n)
    as [[-> ->]|(neg & p & c & t & -> & -> & Heq & Hc & Hnz)].
  - apply match_number_zero. exact Hend.
  - rewrite <- app_assoc. cbn [app].
    rewrite (match_number_nonzero neg c (lit (NilEmpty.string_of_uint t))
               rest Hc Hnz (span_digits_uint t rest Hend) Hend).
    do 3 f_equal. rewrite Heq, digits_value_uint.
    rewrite DecimalPos.Unsigned.of_to. reflexivity.
Qed.

(** ** Writing a value and reading it back *)

Lemma skip_ws_head (s : pystr) : is_ws (hd 32%N s) = false -> skip_ws s = s.
Proof.
  destruct s as [|c s]; [reflexivity|]. cbn [hd skip_ws].
  intros ->. reflexivity.
Qed.

Lemma join_head (sep p : pystr) (ps : list pystr) (c : N) (t rest : pystr) :
  p = c :: t -> hd 32%N (join sep (p :: ps) ++ rest) = c.
Proof. intros ->. destruct ps; reflexivity. Qed.

Lemma is_digit_cases (c : N) :
  is_digit c = true ->
  c = 48%N \/ c = 49%N \/ c = 50%N \/ c = 51%N \/ c = 52%N \/ c = 53%N
  \/ c = 54%N \/ c = 55%N \/ c = 56%N \/ c = 57%N.
Proof.
  unfold is_digit. rewrite andb_true_iff, !N.leb_le. lia.
Qed.

Lemma is_ws_cases (c : N) :
  is_ws c = true -> c = 32%N \/ c = 9%N \/ c = 10%N \/ c = 13%N.
Proof.
  unfold is_ws. rewrite !orb_true_iff, !N.eqb_eq. tauto.
Qed.

Ltac each_digit H :=
  apply is_digit_cases in H;
  destruct H as [->|[->|[->|[->|[->|[->|[->|[->|[->| ->]]]]]]]]].

Lemma scan_once_number (fuel : nat) (c : N) (t : pystr) :
  is_digit c = true \/ (c = ch "-" /\ is_digit (hd 0%N t) = true) ->
  scan_once (S fuel) (c :: t)
  = match match_number (c :: t) with
    | Some (v, rest) => Scanned v rest
    | None => Invalid
    end.
Proof.
  intros [Hc|[-> Hc]].
  - each_digit Hc; reflexivity.
  - destruct t as [|d t]; [discriminate|]. cbn [hd] in Hc.
    each_digit Hc; reflexivity.
Qed.

Lemma scan_once_int (fuel : nat) (n : Z) (rest : pystr) :
  number_end rest = true ->
  scan_once (S fuel) (str_of_int n ++ rest) = Scanned (JInt n) rest.
Proof.
  intros Hend.
  pose proof (match_number_str_of_int n rest Hend) as Hnum.
  destruct (str_of_int_cases n)
    as [[-> Hz]|(neg & p & c & t & Hn & Hs & _ & Hc & _)].
  - rewrite Hz in *. cbn [app] in *.
    rewrite scan_once_number by (left; reflexivity).
    rewrite Hnum. reflexivity.
  - rewrite Hs in *. destruct neg; cbn [app] in *.
    + rewrite scan_once_number by (right; split; [reflexivity | exact Hc]).
      rewrite Hnum. reflexivity.
    + rewrite scan_once_number by (left; exact Hc).
      rewrite Hnum. reflexivity.
Qed.

Lemma scan_once_string (fuel : nat) (s rest : pystr) :
  forallb is_scalar s = true ->
  scan_once (S fuel) (encode_basestring_ascii s ++ rest)
  = Scanned (JStr s) rest.
Proof.
  intros Hs. unfold encode_basestring_ascii. cbn [app].
  rewrite <- app_assoc. cbn [app].
  change (scan_once (S fuel)
            (QUOTE :: flat_map escape_char s ++ QUOTE :: rest))
    with (match scanstring
                  (length (QUOTE :: flat_map escape_char s ++ QUOTE :: rest))
                  (flat_map escape_char s ++ QUOTE :: rest) [] with
          | Scanned str r => Scanned (JStr str) r
          | Invalid => Invalid
          | NoFuel => NoFuel
          end).
  rewrite scanstring_encoded; [reflexivity | exact Hs | cbn [length]; lia].
Qed.

Lemma scan_once_array (fuel : nat) (s : pystr) :
  is_ws (hd 32%N s) = false -> hd 32%N s <> ch "]" ->
  scan_once (S fuel) (ch "[" :: s) = parse_array fuel s [].
Proof.
  intros Hws Hclose. destruct s as [|c s]; [discriminate|]. cbn [hd] in *.
  change (scan_once (S fuel) (ch "[" :: c :: s))
    with (match skip_ws (c :: s) with
          | c1 :: s1 =>
            if (c1 =? ch "]")%N then Scanned (JArr []) s1
            else parse_array fuel (c1 :: s1) []
          | [] => Invalid
          end).
  cbn [skip_ws]. rewrite Hws.
  apply N.eqb_neq in Hclose. rewrite Hclose. reflexivity.
Qed.

Lemma scan_once_object (fuel : nat) (s : pystr) :
  is_ws (hd 32%N s) = false -> hd 32%N s <> ch "}" ->
  scan_once (S fuel) (ch "{" :: s) = parse_object fuel s [].
Proof.
  intros Hws Hclose. destruct s as [|c s]; [discriminate|]. cbn [hd] in *.
  change (scan_once (S fuel) (ch "{" :: c :: s))
    with (match skip_ws (c :: s) with
          | c1 :: s1 =>
            if (c1 =? ch "}")%N then Scanned (JObj []) s1
            else parse_object fuel (c1 :: s1) []
          | [] => Invalid
          end).
  cbn [skip_ws]. rewrite Hws.
  apply N.eqb_neq in Hclose. rewrite Hclose. reflexivity.
Qed.

Lemma parse_array_close (fuel : nat) (s : pystr) (x : json) (rest : pystr)
    (acc : list json) :
  scan_once fuel s = Scanned x (ch "]" :: rest) ->
  parse_array (S fuel) s acc = Scanned (JArr (acc ++ [x])) rest.
Proof.
  intros Hscan.
  change (parse_array (S fuel) s acc)
    with (match scan_once fuel s with
          | Scanned v rest =>
            match skip_ws rest with
            | c :: rest' =>
              if (c =? ch "]")%N then Scanned (JArr (acc ++ [v])) rest'
              else if (c =? ch ",")%N
                   then parse_array fuel (skip_ws rest') (acc ++ [v])
                   else Invalid
            | [] => Invalid
            end
          | Invalid => Invalid
          | NoFuel => NoFuel
          end).
  rewrite Hscan. reflexivity.
Qed.

Lemma parse_array_comma (fuel : nat) (s : pystr) (x : json) (rest : pystr)
    (acc : list json) :
  scan_once fuel s = Scanned x (ch "," :: ch " " :: rest) ->
  is_ws (hd 32%N rest) = false ->
  parse_array (S fuel) s acc = parse_array fuel rest (acc ++ [x]).
Proof.
  intros Hscan Hws.
  change (parse_array (S fuel) s acc)
    with (match scan_once fuel s with
          | Scanned v rest =>
            match skip_ws rest with
            | c :: rest' =>
              if (c =? ch "]")%N then Scanned (JArr (acc ++ [v])) rest'
              else if (c =? ch ",")%N
                   then parse_array fuel (skip_ws rest') (acc ++ [v])
                   else Invalid
            | [] => Invalid
            end
          | Invalid => Invalid
          | NoFuel => NoFuel
          end).
  rewrite Hscan.
  change (skip_ws (ch "," :: ch " " :: rest))
    with (ch "," :: ch " " :: rest).
  change (ch "," =? ch "]")%N with false.
  change (ch "," =? ch ",")%N with true. cbv iota.
  change (skip_ws (ch " " :: rest)) with (skip_ws rest).
  rewrite (skip_ws_head rest Hws). reflexivity.
Qed.

Lemma entry_shape (k sv tail : pystr) :
  (encode_basestring_ascii k ++ lit ": " ++ sv) ++ tail
  = QUOTE :: flat_map escape_char k
      ++ QUOTE :: ch ":" :: ch " " :: (sv ++ tail).
Proof.
  unfold encode_basestring_ascii. cbn [app]. rewrite <- !app_assoc.
  reflexivity.
Qed.

Lemma parse_object_entry (fuel : nat) (k sv : pystr) (v : json)
    (tail : pystr) (acc : list (pystr * json)) :
  forallb is_scalar k = true ->
  is_ws (hd 32%N sv) = false ->
  scan_once fuel sv = Scanned v tail ->
  parse_object (S fuel)
    (QUOTE :: flat_map escape_char k ++ QUOTE :: ch ":" :: ch " " :: sv) acc
  = match skip_ws tail with
    | c :: rest3 =>
      if (c =? ch "}")%N then Scanned (JObj (dict_set k v acc)) rest3
      else if (c =? ch ",")%N
           then parse_object fuel (skip_ws rest3) (dict_set k v acc)
           else Invalid
    | [] => Invalid
    end.
Proof.
  intros Hk Hws Hscan.
  set (s1 := flat_map escape_char k ++ QUOTE :: ch ":" :: ch " " :: sv).
  change (parse_object (S fuel) (QUOTE :: s1) acc)
    with (match scanstring (length (QUOTE :: s1)) s1 [] with
          | Scanned key rest =>
            match skip_ws rest with
            | colon :: rest1 =>
              if (colon =? ch ":")%N then
                match scan_once fuel (skip_ws rest1) with
                | Scanned v rest2 =>
                  match skip_ws rest2 with
                  | c :: rest3 =>
                    if (c =? ch "}")%N
                    then Scanned (JObj (dict_set key v acc)) rest3
                    else if (c =? ch ",")%N
                         then parse_object fuel (skip_ws rest3)
                                (dict_set key v acc)
                         else Invalid
                  | [] => Invalid
                  end
                | Invalid => Invalid
                | NoFuel => NoFuel
                end
              else Invalid
            | [] => Invalid
            end
          | Invalid => Invalid
          | NoFuel => NoFuel
          end).
  unfold s1.
  rewrite scanstring_encoded; [| exact Hk | cbn [length]; lia].
  cbn [app].
  change (skip_ws (ch ":" :: ch " " :: sv)) with (ch ":" :: ch " " :: sv).
  change (ch ":" =? ch ":")%N with true. cbv iota.
  change (skip_ws (ch " " :: sv)) with (skip_ws sv).
  rewrite (skip_ws_head sv Hws), Hscan. reflexivity.
Qed.

Lemma dict_set_fresh (key : pystr) (v : json) (acc : list (pystr * json)) :
  forallb (fun k => negb (str_eqb k key)) (map fst acc) = true ->
  dict_set key v acc = acc ++ [(key, v)].
Proof.
  induction acc as [|[k w] acc IH]; [reflexivity|].
  cbn [map fst forallb dict_set app]. intros H.
  apply andb_true_iff in H. destruct H as [Hk Hacc].
  apply negb_true_iff in Hk. rewrite Hk, (IH Hacc). reflexivity.
Qed.

Lemma distinct_keys_fresh (acc : list pystr) (key : pystr)
    (rest : list pystr) :
  distinct_keys (acc ++ key :: rest) = true ->
  forallb (fun k => negb (str_eqb k key)) acc = true.
Proof.
  induction acc as [|a acc IH]; [reflexivity|].
  cbn [app distinct_keys forallb]. intros H.
  apply andb_true_iff in H. destruct H as [Ha Hacc].
  rewrite (IH Hacc), andb_true_r.
  apply negb_true_iff in Ha. apply negb_true_iff.
  unfold str_in in Ha. rewrite existsb_app in Ha.
  apply orb_false_iff in Ha. destruct Ha as [_ Ha].
  cbn [existsb] in Ha. apply orb_false_iff in Ha. tauto.
Qed.

Lemma number_end_ws (tail : pystr) :
  forallb is_ws tail = true -> number_end tail = true /\ skip_ws tail = [].
Proof.
  induction tail as [|c tail IH]; [split; reflexivity|].
  cbn [forallb]. intros H. apply andb_true_iff in H. destruct H as [Hc Htail].
  split.
  - apply is_ws_cases in Hc. destruct Hc as [->|[->|[->| ->]]]; reflexivity.
  - cbn [skip_ws]. rewrite Hc. apply IH. exact Htail.
Qed.

Section RoundTrip.

Variable float_repr : pyfloat -> pystr.

(** A written value starts with a character of its own: not white space,
    not a closing bracket, not a byte-order mark. *)
Lemma json_dumps_head (v : json) :
  round_trips v = true ->
  exists c t,
    json_dumps float_repr v = c :: t
    /\ is_ws c = false /\ c <> ch "]" /\ c <> ch "}" /\ c <> 65279%N.
Proof.
  intros Hv. destruct v as [|b|n|f|s|items|fields].
  - exists (ch "n"), (lit "ull"). repeat split; discriminate.
  - destruct b.
    + exists (ch "t"), (lit "rue"). repeat split; discriminate.
    + exists (ch "f"), (lit "alse"). repeat split; discriminate.
  - cbn [json_dumps].
    destruct (str_of_int_cases n)
      as [[_ ->]|(neg & p & c & t & _ & -> & _ & Hc & _)].
    + exists (ch "0"), []. repeat split; discriminate.
    + destruct neg; cbn [app].
      * eexists _, _. split; [reflexivity|]. repeat split; discriminate.
      * eexists _, _. split; [reflexivity|].
        each_digit Hc; repeat split; discriminate.
  - discriminate.
  - eexists _, _. split; [reflexivity|]. repeat split; discriminate.
  - eexists _, _. split; [reflexivity|]. repeat split; discriminate.
  - eexists _, _. split; [reflexivity|]. repeat split; discriminate.
Qed.

Lemma json_dumps_hd (v : json) (rest : pystr) :
  round_trips v = true ->
  is_ws (hd 32%N (json_dumps float_repr v ++ rest)) = false.
Proof.
  intros Hv. destruct (json_dumps_head v Hv) as (c & t & -> & Hws & _).
  exact Hws.
Qed.

Lemma json_dumps_length (v : json) :
  round_trips v = true -> (1 <= length (json_dumps float_repr v))%nat.
Proof.
  intros Hv. destruct (json_dumps_head v Hv) as (c & t & -> & _).
  cbn [length]. lia.
Qed.

Lemma json_dumps_fuel (v : json) (rest : pystr) (fuel : nat) :
  round_trips v = true ->
  (2 * length (json_dumps float_repr v ++ rest) <= fuel)%nat ->
  exists fuel', fuel = S fuel'.
Proof.
  intros Hv Hfuel. pose proof (json_dumps_length v Hv).
  rewrite length_app in Hfuel.
  destruct fuel as [|fuel']; [lia | exists fuel'; reflexivity].
Qed.

Lemma parse_array_items (items : list json) :
  Forall (reads_back float_repr) items ->
  forallb round_trips items = true ->
  items <> [] ->
  forall fuel rest acc,
    (2 * length (join (lit ", ") (map (json_dumps float_repr) items)
                   ++ ch "]" :: rest) + 1 <= fuel)%nat ->
    parse_array fuel
      (join (lit ", ") (map (json_dumps float_repr) items) ++ ch "]" :: rest)
      acc
    = Scanned (JArr (acc ++ items)) rest.
Proof.
  induction 1 as [|x l Hx Hl IH]; [congruence|].
  intros Hrt _ fuel rest acc Hfuel.
  cbn [forallb] in Hrt. apply andb_true_iff in Hrt.
  destruct Hrt as [Hrx Hrl].
  destruct fuel as [|fuel]; [lia|].
  destruct l as [|y l].
  - cbn [map join] in *. apply parse_array_close.
    apply (Hx Hrx); [reflexivity | lia].
  - set (tail := join (lit ", ") (map (json_dumps float_repr) (y :: l))
                   ++ ch "]" :: rest) in *.
    assert (Hshape :
      join (lit ", ") (map (json_dumps float_repr) (x :: y :: l))
        ++ ch "]" :: rest
      = json_dumps float_repr x ++ ch "," :: ch " " :: tail).
    { unfold tail. cbn [map join]. rewrite <- !app_assoc. reflexivity. }
    rewrite Hshape in *. rewrite length_app in Hfuel. cbn [length] in Hfuel.
    assert (Hhead : is_ws (hd 32%N tail) = false).
    { unfold tail. cbn [forallb] in Hrl. apply andb_true_iff in Hrl.
      destruct (json_dumps_head y (proj1 Hrl)) as (c & t & Hy & Hws & _).
      cbn [map]. rewrite (join_head _ _ _ c t _ Hy). exact Hws. }
    rewrite (parse_array_comma fuel _ x tail acc); [| | exact Hhead].
    + unfold tail. rewrite (IH Hrl); [| discriminate | fold tail; lia].
      rewrite <- app_assoc. reflexivity.
    + apply (Hx Hrx); [reflexivity|].
      rewrite length_app. cbn [length]. lia.
Qed.

Lemma parse_object_fields (fields : list (pystr * json)) :
  Forall (fun kv => reads_back float_repr (snd kv)) fields ->
  forallb (fun kv => forallb is_scalar (fst kv) && round_trips (snd kv))
    fields = true ->
  fields <> [] ->
  forall fuel rest acc,
    distinct_keys (map fst (acc ++ fields)) = true ->
    (2 * length
           (join (lit ", ")
              (map (fun kv =>
                      encode_basestring_ascii (fst kv) ++ lit ": "
                        ++ json_dumps float_repr (snd kv)) fields)
              ++ ch "}" :: rest) + 1 <= fuel)%nat ->
    parse_object fuel
      (join (lit ", ")
         (map (fun kv =>
                 encode_basestring_ascii (fst kv) ++ lit ": "
                   ++ json_dumps float_repr (snd kv)) fields)
         ++ ch "}" :: rest)
      acc
    = Scanned (JObj (acc ++ fields)) rest.
Proof.
  induction 1 as [|[k v] l Hx Hl IH]; [congruence|].
  intros Hrt _ fuel rest acc Hkeys Hfuel.
  cbn [forallb fst snd] in Hrt, Hx. apply andb_true_iff in Hrt.
  destruct Hrt as [Hrx Hrl]. apply andb_true_iff in Hrx.
  destruct Hrx as [Hk Hv].
  assert (Hset : dict_set k v acc = acc ++ [(k, v)]).
  { apply dict_set_fresh. rewrite map_app in Hkeys. cbn [map fst] in Hkeys.
    exact (distinct_keys_fresh _ _ _ Hkeys). }
  destruct fuel as [|fuel]; [lia|].
  destruct l as [|y l].
  - cbn [map join fst snd] in *. rewrite entry_shape in *.
    cbn [length] in Hfuel. rewrite length_app in Hfuel.
    cbn [length] in Hfuel.
    rewrite (parse_object_entry fuel k _ v (ch "}" :: rest) acc Hk).
    + rewrite Hset. reflexivity.
    + apply json_dumps_hd. exact Hv.
    + apply (Hx Hv); [reflexivity | lia].
  - set (entry := fun kv : pystr * json =>
                    encode_basestring_ascii (fst kv) ++ lit ": "
                      ++ json_dumps float_repr (snd kv)) in *.
    set (tail := join (lit ", ") (map entry (y :: l)) ++ ch "}" :: rest)
      in *.
    assert (Hshape :
      join (lit ", ") (map entry ((k, v) :: y :: l)) ++ ch "}" :: rest
      = QUOTE :: flat_map escape_char k
          ++ QUOTE :: ch ":" :: ch " "
          :: (json_dumps float_repr v ++ ch "," :: ch " " :: tail)).
    { unfold tail. cbn [map join]. unfold entry at 1. cbn [fst snd].
      rewrite <- !app_assoc.
      rewrite <- (entry_shape k (json_dumps float_repr v)).
      rewrite <- !app_assoc. reflexivity. }
    rewrite Hshape in *. cbn [length] in Hfuel. rewrite length_app in Hfuel.
    cbn [length] in Hfuel. rewrite length_app in Hfuel.
    cbn [length] in Hfuel.
    rewrite (parse_object_entry fuel k _ v (ch "," :: ch " " :: tail) acc Hk).
    + change (skip_ws (ch "," :: ch " " :: tail))
        with (ch "," :: ch " " :: tail).
      change (ch "," =? ch "}")%N with false.
      change (ch "," =? ch ",")%N with true. cbv iota.
      change (skip_ws (ch " " :: tail)) with (skip_ws tail).
      assert (Hhead : is_ws (hd 32%N tail) = false).
      { unfold tail. cbn [map].
        rewrite (join_head _ _ _ QUOTE
                   (flat_map escape_char (fst y) ++ [QUOTE] ++ lit ": "
                      ++ json_dumps float_repr (snd y)) _).
        - reflexivity.
        - unfold entry, encode_basestring_ascii. cbn [app].
          rewrite <- !app_assoc. reflexivity. }
      rewrite (skip_ws_head tail Hhead), Hset.
      unfold tail. rewrite (IH Hrl); [| discriminate | | fold tail; lia].
      * rewrite <- app_assoc. reflexivity.
      * rewrite <- app_assoc. exact Hkeys.
    + apply json_dumps_hd. exact Hv.
    + apply (Hx Hv); [reflexivity|].
      rewrite length_app. cbn [length]. lia.
Qed.

(** The scanner reads back a written value and stops right after it. *)
Lemma scan_once_json_dumps (v : json) : reads_back float_repr v.
Proof.
  pattern v. apply json_induction; clear v.
  - intros Hv fuel rest _ Hfuel.
    destruct (json_dumps_fuel _ _ _ Hv Hfuel) as [fuel' ->]. reflexivity.
  - intros b Hv fuel rest _ Hfuel.
    destruct (json_dumps_fuel _ _ _ Hv Hfuel) as [fuel' ->].
    destruct b; reflexivity.
  - intros n Hv fuel rest Hend Hfuel.
    destruct (json_dumps_fuel _ _ _ Hv Hfuel) as [fuel' ->].
    apply scan_once_int. exact Hend.
  - intros f Hv. discriminate.
  - intros s Hv fuel rest _ Hfuel.
    destruct (json_dumps_fuel _ _ _ Hv Hfuel) as [fuel' ->].
    apply scan_once_string. exact Hv.
  - intros items IH Hv fuel rest _ Hfuel.
    destruct (json_dumps_fuel _ _ _ Hv Hfuel) as [fuel' ->].
    rename fuel' into fuel. cbn [round_trips] in Hv.
    destruct items as [|x l]; [reflexivity|].
    change (json_dumps float_repr (JArr (x :: l)) ++ rest)
      with (ch "[" :: (join (lit ", ")
                         (map (json_dumps float_repr) (x :: l))
                         ++ lit "]") ++ rest) in *.
    rewrite <- app_assoc in *.
    change (lit "]" ++ rest) with (ch "]" :: rest) in *.
    cbn [length] in Hfuel.
    assert (Hx : round_trips x = true).
    { cbn [forallb] in Hv. apply andb_true_iff in Hv. tauto. }
    destruct (json_dumps_head x Hx) as (c & t & Hc & Hws & Hclose & _).
    rewrite scan_once_array.
    + rewrite (parse_array_items (x :: l) IH Hv);
        [reflexivity | discriminate | lia].
    + cbn [map]. rewrite (join_head _ _ _ c t _ Hc). exact Hws.
    + cbn [map]. rewrite (join_head _ _ _ c t _ Hc). exact Hclose.
  - intros fields IH Hv fuel rest _ Hfuel.
    destruct (json_dumps_fuel _ _ _ Hv Hfuel) as [fuel' ->].
    rename fuel' into fuel. cbn [round_trips] in Hv.
    apply andb_true_iff in Hv. destruct Hv as [Hkeys Hv].
    destruct fields as [|kv l]; [reflexivity|].
    set (entry := fun kv : pystr * json =>
                    encode_basestring_ascii (fst kv) ++ lit ": "
                      ++ json_dumps float_repr (snd kv)).
    change (json_dumps float_repr (JObj (kv :: l)) ++ rest)
      with (ch "{" :: (join (lit ", ") (map entry (kv :: l)) ++ lit "}")
              ++ rest) in *.
    rewrite <- app_assoc in *.
    change (lit "}" ++ rest) with (ch "}" :: rest) in *.
    cbn [length] in Hfuel.
    assert (Hhd : hd 32%N (join (lit ", ") (map entry (kv :: l))
                            ++ ch "}" :: rest) = QUOTE).
    { cbn [map].
      apply (join_head _ _ _ QUOTE
               (flat_map escape_char (fst kv) ++ [QUOTE] ++ lit ": "
                  ++ json_dumps float_repr (snd kv))).
      unfold entry, encode_basestring_ascii. cbn [app].
      rewrite <- !app_assoc. reflexivity. }
    rewrite scan_once_object; [| rewrite Hhd; reflexivity
                               | rewrite Hhd; discriminate].
    unfold entry.
    rewrite (parse_object_fields (kv :: l) IH Hv);
      [reflexivity | discriminate | exact Hkeys | fold entry; lia].
Qed.

(** [json.loads(json.dumps(v))] is [v], also with white space after the
    text. *)
Lemma json_loads_json_dumps (v : json) (tail : pystr) :
  round_trips v = true ->
  forallb is_ws tail = true ->
  json_loads (json_dumps float_repr v ++ tail) = Ok v.
Proof.
  intros Hv Htail. unfold json_loads.
  destruct (number_end_ws tail Htail) as [Hend Hskip].
  rewrite (skip_ws_head _ (json_dumps_hd v tail Hv)).
  rewrite (scan_once_json_dumps v Hv) by (exact Hend || lia).
  rewrite Hskip.
  destruct (json_dumps_head v Hv) as (c & t & -> & _ & _ & _ & Hbom).
  cbn [app startswith]. apply not_eq_sym, N.eqb_neq in Hbom.
  rewrite Hbom. reflexivity.
Qed.

End RoundTrip.

(** ** The text of a chunk *)

Lemma hex_char_printable (d : N) :
  (d < 16)%N -> printable_ascii (hex_char d) = true.
Proof.
  intros Hd. pose (P := fun d => printable_ascii (hex_char d)).
  apply (below_cases P 16 d); [vm_compute; reflexivity | exact Hd].
Qed.

Lemma u_escape_printable (n : N) :
  (n < 65536)%N -> forallb printable_ascii (u_escape n) = true.
Proof.
  intros Hn. unfold u_escape. cbn [forallb].
  rewrite !hex_char_printable; [reflexivity | ..].
  - apply N.mod_lt. discriminate.
  - apply N.mod_lt. discriminate.
  - apply N.mod_lt. discriminate.
  - apply N.Div0.div_lt_upper_bound. exact Hn.
Qed.

Lemma surrogate_below (base x : N) :
  (base = 55296 \/ base = 56320)%N ->
  (N.lor base (N.land x 1023) < 65536)%N.
Proof.
  intros Hbase.
  assert (Hland : (N.land x 1023 < 1024)%N).
  { change 1023%N with (N.ones 10). rewrite N.land_ones.
    apply N.mod_lt. discriminate. }
  pose (P := fun y =>
              ((N.lor 55296 y <? 65536) && (N.lor 56320 y <? 65536))%N).
  assert (H : P (N.land x 1023) = true)
    by (apply (below_cases P 1024); [vm_compute; reflexivity | exact Hland]).
  unfold P in H. apply andb_true_iff in H. rewrite !N.ltb_lt in H.
  destruct Hbase as [-> | ->]; tauto.
Qed.

Lemma escape_char_printable (c : N) :
  forallb printable_ascii (escape_char c) = true.
Proof.
  unfold escape_char.
  repeat match goal with
         | |- context [if (c =? ?k)%N then _ else _] =>
           destruct (c =? k)%N; [reflexivity|]
         end.
  destruct ((32 <=? c) && (c <=? 126))%N eqn:Hprint.
  { cbn [forallb]. unfold printable_ascii. rewrite Hprint. reflexivity. }
  destruct (N.ltb_spec c 65536) as [Hbmp|Hhigh].
  { apply u_escape_printable. exact Hbmp. }
  cbv zeta. rewrite forallb_app.
  rewrite !u_escape_printable; [reflexivity | ..];
    apply surrogate_below; auto.
Qed.

Lemma encode_printable (s : pystr) :
  forallb printable_ascii (encode_basestring_ascii s) = true.
Proof.
  unfold encode_basestring_ascii. cbn [forallb]. rewrite forallb_app.
  change (printable_ascii QUOTE) with true. cbn [forallb andb].
  rewrite andb_true_r.
  induction s as [|c s IH]; [reflexivity|].
  cbn [flat_map]. rewrite forallb_app, escape_char_printable. exact IH.
Qed.

Lemma uint_printable (d : Decimal.uint) :
  forallb printable_ascii (lit (NilEmpty.string_of_uint d)) = true.
Proof.
  induction d as [|d IH|d IH|d IH|d IH|d IH|d IH|d IH|d IH|d IH|d IH];
    [ reflexivity
    | digit_step d; cbn [forallb]; rewrite IH; reflexivity .. ].
Qed.

Lemma str_of_int_printable (n : Z) :
  forallb printable_ascii (str_of_int n) = true.
Proof.
  destruct (str_of_int_cases n)
    as [[_ ->]|(neg & p & c & t & _ & -> & -> & _)]; [reflexivity|].
  rewrite forallb_app, uint_printable. destruct neg; reflexivity.
Qed.

Lemma join_printable (sep : pystr) (parts : list pystr) :
  forallb printable_ascii sep = true ->
  forallb (forallb printable_ascii) parts = true ->
  forallb printable_ascii (join sep parts) = true.
Proof.
  intros Hsep. induction parts as [|p parts IH]; [reflexivity|].
  cbn [forallb]. intros H. apply andb_true_iff in H. destruct H as [Hp Hps].
  destruct parts as [|q parts]; [exact Hp|].
  change (join sep (p :: q :: parts)) with (p ++ sep ++ join sep (q :: parts)).
  rewrite !forallb_app, Hp, Hsep, (IH Hps). reflexivity.
Qed.

(** [json.dumps] writes printable ASCII only, whatever the strings hold. *)
Lemma json_dumps_printable (float_repr : pyfloat -> pystr) (v : json) :
  float_free v = true ->
  forallb printable_ascii (json_dumps float_repr v) = true.
Proof.
  pattern v. apply json_induction; clear v.
  - reflexivity.
  - intros [|] _; reflexivity.
  - intros n _. apply str_of_int_printable.
  - discriminate.
  - intros s _. apply encode_printable.
  - intros items IH Hv. cbn [float_free] in Hv.
    change (json_dumps float_repr (JArr items))
      with (ch "[" :: join (lit ", ") (map (json_dumps float_repr) items)
              ++ lit "]").
    cbn [forallb]. rewrite forallb_app, join_printable; [reflexivity.. |].
    induction IH as [|x l Hx Hl IHl]; [reflexivity|].
    cbn [forallb map] in *. apply andb_true_iff in Hv.
    destruct Hv as [Hvx Hvl]. rewrite (Hx Hvx), (IHl Hvl). reflexivity.
  - intros fields IH Hv. cbn [float_free] in Hv.
    change (json_dumps float_repr (JObj fields))
      with (ch "{" :: join (lit ", ")
                        (map (fun kv =>
                                encode_basestring_ascii (fst kv) ++ lit ": "
                                  ++ json_dumps float_repr (snd kv)) fields)
              ++ lit "}").
    cbn [forallb]. rewrite forallb_app, join_printable; [reflexivity.. |].
    induction IH as [|x l Hx Hl IHl]; [reflexivity|].
    cbn [forallb map] in *. apply andb_true_iff in Hv.
    destruct Hv as [Hvx Hvl].
    rewrite !forallb_app, encode_printable, (Hx Hvx), (IHl Hvl).
    reflexivity.
Qed.

Lemma chunk_json_float_free (c : chunk) : float_free (chunk_json c) = true.
Proof.
  unfold chunk_json. cbn [float_free forallb snd].
  assert (Hdelta :
    forallb (fun kv : pystr * json => float_free (snd kv))
      (map (fun kv : pystr * pystr => (fst kv, JStr (snd kv))) (delta c))
    = true).
  { induction (delta c) as [|kv d IH]; [reflexivity|].
    cbn [map forallb snd float_free]. exact IH. }
  rewrite Hdelta. destruct (finish_reason c); reflexivity.
Qed.

Lemma chunk_json_round_trips (c : chunk) :
  chunk_round_trips c = true -> round_trips (chunk_json c) = true.
Proof.
  unfold chunk_round_trips. rewrite !andb_true_iff.
  intros [[[[Hid Hmodel] Hkeys] Hdelta] Hreason].
  assert (Hmap :
    round_trips
      (JObj (map (fun kv : pystr * pystr => (fst kv, JStr (snd kv)))
               (delta c))) = true).
  { cbn [round_trips]. apply andb_true_iff. split.
    - rewrite map_map. cbn [fst]. exact Hkeys.
    - clear Hkeys. induction (delta c) as [|kv d IH]; [reflexivity|].
      cbn [map forallb fst snd round_trips] in *.
      apply andb_true_iff in Hdelta. destruct Hdelta as [Hkv Hd].
      apply andb_true_iff. split; [exact Hkv | exact (IH Hd)]. }
  assert (Hfinish :
    round_trips match finish_reason c with
                | Some reason => JStr reason
                | None => JNull
                end = true).
  { destruct (finish_reason c); [exact Hreason | reflexivity]. }
  unfold chunk_json.
  repeat first
    [ reflexivity
    | exact Hid | exact Hmodel | exact Hmap | exact Hfinish
    | match goal with
      | |- round_trips (JObj ?fields) = true =>
        change (distinct_keys (map fst fields)
                && forallb (fun kv => forallb is_scalar (fst kv)
                                      && round_trips (snd kv)) fields = true);
        cbn [forallb fst snd]
      | |- round_trips (JArr ?items) = true =>
        change (forallb round_trips items = true); cbn [forallb]
      | |- (_ && _) = true => apply andb_true_iff; split
      end ].
Qed.

Lemma chunk_event_json_loads (float_repr : pyfloat -> pystr) (c : chunk) :
  chunk_round_trips c = true ->
  json_loads (drop 6 (chunk_event float_repr c)) = Ok (chunk_json c).
Proof.
  intros Hc.
  change (drop 6 (chunk_event float_repr c))
    with (json_dumps float_repr (chunk_json c) ++ NL ++ NL).
  apply json_loads_json_dumps; [|reflexivity].
  apply chunk_json_round_trips. exact Hc.
Qed.

(** X17 (generate_chunk): a client that takes an event, checks the [data: ]
    mark and decodes what follows it gets the chunk back -- its id, creation
    time, model, delta and finish reason -- when the strings of the chunk are
    made of characters (no surrogate code point) and the delta has no key
    twice. *)
Theorem chunk_event_decodes (float_repr : pyfloat -> pystr) (c : chunk) :
  chunk_round_trips c = true ->
  startswith (lit "data: ") (chunk_event float_repr c) = true
  /\ json_loads (drop 6 (chunk_event float_repr c)) = Ok (chunk_json c).
Proof.
  intros Hc. split.
  - apply startswith_app.
  - apply chunk_event_json_loads. exact Hc.
Qed.

Lemma chunk_event_decodes_witness :
  chunk_round_trips demo_chunk = true
  /\ startswith (lit "data: ") (chunk_event (fun _ => []) demo_chunk) = true
  /\ json_loads (drop 6 (chunk_event (fun _ => []) demo_chunk))
     = Ok (chunk_json demo_chunk).
Proof.
  split; [reflexivity|].
  apply (chunk_event_decodes (fun _ => []) demo_chunk). reflexivity.
Defined.

(** X18 (generate_chunk): whatever the chunk holds -- line breaks, quotes,
    text outside ASCII -- its event is the [data: ] mark, one run of
    printable ASCII characters and two line breaks: one line of data and the
    blank line that ends a server-sent event. *)
Theorem chunk_event_one_line (float_repr : pyfloat -> pystr) (c : chunk) :
  exists body,
    chunk_event float_repr c = lit "data: " ++ body ++ NL ++ NL
    /\ forallb printable_ascii body = true.
Proof.
  exists (json_dumps float_repr (chunk_json c)). split; [reflexivity|].
  apply json_dumps_printable, chunk_json_float_free.
Qed.

(** ** The events of a streamed response *)

Lemma yielded_Forall (P : chunk -> Prop) (py_repr : json -> pystr)
    (request_model _id : pystr) (created : Z) (response : upstream) :
  P (role_chunk request_model _id created) ->
  (forall text, P (content_chunk request_model _id created text)) ->
  (forall text,
      P (generate_chunk _id created request_model [(lit "content", text)]
           (Some (lit "stop")))) ->
  P (stop_chunk request_model _id created) ->
  Forall P
    (yielded (stream_response py_repr request_model _id created response)).
Proof.
  intros Hrole Hcontent Herror Hstop.
  assert (Hline : forall st st' line chunks,
             stream_line py_repr request_model _id created st line
             = Ok (chunks, st') -> Forall P chunks).
  { intros st st' line chunks H. apply think_markers_at_transitions in H.
    destruct H as [[_ [-> | [c ->]]] | [(_ & _ & c & ->) | (_ & _ & c & ->)]];
      repeat constructor; apply Hcontent. }
  assert (Hlines : forall lines st chunks r,
             stream_lines py_repr request_model _id created st lines
             = (chunks, r) -> Forall P chunks).
  { induction lines as [|line rest IH]; intros st chunks r; simpl.
    - intros [= <- <-]. constructor.
    - destruct (stream_line py_repr request_model _id created st line)
        as [[c1 st1]|e] eqn:E.
      + destruct (stream_lines py_repr request_model _id created st1 rest)
          as [more r'] eqn:E'.
        intros [= <- <-]. apply Forall_app. split.
        * eapply Hline, E.
        * eapply IH, E'.
      + intros [= <- <-]. constructor. }
  unfold stream_response.
  destruct (negb (status_code response =? 200)).
  { cbn [yielded]. constructor; [exact Hrole|].
    constructor; [apply Herror | constructor]. }
  destruct (stream_lines py_repr request_model _id created initial_state
              (aiter_lines response)) as [chunks r] eqn:Hloop.
  pose proof (Hlines _ _ _ _ Hloop) as Hchunks.
  destruct r as [st|e]; cbn [yielded].
  - destruct (thinking st); cbv beta iota zeta;
      destruct (if is_r1 request_model then card_pending _ else None);
      cbn [yielded]; (constructor; [exact Hrole|]);
      repeat (apply Forall_app; split); try exact Hchunks;
      repeat constructor; first [apply Hcontent | exact Hstop].
  - constructor; [exact Hrole | exact Hchunks].
Qed.

(** X19 (stream_response, generate_chunk): when the identifier and the model
    of the response are made of characters, every event of the stream whose
    text is made of characters decodes back to the chunk it was written
    from, however the upstream answered and however the generator ended. *)
Theorem stream_events_decode (float_repr : pyfloat -> pystr)
    (py_repr : json -> pystr) (request_model _id : pystr) (created : Z)
    (response : upstream) :
  forallb is_scalar request_model = true ->
  forallb is_scalar _id = true ->
  Forall
    (fun c =>
       (forall text, delta_content c = Some text ->
                     forallb is_scalar text = true) ->
       json_loads (drop 6 (chunk_event float_repr c)) = Ok (chunk_json c))
    (yielded (stream_response py_repr request_model _id created response)).
Proof.
  intros Hmodel Hid.
  assert (Hcontent : forall text fin,
             (fin = None \/ fin = Some (lit "stop")) ->
             (forall t,
                 delta_content
                   (generate_chunk _id created request_model
                      [(lit "content", text)] fin) = Some t ->
                 forallb is_scalar t = true) ->
             json_loads
               (drop 6 (chunk_event float_repr
                          (generate_chunk _id created request_model
                             [(lit "content", text)] fin)))
             = Ok (chunk_json
                     (generate_chunk _id created request_model
                        [(lit "content", text)] fin))).
  { intros text fin Hfin Htext. apply chunk_event_json_loads.
    unfold chunk_round_trips.
    cbn [generate_chunk chunk_id chunk_model delta finish_reason map fst snd
         forallb].
    rewrite Hid, Hmodel, (Htext text eq_refl).
    destruct Hfin as [-> | ->]; reflexivity. }
  apply yielded_Forall.
  - intros _. apply chunk_event_json_loads.
    unfold chunk_round_trips, role_chunk.
    cbn [generate_chunk chunk_id chunk_model delta finish_reason].
    rewrite Hid, Hmodel. reflexivity.
  - intros text. apply Hcontent. left. reflexivity.
  - intros text. apply Hcontent. right. reflexivity.
  - intros _. apply chunk_event_json_loads.
    unfold chunk_round_trips, stop_chunk.
    cbn [generate_chunk chunk_id chunk_model delta finish_reason].
    rewrite Hid, Hmodel. reflexivity.
Qed.

Lemma stream_events_decode_witness :
  Forall
    (fun c =>
       (forall text, delta_content c = Some text ->
                     forallb is_scalar text = true) ->
       json_loads (drop 6 (chunk_event (fun _ => []) c)) = Ok (chunk_json c))
    (yielded (stream_response sample_repr (lit "deepseek-r1")
                (lit "chatcmpl-1") 0
                (ok_lines [thinking_a; card_no_rows; thinking_b]))).
Proof.
  apply (stream_events_decode (fun _ => []) sample_repr (lit "deepseek-r1")
           (lit "chatcmpl-1") 0
           (ok_lines [thinking_a; card_no_rows; thinking_b]));
    reflexivity.
Defined.
